(** * TORCS self-driving client: wire codec, vehicle state, driving policies
      and the racing loop, embedded from the Python sources.

    Conventions of the embedding.
    - A Python [str] is a list of characters ([str]); the characters are the
      code points below 256.
    - Python floats are idealised as exact rationals ([Q]); a decimal literal
      of the source denotes its exact value.
    - A Python value whose dynamic type matters is a [pyval].
    - A raised exception is the [Raise] outcome; code that mutates [self] and
      may raise lives in the state-and-exception monad [M], which keeps the
      mutations made before the exception, as Python does.
    - Built-ins whose exact behaviour is outside the repository ([float],
      [int], [str] on floats, [numpy.sqrt]) are the fields of [PyRuntime]. *)

From Stdlib Require Import List String Ascii ZArith QArith Qminmax Qabs Lia Lqa Bool Arith.
From Stdlib Require Import DecimalString.
Import ListNotations.
Local Close Scope Q_scope.
Local Open Scope nat_scope.
Local Open Scope list_scope.

(* ================================================================== *)
(** * Part I. The embedding                                            *)
(* ================================================================== *)

(** ** Python data *)

Definition str := list ascii.

(** A source literal. *)
Definition lit (s : string) : str := list_ascii_of_string s.

Fixpoint str_eqb (a b : str) : bool :=
  match a, b with
  | [], [] => true
  | x :: a', y :: b' => Ascii.eqb x y && str_eqb a' b'
  | _, _ => false
  end.

Inductive exn :=
| IndexError | TypeError | ValueError | AttributeError | KeyError.

Inductive res (A : Type) :=
| Ok (a : A)
| Raise (e : exn).
Arguments Ok {A} a.
Arguments Raise {A} e.

Inductive pyval :=
| PNone
| PInt (z : Z)
| PFloat (q : Q)
| PStr (s : str).

(** Built-ins of the Python runtime that the sources call.  [None] stands for
    the [ValueError] that [float] and [int] raise on text they reject. *)
Class PyRuntime := {
  float_of_str : str -> option Q;
  int_of_str : str -> option Z;
  str_of_float : Q -> str;
  np_sqrt : Q -> Q
}.

Definition str_of_int (z : Z) : str :=
  lit (NilZero.string_of_int (Z.to_int z)).

(** [str(v)]. *)
Definition py_str `{PyRuntime} (v : pyval) : str :=
  match v with
  | PNone => lit "None"
  | PInt z => str_of_int z
  | PFloat q => str_of_float q
  | PStr s => s
  end.

(** *** Insertion-ordered dictionaries *)

Section Dict.
Variables K V : Type.
Variable eqb : K -> K -> bool.

Definition dict := list (K * V).

(** [d.get(k)] *)
Fixpoint dict_get (k : K) (d : dict) : option V :=
  match d with
  | [] => None
  | (k', v) :: d' => if eqb k k' then Some v else dict_get k d'
  end.

(** [d[k] = v]: an existing key keeps its place, a new one goes last. *)
Fixpoint dict_set (k : K) (v : V) (d : dict) : dict :=
  match d with
  | [] => [(k, v)]
  | (k', v') :: d' =>
      if eqb k k' then (k', v) :: d' else (k', v') :: dict_set k v d'
  end.

Definition keys (d : dict) : list K := map fst d.
End Dict.
Arguments dict_get {K V} eqb k d.
Arguments dict_set {K V} eqb k v d.
Arguments keys {K V} d.

(** *** String primitives *)

(** Scan [s], whose first character has index [i], for [c]. *)
Fixpoint find_at (c : ascii) (s : str) (i : nat) : option nat :=
  match s with
  | [] => None
  | x :: s' => if Ascii.eqb x c then Some i else find_at c s' (S i)
  end.

(** [s.find(c, start)] for a one-character [c]; [None] is Python's [-1]. *)
Definition find (c : ascii) (s : str) (start : nat) : option nat :=
  find_at c (skipn start s) start.

(** [s[a:b]] for [0 <= a]. *)
Definition slice (s : str) (a b : nat) : str := firstn (b - a) (skipn a s).

(** [c.isspace()] on the code points below 256. *)
Definition isspace (c : ascii) : bool :=
  let n := nat_of_ascii c in
  ((9 <=? n) && (n <=? 13)) || ((28 <=? n) && (n <=? 32))
  || (n =? 133) || (n =? 160).

Definition flush (tok : str) (rest : list str) : list str :=
  match tok with
  | [] => rest
  | _ => tok :: rest
  end.

(** [s.split()]: maximal runs of non-whitespace; [tok] is the run under way. *)
Fixpoint split_acc (tok : str) (s : str) : list str :=
  match s with
  | [] => flush tok []
  | c :: s' =>
      if isspace c then flush tok (split_acc [] s')
      else split_acc (tok ++ [c]) s'
  end.

Definition split (s : str) : list str := split_acc [] s.

(** [sep.join(xs)] *)
Fixpoint join (sep : str) (xs : list str) : str :=
  match xs with
  | [] => []
  | [x] => x
  | x :: xs' => x ++ sep ++ join sep xs'
  end.

(** A sequence that counts as true. *)
Definition nonempty {A} (l : list A) : bool :=
  match l with [] => false | _ => true end.

(** [needle in s] *)
Fixpoint starts_with (needle s : str) : bool :=
  match needle, s with
  | [], _ => true
  | _ :: _, [] => false
  | a :: n', b :: s' => Ascii.eqb a b && starts_with n' s'
  end.

Fixpoint contains (needle s : str) : bool :=
  starts_with needle s ||
  match s with
  | [] => false
  | _ :: s' => contains needle s'
  end.

(** ** msgParser.py *)

Module MsgParser.

(** What [parse] returns: the dictionary, or [None] on an unterminated
    group. *)
Inductive parsed :=
| Sensors (sensors : dict str (list str))
| PyNone.

(** The [while b_open >= 0] loop.  [fuel] bounds the iterations;
    [parse_loop_fuel_enough] shows that [S (length str_sensors)] is never
    exhausted. *)
Fixpoint parse_loop (fuel : nat) (str_sensors : str) (b_open : option nat)
    (sensors : dict str (list str)) : option parsed :=
  match b_open with
  | None => Some (Sensors sensors)
  | Some bo =>
      match fuel with
      | O => None
      | S fuel' =>
          match find ")" str_sensors bo with
          | Some b_close =>
              let substr := slice str_sensors (bo + 1) b_close in
              let items := split substr in
              let sensors' :=
                if (List.length items <? 2)%nat then sensors
                else dict_set str_eqb (hd [] items) (tl items) sensors in
              parse_loop fuel' str_sensors (find "(" str_sensors b_close) sensors'
          | None => Some PyNone
          end
      end
  end.

(** The loop started with a given dictionary. *)
Definition parse_from (str_sensors : str) (sensors : dict str (list str))
    : parsed :=
  match parse_loop (S (List.length str_sensors)) str_sensors
          (find "(" str_sensors 0) sensors with
  | Some r => r
  | None => PyNone
  end.

Definition parse (str_sensors : str) : parsed := parse_from str_sensors [].

Section Stringify.
Context `{PyRuntime}.

(** One [(key v1 v2 ...)] group. *)
Definition group (key : str) (value : list pyval) : str :=
  lit "(" ++ key ++ lit " " ++ join (lit " ") (map py_str value) ++ lit ")".

(** [stringify]; a value is [None] or a list, [value[0]] of an empty list
    raises [IndexError]. *)
Fixpoint stringify_from (msg : str)
    (dictionary : dict str (option (list pyval))) : res str :=
  match dictionary with
  | [] => Ok msg
  | (key, value) :: rest =>
      match value with
      | None => stringify_from msg rest
      | Some [] => Raise IndexError
      | Some (PNone :: _) => stringify_from msg rest
      | Some vs => stringify_from (msg ++ group key vs) rest
      end
  end.

Definition stringify (dictionary : dict str (option (list pyval))) : res str :=
  stringify_from [] dictionary.
End Stringify.

End MsgParser.

(** ** State and exceptions *)

(** A method of an object of type [S]: it may change the object and it
    either returns a value or raises; the changes made before an exception
    stay. *)
Definition M (S A : Type) : Type := S -> res A * S.

Definition ret {S A} (a : A) : M S A := fun s => (Ok a, s).

Definition raise {S A} (e : exn) : M S A := fun s => (Raise e, s).

Definition bind {S A B} (m : M S A) (f : A -> M S B) : M S B :=
  fun s =>
    match m s with
    | (Ok a, s') => f a s'
    | (Raise e, s') => (Raise e, s')
    end.

Notation "x <- m ;; k" := (bind m (fun x => k))
  (at level 61, m at next level, right associativity).
Notation "m ;; k" := (bind m (fun _ => k))
  (at level 61, right associativity).

Definition get {S} : M S S := fun s => (Ok s, s).

Definition modify {S} (f : S -> S) : M S unit := fun s => (Ok tt, f s).

Definition lift_res {S A} (r : res A) : M S A := fun s => (r, s).

(** [try: body except Exception: handler] *)
Definition try_except {S A} (body : M S A) (handler : exn -> M S A) : M S A :=
  fun s =>
    match body s with
    | (Ok a, s') => (Ok a, s')
    | (Raise e, s') => handler e s'
    end.

(** A method of an attribute, run on the object that holds it. *)
Definition zoom {S T A} (proj : S -> T) (inj : T -> S -> S) (m : M T A)
    : M S A :=
  fun s => let (r, t) := m (proj s) in (r, inj t s).

(** ** Arithmetic and comparison on Python values *)

Definition Qltb (a b : Q) : bool := negb (Qle_bool b a).

Definition of_float (v : option Q) : pyval :=
  match v with
  | Some q => PFloat q
  | None => PNone
  end.

Definition of_int (v : option Z) : pyval :=
  match v with
  | Some z => PInt z
  | None => PNone
  end.

(** The number that a value stands for; anything else is a [TypeError] in
    arithmetic and in ordering against a number. *)
Definition as_num {S} (v : pyval) : M S Q :=
  match v with
  | PInt z => ret (inject_Z z)
  | PFloat q => ret q
  | _ => raise TypeError
  end.

(** [a < b] and [a > b] *)
Definition py_lt {S} (a b : pyval) : M S bool :=
  x <- as_num a ;; y <- as_num b ;; ret (Qltb x y).

Definition py_gt {S} (a b : pyval) : M S bool :=
  x <- as_num a ;; y <- as_num b ;; ret (Qltb y x).

Definition py_ge {S} (a b : pyval) : M S bool :=
  x <- as_num a ;; y <- as_num b ;; ret (Qle_bool y x).

(** Integers stay integers, a float operand makes the result a float. *)
Definition py_arith {S} (fz : Z -> Z -> Z) (fq : Q -> Q -> Q) (a b : pyval)
    : M S pyval :=
  match a, b with
  | PInt x, PInt y => ret (PInt (fz x y))
  | _, _ => x <- as_num a ;; y <- as_num b ;; ret (PFloat (fq x y))
  end.

Definition py_add {S} : pyval -> pyval -> M S pyval := py_arith Z.add Qplus.
Definition py_sub {S} : pyval -> pyval -> M S pyval := py_arith Z.sub Qminus.
Definition py_mul {S} : pyval -> pyval -> M S pyval := py_arith Z.mul Qmult.

(** [a / b]; the sources only divide by non-zero constants. *)
Definition py_div {S} (a b : pyval) : M S pyval :=
  x <- as_num a ;; y <- as_num b ;; ret (PFloat (x / y)%Q).

Definition py_abs {S} (a : pyval) : M S pyval :=
  match a with
  | PInt x => ret (PInt (Z.abs x))
  | _ => x <- as_num a ;; ret (PFloat (Qabs x))
  end.

(** [max(a, b)] and [min(a, b)]: the first argument wins a tie. *)
Definition py_max {S} (a b : pyval) : M S pyval :=
  c <- py_gt b a ;; ret (if c then b else a).

Definition py_min {S} (a b : pyval) : M S pyval :=
  c <- py_lt b a ;; ret (if c then b else a).

(** [a and b] on conditions: [b] is evaluated only when [a] holds. *)
Definition and_then {S} (a b : M S bool) : M S bool :=
  c <- a ;; if c then b else ret false.

(** ** carState.py *)

Module CarState.

(** The attributes of a [CarState]; the parser attribute has no state. *)
Record t := mk {
  sensors : MsgParser.parsed;
  angle : option Q;
  curLapTime : option Q;
  damage : option Q;
  distFromStart : option Q;
  distRaced : option Q;
  focus : option (list Q);
  fuel : option Q;
  gear : option Z;
  lastLapTime : option Q;
  opponents : option (list Q);
  racePos : option Z;
  rpm : option Q;
  speedX : option Q;
  speedY : option Q;
  speedZ : option Q;
  track : option (list Q);
  trackPos : option Q;
  wheelSpinVel : option (list Q);
  z : option Q;
  x : option Q;
  y : option Q
}.

(** [__init__] *)
Definition new : t :=
  mk MsgParser.PyNone None None None None None None None None None None
     None None None None None None None None None None None.

Definition set_sensors (v : MsgParser.parsed) (s : t) : t :=
  mk v (angle s) (curLapTime s) (damage s) (distFromStart s) (distRaced s)
     (focus s) (fuel s) (gear s) (lastLapTime s) (opponents s) (racePos s)
     (rpm s) (speedX s) (speedY s) (speedZ s) (track s) (trackPos s)
     (wheelSpinVel s) (z s) (x s) (y s).

Definition set_Angle (v : option Q) (s : t) : t :=
  mk (sensors s) v (curLapTime s) (damage s) (distFromStart s) (distRaced s)
     (focus s) (fuel s) (gear s) (lastLapTime s) (opponents s) (racePos s)
     (rpm s) (speedX s) (speedY s) (speedZ s) (track s) (trackPos s)
     (wheelSpinVel s) (z s) (x s) (y s).

Definition set_CurLapTime (v : option Q) (s : t) : t :=
  mk (sensors s) (angle s) v (damage s) (distFromStart s) (distRaced s)
     (focus s) (fuel s) (gear s) (lastLapTime s) (opponents s) (racePos s)
     (rpm s) (speedX s) (speedY s) (speedZ s) (track s) (trackPos s)
     (wheelSpinVel s) (z s) (x s) (y s).

Definition set_Damage (v : option Q) (s : t) : t :=
  mk (sensors s) (angle s) (curLapTime s) v (distFromStart s) (distRaced s)
     (focus s) (fuel s) (gear s) (lastLapTime s) (opponents s) (racePos s)
     (rpm s) (speedX s) (speedY s) (speedZ s) (track s) (trackPos s)
     (wheelSpinVel s) (z s) (x s) (y s).

Definition set_DistFromStart (v : option Q) (s : t) : t :=
  mk (sensors s) (angle s) (curLapTime s) (damage s) v (distRaced s)
     (focus s) (fuel s) (gear s) (lastLapTime s) (opponents s) (racePos s)
     (rpm s) (speedX s) (speedY s) (speedZ s) (track s) (trackPos s)
     (wheelSpinVel s) (z s) (x s) (y s).

Definition set_DistRaced (v : option Q) (s : t) : t :=
  mk (sensors s) (angle s) (curLapTime s) (damage s) (distFromStart s) v
     (focus s) (fuel s) (gear s) (lastLapTime s) (opponents s) (racePos s)
     (rpm s) (speedX s) (speedY s) (speedZ s) (track s) (trackPos s)
     (wheelSpinVel s) (z s) (x s) (y s).

Definition set_Focus (v : option (list Q)) (s : t) : t :=
  mk (sensors s) (angle s) (curLapTime s) (damage s) (distFromStart s)
     (distRaced s) v (fuel s) (gear s) (lastLapTime s) (opponents s)
     (racePos s) (rpm s) (speedX s) (speedY s) (speedZ s) (track s)
     (trackPos s) (wheelSpinVel s) (z s) (x s) (y s).

Definition set_Fuel (v : option Q) (s : t) : t :=
  mk (sensors s) (angle s) (curLapTime s) (damage s) (distFromStart s)
     (distRaced s) (focus s) v (gear s) (lastLapTime s) (opponents s)
     (racePos s) (rpm s) (speedX s) (speedY s) (speedZ s) (track s)
     (trackPos s) (wheelSpinVel s) (z s) (x s) (y s).

Definition set_Gear (v : option Z) (s : t) : t :=
  mk (sensors s) (angle s) (curLapTime s) (damage s) (distFromStart s)
     (distRaced s) (focus s) (fuel s) v (lastLapTime s) (opponents s)
     (racePos s) (rpm s) (speedX s) (speedY s) (speedZ s) (track s)
     (trackPos s) (wheelSpinVel s) (z s) (x s) (y s).

Definition set_LastLapTime (v : option Q) (s : t) : t :=
  mk (sensors s) (angle s) (curLapTime s) (damage s) (distFromStart s)
     (distRaced s) (focus s) (fuel s) (gear s) v (opponents s) (racePos s)
     (rpm s) (speedX s) (speedY s) (speedZ s) (track s) (trackPos s)
     (wheelSpinVel s) (z s) (x s) (y s).

Definition set_Opponents (v : option (list Q)) (s : t) : t :=
  mk (sensors s) (angle s) (curLapTime s) (damage s) (distFromStart s)
     (distRaced s) (focus s) (fuel s) (gear s) (lastLapTime s) v (racePos s)
     (rpm s) (speedX s) (speedY s) (speedZ s) (track s) (trackPos s)
     (wheelSpinVel s) (z s) (x s) (y s).

Definition set_RacePos (v : option Z) (s : t) : t :=
  mk (sensors s) (angle s) (curLapTime s) (damage s) (distFromStart s)
     (distRaced s) (focus s) (fuel s) (gear s) (lastLapTime s) (opponents s)
     v (rpm s) (speedX s) (speedY s) (speedZ s) (track s) (trackPos s)
     (wheelSpinVel s) (z s) (x s) (y s).

Definition set_Rpm (v : option Q) (s : t) : t :=
  mk (sensors s) (angle s) (curLapTime s) (damage s) (distFromStart s)
     (distRaced s) (focus s) (fuel s) (gear s) (lastLapTime s) (opponents s)
     (racePos s) v (speedX s) (speedY s) (speedZ s) (track s) (trackPos s)
     (wheelSpinVel s) (z s) (x s) (y s).

Definition set_SpeedX (v : option Q) (s : t) : t :=
  mk (sensors s) (angle s) (curLapTime s) (damage s) (distFromStart s)
     (distRaced s) (focus s) (fuel s) (gear s) (lastLapTime s) (opponents s)
     (racePos s) (rpm s) v (speedY s) (speedZ s) (track s) (trackPos s)
     (wheelSpinVel s) (z s) (x s) (y s).

Definition set_SpeedY (v : option Q) (s : t) : t :=
  mk (sensors s) (angle s) (curLapTime s) (damage s) (distFromStart s)
     (distRaced s) (focus s) (fuel s) (gear s) (lastLapTime s) (opponents s)
     (racePos s) (rpm s) (speedX s) v (speedZ s) (track s) (trackPos s)
     (wheelSpinVel s) (z s) (x s) (y s).

Definition set_SpeedZ (v : option Q) (s : t) : t :=
  mk (sensors s) (angle s) (curLapTime s) (damage s) (distFromStart s)
     (distRaced s) (focus s) (fuel s) (gear s) (lastLapTime s) (opponents s)
     (racePos s) (rpm s) (speedX s) (speedY s) v (track s) (trackPos s)
     (wheelSpinVel s) (z s) (x s) (y s).

Definition set_Track (v : option (list Q)) (s : t) : t :=
  mk (sensors s) (angle s) (curLapTime s) (damage s) (distFromStart s)
     (distRaced s) (focus s) (fuel s) (gear s) (lastLapTime s) (opponents s)
     (racePos s) (rpm s) (speedX s) (speedY s) (speedZ s) v (trackPos s)
     (wheelSpinVel s) (z s) (x s) (y s).

Definition set_TrackPos (v : option Q) (s : t) : t :=
  mk (sensors s) (angle s) (curLapTime s) (damage s) (distFromStart s)
     (distRaced s) (focus s) (fuel s) (gear s) (lastLapTime s) (opponents s)
     (racePos s) (rpm s) (speedX s) (speedY s) (speedZ s) (track s) v
     (wheelSpinVel s) (z s) (x s) (y s).

Definition set_WheelSpinVel (v : option (list Q)) (s : t) : t :=
  mk (sensors s) (angle s) (curLapTime s) (damage s) (distFromStart s)
     (distRaced s) (focus s) (fuel s) (gear s) (lastLapTime s) (opponents s)
     (racePos s) (rpm s) (speedX s) (speedY s) (speedZ s) (track s)
     (trackPos s) v (z s) (x s) (y s).

Definition set_Z (v : option Q) (s : t) : t :=
  mk (sensors s) (angle s) (curLapTime s) (damage s) (distFromStart s)
     (distRaced s) (focus s) (fuel s) (gear s) (lastLapTime s) (opponents s)
     (racePos s) (rpm s) (speedX s) (speedY s) (speedZ s) (track s)
     (trackPos s) (wheelSpinVel s) v (x s) (y s).

Definition set_X (v : option Q) (s : t) : t :=
  mk (sensors s) (angle s) (curLapTime s) (damage s) (distFromStart s)
     (distRaced s) (focus s) (fuel s) (gear s) (lastLapTime s) (opponents s)
     (racePos s) (rpm s) (speedX s) (speedY s) (speedZ s) (track s)
     (trackPos s) (wheelSpinVel s) (z s) v (y s).

Definition set_Y (v : option Q) (s : t) : t :=
  mk (sensors s) (angle s) (curLapTime s) (damage s) (distFromStart s)
     (distRaced s) (focus s) (fuel s) (gear s) (lastLapTime s) (opponents s)
     (racePos s) (rpm s) (speedX s) (speedY s) (speedZ s) (track s)
     (trackPos s) (wheelSpinVel s) (z s) (x s) v.


(** [getFloatD], [getFloatListD] and [getIntD]: [self.sensors.get(name)] on
    the [None] that [parse] returned raises [AttributeError]. *)
Section Decode.
Context `{PyRuntime}.

Definition sensors_get (name : str) : M t (option (list str)) :=
  self <- get ;;
  match sensors self with
  | MsgParser.PyNone => raise AttributeError
  | MsgParser.Sensors d => ret (dict_get str_eqb name d)
  end.

Definition float (token : str) : res Q :=
  match float_of_str token with
  | Some q => Ok q
  | None => Raise ValueError
  end.

Definition int (token : str) : res Z :=
  match int_of_str token with
  | Some z => Ok z
  | None => Raise ValueError
  end.

(** [[float(v) for v in val]] *)
Fixpoint floats (val : list str) : res (list Q) :=
  match val with
  | [] => Ok []
  | v :: val' =>
      match float v with
      | Ok q =>
          match floats val' with
          | Ok qs => Ok (q :: qs)
          | Raise e => Raise e
          end
      | Raise e => Raise e
      end
  end.

(** [f(val[0])] *)
Definition first {A} (f : str -> res A) (val : list str) : res A :=
  match val with
  | [] => Raise IndexError
  | v :: _ => f v
  end.

Definition getFloatD (name : str) : M t (option Q) :=
  val <- sensors_get name ;;
  match val with
  | Some val => q <- lift_res (first float val) ;; ret (Some q)
  | None => ret None
  end.

Definition getFloatListD (name : str) : M t (option (list Q)) :=
  val <- sensors_get name ;;
  match val with
  | Some val => qs <- lift_res (floats val) ;; ret (Some qs)
  | None => ret None
  end.

Definition getIntD (name : str) : M t (option Z) :=
  val <- sensors_get name ;;
  match val with
  | Some val => z <- lift_res (first int val) ;; ret (Some z)
  | None => ret None
  end.

Definition setAngleD : M t unit :=
  v <- getFloatD (lit "angle") ;; modify (set_Angle v).

Definition setCurLapTimeD : M t unit :=
  v <- getFloatD (lit "curLapTime") ;; modify (set_CurLapTime v).

Definition setDamageD : M t unit :=
  v <- getFloatD (lit "damage") ;; modify (set_Damage v).

Definition setDistFromStartD : M t unit :=
  v <- getFloatD (lit "distFromStart") ;; modify (set_DistFromStart v).

Definition setDistRacedD : M t unit :=
  v <- getFloatD (lit "distRaced") ;; modify (set_DistRaced v).

Definition setFocusD : M t unit :=
  v <- getFloatListD (lit "focus") ;; modify (set_Focus v).

Definition setFuelD : M t unit :=
  v <- getFloatD (lit "fuel") ;; modify (set_Fuel v).

Definition setGearD : M t unit :=
  v <- getIntD (lit "gear") ;; modify (set_Gear v).

Definition setLastLapTimeD : M t unit :=
  v <- getFloatD (lit "lastLapTime") ;; modify (set_LastLapTime v).

Definition setOpponentsD : M t unit :=
  v <- getFloatListD (lit "opponents") ;; modify (set_Opponents v).

Definition setRacePosD : M t unit :=
  v <- getIntD (lit "racePos") ;; modify (set_RacePos v).

Definition setRpmD : M t unit :=
  v <- getFloatD (lit "rpm") ;; modify (set_Rpm v).

Definition setSpeedXD : M t unit :=
  v <- getFloatD (lit "speedX") ;; modify (set_SpeedX v).

Definition setSpeedYD : M t unit :=
  v <- getFloatD (lit "speedY") ;; modify (set_SpeedY v).

Definition setSpeedZD : M t unit :=
  v <- getFloatD (lit "speedZ") ;; modify (set_SpeedZ v).

Definition setTrackD : M t unit :=
  v <- getFloatListD (lit "track") ;; modify (set_Track v).

Definition setTrackPosD : M t unit :=
  v <- getFloatD (lit "trackPos") ;; modify (set_TrackPos v).

Definition setWheelSpinVelD : M t unit :=
  v <- getFloatListD (lit "wheelSpinVel") ;; modify (set_WheelSpinVel v).

Definition setZD : M t unit :=
  v <- getFloatD (lit "z") ;; modify (set_Z v).

Definition setXD : M t unit :=
  v <- getFloatD (lit "x") ;; modify (set_X v).

Definition setYD : M t unit :=
  v <- getFloatD (lit "y") ;; modify (set_Y v).

Definition setFromMsg (str_sensors : str) : M t unit :=
  modify (set_sensors (MsgParser.parse str_sensors)) ;;
  setAngleD ;;
  setCurLapTimeD ;;
  setDamageD ;;
  setDistFromStartD ;;
  setDistRacedD ;;
  setFocusD ;;
  setFuelD ;;
  setGearD ;;
  setLastLapTimeD ;;
  setOpponentsD ;;
  setRacePosD ;;
  setRpmD ;;
  setSpeedXD ;;
  setSpeedYD ;;
  setSpeedZD ;;
  setTrackD ;;
  setTrackPosD ;;
  setWheelSpinVelD ;;
  setZD ;;
  setXD ;;
  setYD.

End Decode.

Definition getAngle (s : t) := angle s.
Definition getCurLapTime (s : t) := curLapTime s.
Definition getDamage (s : t) := damage s.
Definition getDistFromStart (s : t) := distFromStart s.
Definition getDistRaced (s : t) := distRaced s.
Definition getFuel (s : t) := fuel s.
Definition getGear (s : t) := gear s.
Definition getOpponents (s : t) := opponents s.
Definition getRacePos (s : t) := racePos s.
Definition getRpm (s : t) := rpm s.
Definition getSpeedX (s : t) := speedX s.
Definition getSpeedY (s : t) := speedY s.
Definition getSpeedZ (s : t) := speedZ s.
Definition getTrack (s : t) := track s.
Definition getTrackPos (s : t) := trackPos s.
Definition getWheelSpinVel (s : t) := wheelSpinVel s.
Definition getZ (s : t) := z s.
Definition getX (s : t) := x s.
Definition getY (s : t) := y s.

End CarState.

(** ** carControl.py *)

Module CarControl.

Record t := mk {
  actions : dict str (option (list pyval));
  accel : pyval;
  brake : pyval;
  gear : pyval;
  steer : pyval;
  clutch : pyval;
  focus : pyval;
  meta : pyval
}.

(** [__init__] with its default arguments. *)
Definition new : t :=
  mk [] (PFloat 0.0) (PFloat 0.0) (PInt 1) (PFloat 0.0) (PFloat 0.0)
     (PInt 0) (PInt 0).

Definition set_actions (v : dict str (option (list pyval))) (c : t) : t :=
  mk v (accel c) (brake c) (gear c) (steer c) (clutch c) (focus c) (meta c).

Definition set_accel (v : pyval) (c : t) : t :=
  mk (actions c) v (brake c) (gear c) (steer c) (clutch c) (focus c) (meta c).

Definition set_brake (v : pyval) (c : t) : t :=
  mk (actions c) (accel c) v (gear c) (steer c) (clutch c) (focus c) (meta c).

Definition set_gear (v : pyval) (c : t) : t :=
  mk (actions c) (accel c) (brake c) v (steer c) (clutch c) (focus c) (meta c).

Definition set_steer (v : pyval) (c : t) : t :=
  mk (actions c) (accel c) (brake c) (gear c) v (clutch c) (focus c) (meta c).

Definition set_clutch (v : pyval) (c : t) : t :=
  mk (actions c) (accel c) (brake c) (gear c) (steer c) v (focus c) (meta c).

Definition set_meta (v : pyval) (c : t) : t :=
  mk (actions c) (accel c) (brake c) (gear c) (steer c) (clutch c) (focus c) v.

(** The dictionary that [toMsg] builds. *)
Definition actions_of (c : t) : dict str (option (list pyval)) :=
  [ (lit "accel", Some [accel c]);
    (lit "brake", Some [brake c]);
    (lit "gear", Some [gear c]);
    (lit "steer", Some [steer c]);
    (lit "clutch", Some [clutch c]);
    (lit "focus", Some [focus c]);
    (lit "meta", Some [meta c]) ].

Definition toMsg `{PyRuntime} : M t str :=
  self <- get ;;
  modify (set_actions (actions_of self)) ;;
  lift_res (MsgParser.stringify (actions_of self)).

Definition setAccel (v : pyval) : M t unit := modify (set_accel v).
Definition getAccel : M t pyval := self <- get ;; ret (accel self).
Definition setBrake (v : pyval) : M t unit := modify (set_brake v).
Definition getBrake : M t pyval := self <- get ;; ret (brake self).
Definition setGear (v : pyval) : M t unit := modify (set_gear v).
Definition getGear : M t pyval := self <- get ;; ret (gear self).
Definition setSteer (v : pyval) : M t unit := modify (set_steer v).
Definition getSteer : M t pyval := self <- get ;; ret (steer self).
Definition setClutch (v : pyval) : M t unit := modify (set_clutch v).
Definition getClutch : M t pyval := self <- get ;; ret (clutch self).
Definition setMeta (v : pyval) : M t unit := modify (set_meta v).
Definition getMeta : M t pyval := self <- get ;; ret (meta self).

End CarControl.

(** [np.clip(v, lo, hi)] *)
Definition clip (v lo hi : Q) : Q := Qmin (Qmax v lo) hi.

(** [a == b] *)
Definition py_eq (a b : pyval) : bool :=
  match a, b with
  | PNone, PNone => true
  | PStr s, PStr s' => str_eqb s s'
  | PInt x, PInt y => Z.eqb x y
  | PInt x, PFloat q | PFloat q, PInt x => Qeq_bool (inject_Z x) q
  | PFloat p, PFloat q => Qeq_bool p q
  | _, _ => false
  end.

(** The integer that a number is equal to, if any: the key under which a
    dictionary with integer keys finds it. *)
Definition int_key (v : pyval) : option Z :=
  match v with
  | PInt z => Some z
  | PFloat q =>
      let r := Qred q in
      if Pos.eqb (Qden r) 1 then Some (Qnum r) else None
  | _ => None
  end.

(** [l[i] = v] for [i] in range. *)
Fixpoint set_nth {A} (i : nat) (v : A) (l : list A) : list A :=
  match l, i with
  | [], _ => []
  | _ :: l', O => v :: l'
  | a :: l', S i' => a :: set_nth i' v l'
  end.

(** [min(l)] of a non-empty list of floats: the first least element. *)
Definition list_min (l : list Q) : option Q :=
  match l with
  | [] => None
  | a :: l' => Some (fold_left (fun m v => if Qltb v m then v else m) l' a)
  end.

(** The range-finder angles that every driver's [init] computes. *)
Definition rangefinder_angles : list Z :=
  let angles := repeat 0%Z 19 in
  let angles :=
    fold_left (fun a i =>
                 set_nth (18 - i) (90 - Z.of_nat i * 15)%Z
                   (set_nth i (-90 + Z.of_nat i * 15)%Z a))
              (seq 0 5) angles in
  fold_left (fun a i =>
               set_nth (18 - i) (20 - (Z.of_nat i - 5) * 5)%Z
                 (set_nth i (-20 + (Z.of_nat i - 5) * 5)%Z a))
            (seq 5 4) angles.

(** ** rule_driver.py *)

Module RuleDriver.

Record t := mk {
  stage : Z;
  state : CarState.t;
  control : CarControl.t;
  angles : option (list Z)
}.

Definition steer_lock : Q := 0.785398.
Definition max_speed : Z := 200.
Definition MIN_GEAR : Z := 1.
Definition MAX_GEAR : Z := 6.
Definition UPSHIFT_RPM : Z := 7000.
Definition DOWNSHIFT_RPM : Z := 3000.
Definition CURVATURE_SENSITIVITY : Q := 0.6.
Definition MIN_TURN_THRESHOLD : Q := 0.4.
Definition MAX_TURN_THRESHOLD : Q := 0.7.
Definition LOOK_AHEAD_DISTANCE : nat := 12.
Definition CURVE_DETECTION_THRESHOLD : Z := 40.
Definition SPEED_REDUCTION_FACTOR : Q := 0.8.

(** [__init__] *)
Definition new (stage : Z) : t := mk stage CarState.new CarControl.new None.

Definition set_state (v : CarState.t) (d : t) : t :=
  mk (stage d) v (control d) (angles d).

Definition set_control (v : CarControl.t) (d : t) : t :=
  mk (stage d) (state d) v (angles d).

Definition set_angles (v : option (list Z)) (d : t) : t :=
  mk (stage d) (state d) (control d) v.

Definition in_state {A} : M CarState.t A -> M t A := zoom state set_state.
Definition in_control {A} : M CarControl.t A -> M t A := zoom control set_control.

Section Methods.
Context `{PyRuntime}.

Definition init : M t str :=
  modify (set_angles (Some rangefinder_angles)) ;;
  lift_res (MsgParser.stringify
              [(lit "init", Some (map PInt rangefinder_angles))]).

Definition steer : M t unit :=
  self <- get ;;
  let angle := of_float (CarState.angle (state self)) in
  let trackPos := of_float (CarState.trackPos (state self)) in
  half <- py_mul trackPos (PFloat 0.5) ;;
  diff <- py_sub angle half ;;
  steer_cmd <- py_div diff (PFloat steer_lock) ;;
  in_control (CarControl.setSteer steer_cmd).

Definition gear : M t unit :=
  self <- get ;;
  let rpm := of_float (CarState.getRpm (state self)) in
  let gear := of_int (CarState.getGear (state self)) in
  up <- and_then (py_gt rpm (PInt UPSHIFT_RPM)) (py_lt gear (PInt MAX_GEAR)) ;;
  gear <-
    (if up then py_add gear (PInt 1)
     else
       down <- and_then (py_lt rpm (PInt DOWNSHIFT_RPM))
                        (py_gt gear (PInt MIN_GEAR)) ;;
       if down then py_sub gear (PInt 1) else ret gear) ;;
  in_control (CarControl.setGear gear).

Definition speed : M t unit :=
  self <- get ;;
  let speed := of_float (CarState.getSpeedX (state self)) in
  let accel := CarControl.accel (control self) in
  let steer := CarControl.steer (control self) in
  let track_pos := of_float (CarState.trackPos (state self)) in
  let track_sensors := CarState.getTrack (state self) in
  abs_steer <- py_abs steer ;;
  abs_pos <- py_abs track_pos ;;
  weighted <- py_mul abs_pos (PFloat 0.3) ;;
  sum <- py_add abs_steer weighted ;;
  turn_sharpness <- py_mul sum (PFloat CURVATURE_SENSITIVITY) ;;
  ahead <-
    (match track_sensors with
     | Some sensors =>
         if nonempty sensors && (LOOK_AHEAD_DISTANCE <=? List.length sensors) then
           match list_min (firstn LOOK_AHEAD_DISTANCE sensors) with
           | Some min_track_ahead =>
               if Qltb min_track_ahead (inject_Z CURVE_DETECTION_THRESHOLD) then
                 let curve_factor :=
                   (min_track_ahead / inject_Z CURVE_DETECTION_THRESHOLD)%Q in
                 factor <- py_max (PFloat curve_factor)
                                  (PFloat SPEED_REDUCTION_FACTOR) ;;
                 more <- py_add turn_sharpness
                           (PFloat ((1 - curve_factor) * 0.3)%Q) ;;
                 ret (factor, more)
               else ret (PFloat 1.0, turn_sharpness)
           | None => ret (PFloat 1.0, turn_sharpness)
           end
         else ret (PFloat 1.0, turn_sharpness)
     | None => ret (PFloat 1.0, turn_sharpness)
     end) ;;
  let upcoming_curve_factor := fst ahead in
  let turn_sharpness := snd ahead in
  below <- py_lt speed (PInt max_speed) ;;
  target_accel <-
    (if below then py_mul (PFloat 1.0) upcoming_curve_factor
     else ret (PFloat 0.0)) ;;
  sharp <- py_gt turn_sharpness (PFloat MIN_TURN_THRESHOLD) ;;
  target_accel <-
    (if sharp then
       reduction <- py_min turn_sharpness (PFloat 0.6) ;;
       rest <- py_sub (PInt 1) reduction ;;
       reduced <- py_mul target_accel rest ;;
       py_max reduced (PFloat 0.4)
     else ret target_accel) ;;
  lower <- py_lt accel target_accel ;;
  accel <-
    (if lower then py_add accel (PFloat 0.3)
     else
       higher <- py_gt accel target_accel ;;
       if higher then py_sub accel (PFloat 0.2) else ret accel) ;;
  capped <- py_min (PFloat 1.0) accel ;;
  accel <- py_max (PFloat 0.0) capped ;;
  in_control (CarControl.setAccel accel).

Definition drive (msg : str) : M t str :=
  in_state (CarState.setFromMsg msg) ;;
  steer ;;
  gear ;;
  speed ;;
  in_control CarControl.toMsg.

Definition onShutDown : M t unit := ret tt.

Definition onRestart : M t unit := ret tt.

End Methods.

End RuleDriver.

(** ** learning_driver.py *)

(** The fitted artefacts that [LearningDriver] loads from disk.  [scale] is
    the effect of the [if self.scaler:] block on the one-row frame (the
    identity when there is no scaler or when scaling fails); [predict]
    is [float(model.predict(features)[0])] for the model of a control, on the
    row or on the empty frame ([None]), with [None] when it raises. *)
Class Trained := {
  scale : list (str * Q) -> list (str * Q);
  predict : str -> option (list (str * Q)) -> option Q
}.

Module LearningDriver.

Record t := mk {
  stage : Z;
  state : CarState.t;
  control : CarControl.t;
  history : dict str (list pyval);
  prev_rpm : pyval;
  angles : option (list Z)
}.

Definition window_size : nat := 5.

Definition upshift_rpm : dict Z Z :=
  [(1, 7000); (2, 7000); (3, 7000); (4, 7500); (5, 7500); (6, 7500)]%Z.

Definition downshift_rpm : dict Z Z :=
  [(2, 2000); (3, 2500); (4, 3000); (5, 3500); (6, 4000)]%Z.

(** [__init__], once the models are loaded. *)
Definition new (stage : Z) : t :=
  mk stage CarState.new CarControl.new
     [(lit "SpeedX", []); (lit "SpeedY", []); (lit "Angle", [])]
     (PInt 0) None.

Definition set_state (v : CarState.t) (d : t) : t :=
  mk (stage d) v (control d) (history d) (prev_rpm d) (angles d).

Definition set_control (v : CarControl.t) (d : t) : t :=
  mk (stage d) (state d) v (history d) (prev_rpm d) (angles d).

Definition set_history (v : dict str (list pyval)) (d : t) : t :=
  mk (stage d) (state d) (control d) v (prev_rpm d) (angles d).

Definition set_prev_rpm (v : pyval) (d : t) : t :=
  mk (stage d) (state d) (control d) (history d) v (angles d).

Definition set_angles (v : option (list Z)) (d : t) : t :=
  mk (stage d) (state d) (control d) (history d) (prev_rpm d) v.

Definition in_state {A} : M CarState.t A -> M t A := zoom state set_state.
Definition in_control {A} : M CarControl.t A -> M t A := zoom control set_control.

(** [getattr(state, f'get{feature}')()] *)
Definition getter (feature : str) (s : CarState.t) : res pyval :=
  if str_eqb feature (lit "SpeedX") then Ok (of_float (CarState.getSpeedX s))
  else if str_eqb feature (lit "SpeedY") then Ok (of_float (CarState.getSpeedY s))
  else if str_eqb feature (lit "SpeedZ") then Ok (of_float (CarState.getSpeedZ s))
  else if str_eqb feature (lit "Angle") then Ok (of_float (CarState.getAngle s))
  else if str_eqb feature (lit "Rpm") then Ok (of_float (CarState.getRpm s))
  else if str_eqb feature (lit "TrackPos") then Ok (of_float (CarState.getTrackPos s))
  else Raise AttributeError.

(** [hist.append(value)], then [hist.pop(0)] when the window is exceeded. *)
Definition push (value : pyval) (hist : list pyval) : list pyval :=
  let hist := hist ++ [value] in
  if (window_size <? List.length hist) then tl hist else hist.

(** The loop of [_update_history] over the keys still to visit. *)
Fixpoint update_features (features : list str) (s : CarState.t) : M t unit :=
  match features with
  | [] => ret tt
  | feature :: rest =>
      value <- lift_res (getter feature s) ;;
      self <- get ;;
      match dict_get str_eqb feature (history self) with
      | Some hist =>
          modify (set_history (dict_set str_eqb feature (push value hist)
                                 (history self))) ;;
          update_features rest s
      | None => raise KeyError
      end
  end.

Definition _update_history : M t unit :=
  self <- get ;;
  update_features (keys (history self)) (state self).

(** [np.mean(hist) if hist else 0] *)
Fixpoint total {S} (hist : list pyval) : M S Q :=
  match hist with
  | [] => ret 0%Q
  | v :: hist' => x <- as_num v ;; rest <- total hist' ;; ret (x + rest)%Q
  end.

Definition mean_or_zero {S} (hist : list pyval) : M S Q :=
  match hist with
  | [] => ret 0%Q
  | _ => sum <- total hist ;; ret (sum / inject_Z (Z.of_nat (List.length hist)))%Q
  end.

Definition history_of (name : str) : M t (list pyval) :=
  self <- get ;;
  match dict_get str_eqb name (history self) with
  | Some hist => ret hist
  | None => raise KeyError
  end.

Definition _get_moving_averages : M t (Q * Q * Q) :=
  hx <- history_of (lit "SpeedX") ;;
  mx <- mean_or_zero hx ;;
  hy <- history_of (lit "SpeedY") ;;
  my <- mean_or_zero hy ;;
  ha <- history_of (lit "Angle") ;;
  ma <- mean_or_zero ha ;;
  ret (mx, my, ma).

Section Methods.
Context `{PyRuntime} `{Trained}.

Definition init : M t str :=
  modify (set_angles (Some rangefinder_angles)) ;;
  lift_res (MsgParser.stringify
              [(lit "init", Some (map PInt rangefinder_angles))]).

(** [_prepare_features]: the one-row frame, or the empty frame ([None]) when
    anything in the [try] block raises. *)
Definition _prepare_features : M t (option (list (str * Q))) :=
  try_except
    (self <- get ;;
     let state := state self in
     speedX <- as_num (of_float (CarState.getSpeedX state)) ;;
     speedY <- as_num (of_float (CarState.getSpeedY state)) ;;
     speedZ <- as_num (of_float (CarState.getSpeedZ state)) ;;
     let speed_magnitude :=
       np_sqrt (speedX * speedX + speedY * speedY + speedZ * speedZ)%Q in
     let angle := of_float (CarState.getAngle state) in
     let rpm := of_float (CarState.getRpm state) in
     let track_pos := of_float (CarState.getTrackPos state) in
     ha <- history_of (lit "Angle") ;;
     angle_change <-
       (if nonempty ha then py_sub angle (last ha PNone) else ret (PInt 0)) ;;
     rpm_change <- py_sub rpm (prev_rpm self) ;;
     modify (set_prev_rpm rpm) ;;
     ma_features <- _get_moving_averages ;;
     speed_angle_interaction <- py_mul (PFloat speed_magnitude) angle ;;
     speed_position_interaction <- py_mul (PFloat speed_magnitude) track_pos ;;
     dist_from_center <- py_abs track_pos ;;
     angle <- as_num angle ;;
     angle_change <- as_num angle_change ;;
     rpm <- as_num rpm ;;
     rpm_change <- as_num rpm_change ;;
     track_pos <- as_num track_pos ;;
     speed_angle_interaction <- as_num speed_angle_interaction ;;
     speed_position_interaction <- as_num speed_position_interaction ;;
     dist_from_center <- as_num dist_from_center ;;
     let features :=
       [ (lit "Speed_Magnitude", speed_magnitude);
         (lit "SpeedX", speedX);
         (lit "SpeedY", speedY);
         (lit "SpeedZ", speedZ);
         (lit "Dist_From_Center", dist_from_center);
         (lit "Angle", angle);
         (lit "Angle_Change", angle_change);
         (lit "RPM", rpm);
         (lit "RPM_Change", rpm_change);
         (lit "TrackPos", track_pos);
         (lit "Speed_Angle_Interaction", speed_angle_interaction);
         (lit "Speed_Position_Interaction", speed_position_interaction);
         (lit "SpeedX_MA", fst (fst ma_features));
         (lit "SpeedY_MA", snd (fst ma_features));
         (lit "Angle_MA", snd ma_features) ] in
     ret (Some (scale features)))
    (fun _ => ret None).

(** [_apply_safety_constraints] on the three predictions
    (steer, accel, brake). *)
Definition _apply_safety_constraints (predictions : Q * Q * Q) : Q * Q * Q :=
  let '(steer, accel, brake) := predictions in
  let steer := clip steer (-1.0) 1.0 in
  let accel := clip accel 0.0 1.0 in
  let brake := clip brake 0.0 1.0 in
  if Qltb 0.1 brake then (steer, 0.0%Q, brake) else (steer, accel, brake).

Definition threshold (table : dict Z Z) (gear : pyval) : option Z :=
  match int_key gear with
  | Some k => dict_get Z.eqb k table
  | None => None
  end.

(** [_auto_shift]; whatever its [try] block raises is logged and dropped. *)
Definition _auto_shift : M t unit :=
  try_except
    (self <- get ;;
     let current_gear := CarControl.gear (control self) in
     let current_rpm := of_float (CarState.getRpm (state self)) in
     let current_speed := of_float (CarState.getSpeedX (state self)) in
     if py_eq current_gear (PInt (-1)) then
       forward <- py_gt current_speed (PFloat 0.1) ;;
       if forward then in_control (modify (CarControl.set_gear (PInt 1)))
       else ret tt
     else
       (match threshold upshift_rpm current_gear with
        | Some limit =>
            below_top <- py_lt current_gear (PInt 6) ;;
            if below_top then
              up <- and_then (py_gt current_rpm (PInt limit))
                             (py_gt current_speed (PInt 0)) ;;
              if up then
                self <- get ;;
                gear <- py_add (CarControl.gear (control self)) (PInt 1) ;;
                in_control (modify (CarControl.set_gear gear))
              else ret tt
            else ret tt
        | None => ret tt
        end) ;;
       (match threshold downshift_rpm current_gear with
        | Some limit =>
            above_first <- py_gt current_gear (PInt 1) ;;
            if above_first then
              down <- py_lt current_rpm (PInt limit) ;;
              if down then
                self <- get ;;
                pressed <- py_gt (CarControl.accel (control self)) (PInt 0) ;;
                (if pressed then
                   less <- py_sub (CarControl.accel (control self)) (PFloat 0.2) ;;
                   accel <- py_max less (PInt 0) ;;
                   in_control (modify (CarControl.set_accel accel))
                 else ret tt) ;;
                self <- get ;;
                gear <- py_sub (CarControl.gear (control self)) (PInt 1) ;;
                in_control (modify (CarControl.set_gear gear))
              else ret tt
            else ret tt
        | None => ret tt
        end))
    (fun _ => ret tt).

(** [predictions[control] = float(model.predict(features)[0])], [0.0] when
    that raises. *)
Definition prediction (control : str) (features : option (list (str * Q))) : Q :=
  match predict control features with
  | Some v => v
  | None => 0.0%Q
  end.

Definition drive (msg : str) : M t str :=
  try_except
    (in_state (CarState.setFromMsg msg) ;;
     _update_history ;;
     self <- get ;;
     if negb (forallb (fun e => List.length (snd e) =? window_size)
                      (history self)) then
       in_control (CarControl.setSteer (PFloat 0.0)) ;;
       in_control (CarControl.setAccel (PFloat 0.0)) ;;
       in_control (CarControl.setBrake (PFloat 0.0)) ;;
       _auto_shift ;;
       in_control CarControl.toMsg
     else
       features <- _prepare_features ;;
       let predictions :=
         _apply_safety_constraints
           (prediction (lit "steer") features,
            prediction (lit "accel") features,
            prediction (lit "brake") features) in
       let '(steer, accel, brake) := predictions in
       in_control (CarControl.setSteer (PFloat steer)) ;;
       in_control (CarControl.setAccel (PFloat accel)) ;;
       in_control (CarControl.setBrake (PFloat brake)) ;;
       _auto_shift ;;
       in_control CarControl.toMsg)
    (fun _ =>
       in_control (CarControl.setSteer (PFloat 0.0)) ;;
       in_control (CarControl.setAccel (PFloat 0.0)) ;;
       in_control (CarControl.setBrake (PFloat 0.0)) ;;
       in_control CarControl.toMsg).

Definition onShutDown : M t unit := ret tt.

(** [onRestart]: every list of [history] is emptied. *)
Definition onRestart : M t unit :=
  modify (fun self =>
            set_history (map (fun e => (fst e, [])) (history self)) self).

End Methods.

End LearningDriver.

(** ** model_driver.py *)

Module ModelDriver.

(** How one pass through the body of [drive] ends: with the text it returns,
    or with [return self.drive(msg)]. *)
Inductive flow :=
| Return (text : str)
| Reinvoke.

Section Inherited.

(** The attributes that the base class [Driver] (driver.py, not among the
    sources) keeps besides [state] and [control]. *)
Variable X : Type.

Record base := mk_base {
  state : CarState.t;
  control : CarControl.t;
  other : X
}.

Record t := mk {
  inherited : base;
  use_model : bool;
  in_recovery : bool;
  recovery_start_time : option Q;
  in_post_recovery : bool;
  post_recovery_start_time : option Q;
  last_recovery_time : Q;
  session_start_time : Q;
  prev_steer : Q
}.

(** [__init__] on top of the initialised base object; [now] is what
    [time.time()] reads. *)
Definition new (b : base) (now : Q) : t :=
  mk b false false None false None 0 now 0.0.

Definition set_state (v : CarState.t) (b : base) : base :=
  mk_base v (control b) (other b).

Definition set_control (v : CarControl.t) (b : base) : base :=
  mk_base (state b) v (other b).

Definition set_inherited (v : base) (d : t) : t :=
  mk v (use_model d) (in_recovery d) (recovery_start_time d)
     (in_post_recovery d) (post_recovery_start_time d) (last_recovery_time d)
     (session_start_time d) (prev_steer d).

Definition set_use_model (v : bool) (d : t) : t :=
  mk (inherited d) v (in_recovery d) (recovery_start_time d)
     (in_post_recovery d) (post_recovery_start_time d) (last_recovery_time d)
     (session_start_time d) (prev_steer d).

Definition set_in_recovery (v : bool) (d : t) : t :=
  mk (inherited d) (use_model d) v (recovery_start_time d)
     (in_post_recovery d) (post_recovery_start_time d) (last_recovery_time d)
     (session_start_time d) (prev_steer d).

Definition set_recovery_start_time (v : option Q) (d : t) : t :=
  mk (inherited d) (use_model d) (in_recovery d) v
     (in_post_recovery d) (post_recovery_start_time d) (last_recovery_time d)
     (session_start_time d) (prev_steer d).

Definition set_in_post_recovery (v : bool) (d : t) : t :=
  mk (inherited d) (use_model d) (in_recovery d) (recovery_start_time d)
     v (post_recovery_start_time d) (last_recovery_time d)
     (session_start_time d) (prev_steer d).

Definition set_post_recovery_start_time (v : option Q) (d : t) : t :=
  mk (inherited d) (use_model d) (in_recovery d) (recovery_start_time d)
     (in_post_recovery d) v (last_recovery_time d)
     (session_start_time d) (prev_steer d).

Definition set_last_recovery_time (v : Q) (d : t) : t :=
  mk (inherited d) (use_model d) (in_recovery d) (recovery_start_time d)
     (in_post_recovery d) (post_recovery_start_time d) v
     (session_start_time d) (prev_steer d).

Definition in_base {A} : M base A -> M t A := zoom inherited set_inherited.

Definition in_control {A} (m : M CarControl.t A) : M t A :=
  in_base (zoom control set_control m).

Context `{PyRuntime}.

(** [super().drive(msg)]: the inherited method, on the inherited
    attributes. *)
Variable super_drive : str -> M base str.

(** The unpickled scaler and model, applied to the one input row
    ([model.predict(scaler.transform(input_data))[0]]); [None] when loading
    them failed. *)
Variable xg_model : option (list pyval -> res (Q * Q * Q)).

Definition _get_model_prediction : M t (option (Q * Q * Q)) :=
  match xg_model with
  | None => ret None
  | Some model =>
      self <- get ;;
      let state := state (inherited self) in
      prediction <-
        lift_res (model [ of_float (CarState.speedX state);
                          of_float (CarState.speedY state);
                          of_float (CarState.speedZ state);
                          of_float (CarState.trackPos state);
                          of_float (CarState.angle state);
                          of_float (CarState.getRpm state);
                          of_int (CarState.gear state) ]) ;;
      let '(steer, accel, brake) := prediction in
      ret (Some (clip steer (-1.0) 1.0, clip accel 0.0 1.0, clip brake 0.0 1.0))
  end.

(** The [if self.use_model:] block and the final [return], with
    [current_time] what [time.time()] read. *)
Definition body (current_time : Q) : M t flow :=
  self <- get ;;
  let speed := of_float (CarState.getSpeedX (state (inherited self))) in
  let angle := of_float (CarState.angle (state (inherited self))) in
  let current_time := PFloat current_time in
  held <-
    (if in_post_recovery self then
       elapsed <- py_sub current_time (of_float (post_recovery_start_time self)) ;;
       within <- py_lt elapsed (PFloat 4.0) ;;
       if within then
         in_control (modify (CarControl.set_gear (PInt 1))) ;;
         in_control (modify (CarControl.set_accel (PFloat 0.5))) ;;
         in_control (modify (CarControl.set_brake (PFloat 0.0))) ;;
         text <- in_control CarControl.toMsg ;;
         ret (Some text)
       else
         modify (set_in_post_recovery false) ;;
         ret None
     else ret None) ;;
  match held with
  | Some text => ret (Return text)
  | None =>
      self <- get ;;
      if in_recovery self then
        elapsed <- py_sub current_time (of_float (recovery_start_time self)) ;;
        over <- py_gt elapsed (PFloat 3.0) ;;
        if over then
          modify (set_in_recovery false) ;;
          now <- as_num current_time ;;
          modify (set_last_recovery_time now) ;;
          modify (set_in_post_recovery true) ;;
          modify (set_post_recovery_start_time (Some now)) ;;
          in_control (modify (CarControl.set_gear (PInt 1))) ;;
          in_control (modify (CarControl.set_accel (PFloat 0.1))) ;;
          in_control (modify (CarControl.set_brake (PFloat 0.0))) ;;
          in_control (modify (CarControl.set_steer (PFloat 0.0))) ;;
          text <- in_control CarControl.toMsg ;;
          ret (Return text)
        else
          in_control (modify (CarControl.set_gear (PInt (-1)))) ;;
          in_control (modify (CarControl.set_accel (PFloat 0.3))) ;;
          in_control (modify (CarControl.set_brake (PFloat 0.0))) ;;
          left <- py_gt angle (PFloat 0.5) ;;
          (if left then in_control (modify (CarControl.set_steer (PFloat (-0.5))))
           else
             right <- py_lt angle (PFloat (-0.5)) ;;
             if right then in_control (modify (CarControl.set_steer (PFloat 0.5)))
             else in_control (modify (CarControl.set_steer (PFloat 0.0)))) ;;
          text <- in_control CarControl.toMsg ;;
          ret (Return text)
      else
        stuck <-
          and_then
            (since_start <- py_sub current_time (PFloat (session_start_time self)) ;;
             py_gt since_start (PInt 5))
            (and_then
               (py_lt speed (PFloat 0.3))
               (since_last <- py_sub current_time (PFloat (last_recovery_time self)) ;;
                py_gt since_last (PInt 5))) ;;
        if stuck then
          modify (set_in_recovery true) ;;
          now <- as_num current_time ;;
          modify (set_recovery_start_time (Some now)) ;;
          ret Reinvoke
        else
          prediction <- _get_model_prediction ;;
          (match prediction with
           | Some (steer, accel, brake) =>
               in_control (modify (CarControl.set_steer (PFloat steer))) ;;
               in_control (modify (CarControl.set_accel (PFloat accel))) ;;
               in_control (modify (CarControl.set_brake (PFloat brake)))
           | None => ret tt
           end) ;;
          text <- in_control CarControl.toMsg ;;
          ret (Return text)
  end.

(** [drive].  Every invocation that runs the model block reads the clock
    once; [times] are the readings still to come, and [None] says that they
    ran out before the call returned. *)
Fixpoint drive (times : list Q) (msg : str) (self : t)
    : option (res str * t) :=
  match in_base (super_drive msg) self with
  | (Raise e, self) => Some (Raise e, self)
  | (Ok _, self) =>
      if use_model self then
        match times with
        | [] => None
        | current_time :: later =>
            match body current_time self with
            | (Ok (Return text), self) => Some (Ok text, self)
            | (Ok Reinvoke, self) => drive later msg self
            | (Raise e, self) => Some (Raise e, self)
            end
        end
      else Some (in_control CarControl.toMsg self)
  end.

End Inherited.

Arguments mk_base {X} state control other.
Arguments state {X} b.
Arguments control {X} b.
Arguments other {X} b.
Arguments mk {X}.
Arguments inherited {X} t.
Arguments use_model {X} t.
Arguments in_recovery {X} t.
Arguments recovery_start_time {X} t.
Arguments in_post_recovery {X} t.
Arguments post_recovery_start_time {X} t.
Arguments last_recovery_time {X} t.
Arguments session_start_time {X} t.
Arguments prev_steer {X} t.
Arguments new {X} b now.
Arguments set_state {X} v b.
Arguments set_control {X} v b.
Arguments set_inherited {X} v d.
Arguments set_use_model {X} v d.
Arguments set_in_recovery {X} v d.
Arguments set_recovery_start_time {X} v d.
Arguments set_in_post_recovery {X} v d.
Arguments set_post_recovery_start_time {X} v d.
Arguments set_last_recovery_time {X} v d.
Arguments in_base {X A} m.
Arguments in_control {X A} m.
Arguments _get_model_prediction {X} xg_model.
Arguments body {X} {_} xg_model current_time.
Arguments drive {X} {_} super_drive xg_model times msg self.

End ModelDriver.

(** ** pyclient.py: the racing loop *)

(** What the client asks of a driver object. *)
Class Policy (D : Type) := {
  policy_init : M D str;
  policy_drive : str -> M D str;
  policy_onShutDown : M D unit;
  policy_onRestart : M D unit
}.

#[local] Instance rule_policy `{PyRuntime} : Policy RuleDriver.t := {
  policy_init := RuleDriver.init;
  policy_drive := RuleDriver.drive;
  policy_onShutDown := RuleDriver.onShutDown;
  policy_onRestart := RuleDriver.onRestart
}.

#[local] Instance learning_policy `{PyRuntime} `{Trained} : Policy LearningDriver.t := {
  policy_init := LearningDriver.init;
  policy_drive := LearningDriver.drive;
  policy_onShutDown := LearningDriver.onShutDown;
  policy_onRestart := LearningDriver.onRestart
}.

Module PyClient.

(** What a tick does to the world outside the client, in order. *)
Inductive event :=
| OnShutDown
| OnRestart
| Drive (buf : str)
| CsvRow (step : Z)
| Send (payload : str)
| Sleep.

(** Where the racing loop stands after a tick. *)
Inductive status :=
| Racing
| Left (shutdown : bool)
| Crashed (e : exn).

Section Loop.
Context {D : Type} `{Policy D}.

Record client := mk {
  d : D;
  currentStep : Z;
  consecutive_timeouts : Z;
  shutdownClient : bool
}.

(** The state in which the racing loop of an episode starts. *)
Definition start (driver : D) : client := mk driver 0 0 false.

(** One turn of the inner [while True:]; [received] is what [recvfrom]
    gave, [None] when it timed out.  Sending is taken to succeed. *)
Definition tick (max_steps : Z) (received : option str) (c : client)
    : list event * client * status :=
  match received with
  | None =>
      ([Sleep],
       mk (d c) (currentStep c) (consecutive_timeouts c + 1) (shutdownClient c),
       Racing)
  | Some buf =>
      if nonempty buf && contains (lit "***shutdown***") buf then
        match policy_onShutDown (d c) with
        | (Ok _, d') => ([OnShutDown], mk d' (currentStep c) 0 true, Left true)
        | (Raise e, d') =>
            ([OnShutDown], mk d' (currentStep c) 0 (shutdownClient c), Crashed e)
        end
      else if nonempty buf && contains (lit "***restart***") buf then
        match policy_onRestart (d c) with
        | (Ok _, d') =>
            ([OnRestart], mk d' (currentStep c) 0 (shutdownClient c), Left false)
        | (Raise e, d') =>
            ([OnRestart], mk d' (currentStep c) 0 (shutdownClient c), Crashed e)
        end
      else
        let step := (currentStep c + 1)%Z in
        if negb (step =? max_steps)%Z then
          if nonempty buf then
            match policy_drive buf (d c) with
            | (Ok out, d') =>
                ([Drive buf; CsvRow step]
                   ++ (if nonempty out then [Send out] else []),
                 mk d' step 0 (shutdownClient c), Racing)
            | (Raise e, d') =>
                ([Drive buf], mk d' step 0 (shutdownClient c), Crashed e)
            end
          else ([], mk (d c) step 0 (shutdownClient c), Racing)
        else
          ([Send (lit "(meta 1)")], mk (d c) step 0 (shutdownClient c), Racing)
  end.

(** The inner [while True:] over what [recvfrom] gives in turn; the events
    are grouped by tick.  [Racing] at the end says that the loop is still
    waiting for the next datagram. *)
Fixpoint racing (max_steps : Z) (inputs : list (option str)) (c : client)
    : list (list event) * client * status :=
  match inputs with
  | [] => ([], c, Racing)
  | received :: rest =>
      match tick max_steps received c with
      | (events, c', Racing) =>
          let '(later, c'', st) := racing max_steps rest c' in
          (events :: later, c'', st)
      | (events, c', st) => ([events], c', st)
      end
  end.

End Loop.

End PyClient.

(** ** Notions used to state the properties of the codec *)

(** Fuel that a state of the scanning loop needs. *)
Definition need (s : str) (b_open : option nat) : nat :=
  match b_open with
  | None => 0
  | Some b => S (List.length s - b)
  end.

(** What one group does to the dictionary. *)
Definition store (body : str) (d : dict str (list str)) : dict str (list str) :=
  if (List.length (split body) <? 2)%nat then d
  else dict_set str_eqb (hd [] (split body)) (tl (split body)) d.

(** An opening parenthesis that no closing parenthesis follows. *)
Definition unterminated (s : str) : Prop :=
  exists a b, s = a ++ "("%char :: b /\ ~ In ")"%char b.

(** The specification's reading of an opening parenthesis "with no matching
    close": each closing parenthesis is paired with the nearest opening one
    still open before it, and [spec_unmatched_opens] counts the opening
    parentheses left without a partner.  It follows the specification's
    words, not the source, and only serves to say which messages the
    specification calls unterminated. *)
Fixpoint spec_unmatched_from (depth : nat) (s : str) : nat :=
  match s with
  | [] => depth
  | c :: rest =>
      if Ascii.eqb c "(" then spec_unmatched_from (S depth) rest
      else if Ascii.eqb c ")" then spec_unmatched_from (pred depth) rest
      else spec_unmatched_from depth rest
  end.

Definition spec_unmatched_opens (s : str) : nat := spec_unmatched_from 0 s.

Definition is_paren (c : ascii) : bool :=
  Ascii.eqb c "(" || Ascii.eqb c ")".

Definition no_paren (s : str) : bool := forallb (fun c => negb (is_paren c)) s.

(** The side conditions of the round-trip law as the specification words
    them: no parenthesis in a tag or token, no empty token, at least one
    value per tag. *)
Definition stated_entry (e : str * list str) : bool :=
  no_paren (fst e) && nonempty (snd e)
  && forallb (fun t => no_paren t && nonempty t) (snd e).

(** A word that survives the wire: not empty, no parenthesis, no whitespace. *)
Definition wire_word (s : str) : bool :=
  nonempty s && forallb (fun c => negb (is_paren c) && negb (isspace c)) s.

Definition wire_entry (e : str * list str) : bool :=
  wire_word (fst e) && nonempty (snd e) && forallb wire_word (snd e).

(** A word that [split] keeps whole. *)
Definition spaceless (w : str) : Prop :=
  w <> [] /\ forall c, In c w -> isspace c = false.

(** A mapping of text tokens as [stringify] takes it. *)
Definition wire (m : dict str (list str)) : dict str (option (list pyval)) :=
  map (fun e => (fst e, Some (map PStr (snd e)))) m.

(** The tags that [stringify] leaves out. *)
Definition skipped (value : option (list pyval)) : bool :=
  match value with
  | None => true
  | Some (PNone :: _) => true
  | Some _ => false
  end.

Definition values_of (value : option (list pyval)) : list pyval :=
  match value with
  | Some vs => vs
  | None => []
  end.

Definition emitted `{PyRuntime} (d : dict str (option (list pyval))) : str :=
  List.concat (map (fun e => MsgParser.group (fst e) (values_of (snd e)))
              (filter (fun e => negb (skipped (snd e))) d)).

(** ** A decimal reading of the built-ins, for the worked examples *)

Definition digit_of (c : ascii) : option Z :=
  let n := nat_of_ascii c in
  if (48 <=? n) && (n <=? 57) then Some (Z.of_nat (n - 48)) else None.

(** Value and length of a run of decimal digits. *)
Fixpoint digits (acc : Z) (s : str) : option Z :=
  match s with
  | [] => Some acc
  | c :: s' =>
      match digit_of c with
      | Some v => digits (10 * acc + v) s'
      | None => None
      end
  end.

Definition unsigned_decimal (s : str) : option Q :=
  match find "." s 0 with
  | None => if nonempty s then option_map inject_Z (digits 0 s) else None
  | Some i =>
      let whole := firstn i s in
      let frac := skipn (S i) s in
      if nonempty whole || nonempty frac then
        match digits 0 whole, digits 0 frac with
        | Some w, Some f =>
            Some (inject_Z w + inject_Z f / inject_Z (10 ^ Z.of_nat (List.length frac)))%Q
        | _, _ => None
        end
      else None
  end.

Definition decimal_float (s : str) : option Q :=
  match s with
  | "-"%char :: r => option_map Qopp (unsigned_decimal r)
  | "+"%char :: r => unsigned_decimal r
  | _ => unsigned_decimal s
  end.

Definition decimal_int (s : str) : option Z :=
  match s with
  | "-"%char :: r => if nonempty r then option_map Z.opp (digits 0 r) else None
  | "+"%char :: r => if nonempty r then digits 0 r else None
  | _ => if nonempty s then digits 0 s else None
  end.

(** Prints a rational with one fractional digit when that is exact, as
    Python's [str] does for such floats; other values print as a fraction. *)
Definition decimal_str (q : Q) : str :=
  let t := (Qnum q * 10 / Z.pos (Qden q))%Z in
  if Qeq_bool (inject_Z t / 10) q then
    (if (t <? 0)%Z then lit "-" else [])
    ++ str_of_int (Z.abs t / 10) ++ lit "." ++ str_of_int (Z.abs t mod 10)
  else str_of_int (Qnum q) ++ lit "/" ++ str_of_int (Z.pos (Qden q)).

#[local] Instance decimal_runtime : PyRuntime := {
  float_of_str := decimal_float;
  int_of_str := decimal_int;
  str_of_float := decimal_str;
  np_sqrt := fun q => (inject_Z (Z.sqrt (Qnum q * Z.pos (Qden q))) / inject_Z (Z.pos (Qden q)))%Q
}.

(** ** Notions used to state the properties of the vehicle state *)

(** The telemetry attributes of a [CarState], by name. *)
Inductive field :=
| FAngle
| FCurLapTime
| FDamage
| FDistFromStart
| FDistRaced
| FFocus
| FFuel
| FGear
| FLastLapTime
| FOpponents
| FRacePos
| FRpm
| FSpeedX
| FSpeedY
| FSpeedZ
| FTrack
| FTrackPos
| FWheelSpinVel
| FZ
| FX
| FY.

Definition tag (f : field) : str :=
  match f with
  | FAngle => lit "angle"
  | FCurLapTime => lit "curLapTime"
  | FDamage => lit "damage"
  | FDistFromStart => lit "distFromStart"
  | FDistRaced => lit "distRaced"
  | FFocus => lit "focus"
  | FFuel => lit "fuel"
  | FGear => lit "gear"
  | FLastLapTime => lit "lastLapTime"
  | FOpponents => lit "opponents"
  | FRacePos => lit "racePos"
  | FRpm => lit "rpm"
  | FSpeedX => lit "speedX"
  | FSpeedY => lit "speedY"
  | FSpeedZ => lit "speedZ"
  | FTrack => lit "track"
  | FTrackPos => lit "trackPos"
  | FWheelSpinVel => lit "wheelSpinVel"
  | FZ => lit "z"
  | FX => lit "x"
  | FY => lit "y"
  end.

(** What an attribute holds: nothing ([None]), a float, an integer or a list
    of floats. *)
Inductive reading :=
| Unknown
| Float (q : Q)
| Int (z : Z)
| Floats (l : list Q).

Definition float_reading (v : option Q) : reading :=
  match v with Some q => Float q | None => Unknown end.

Definition int_reading (v : option Z) : reading :=
  match v with Some z => Int z | None => Unknown end.

Definition floats_reading (v : option (list Q)) : reading :=
  match v with Some l => Floats l | None => Unknown end.

Definition read (f : field) (s : CarState.t) : reading :=
  match f with
  | FAngle => float_reading (CarState.angle s)
  | FCurLapTime => float_reading (CarState.curLapTime s)
  | FDamage => float_reading (CarState.damage s)
  | FDistFromStart => float_reading (CarState.distFromStart s)
  | FDistRaced => float_reading (CarState.distRaced s)
  | FFocus => floats_reading (CarState.focus s)
  | FFuel => float_reading (CarState.fuel s)
  | FGear => int_reading (CarState.gear s)
  | FLastLapTime => float_reading (CarState.lastLapTime s)
  | FOpponents => floats_reading (CarState.opponents s)
  | FRacePos => int_reading (CarState.racePos s)
  | FRpm => float_reading (CarState.rpm s)
  | FSpeedX => float_reading (CarState.speedX s)
  | FSpeedY => float_reading (CarState.speedY s)
  | FSpeedZ => float_reading (CarState.speedZ s)
  | FTrack => floats_reading (CarState.track s)
  | FTrackPos => float_reading (CarState.trackPos s)
  | FWheelSpinVel => floats_reading (CarState.wheelSpinVel s)
  | FZ => float_reading (CarState.z s)
  | FX => float_reading (CarState.x s)
  | FY => float_reading (CarState.y s)
  end.

Definition map_res {A B} (f : A -> B) (r : res A) : res B :=
  match r with
  | Ok a => Ok (f a)
  | Raise e => Raise e
  end.

(** The decode rule of an attribute on the tokens of its tag. *)
Definition decode `{PyRuntime} (f : field) (tokens : list str) : res reading :=
  match f with
  | FFocus | FOpponents | FTrack | FWheelSpinVel =>
      map_res Floats (CarState.floats tokens)
  | FGear | FRacePos => map_res Int (CarState.first CarState.int tokens)
  | _ => map_res Float (CarState.first CarState.float tokens)
  end.

(** The decode rule on a whole message: an absent tag gives [Unknown]. *)
Definition decode_in `{PyRuntime} (d : dict str (list str)) (f : field)
    : res reading :=
  match dict_get str_eqb (tag f) d with
  | None => Ok Unknown
  | Some tokens => decode f tokens
  end.

(** What the getters [getFloatD], [getIntD] and [getFloatListD] give on a
    decoded message. *)
Definition field_float `{PyRuntime} (d : dict str (list str)) (name : str)
    : res (option Q) :=
  match dict_get str_eqb name d with
  | None => Ok None
  | Some tokens => map_res Some (CarState.first CarState.float tokens)
  end.

Definition field_int `{PyRuntime} (d : dict str (list str)) (name : str)
    : res (option Z) :=
  match dict_get str_eqb name d with
  | None => Ok None
  | Some tokens => map_res Some (CarState.first CarState.int tokens)
  end.

Definition field_floats `{PyRuntime} (d : dict str (list str)) (name : str)
    : res (option (list Q)) :=
  match dict_get str_eqb name d with
  | None => Ok None
  | Some tokens => map_res Some (CarState.floats tokens)
  end.

(** ** Notions used to state the properties of the gear rules *)

(** The number that a control value stands for. *)
Definition num_of (v : pyval) : option Q :=
  match v with
  | PInt z => Some (inject_Z z)
  | PFloat q => Some q
  | _ => None
  end.

(** The gear that [Driver.gear] of the rule-based driver commands. *)
Definition rule_shift (rpm : Q) (g : Z) : Z :=
  if Qltb (inject_Z RuleDriver.UPSHIFT_RPM) rpm
     && Qltb (inject_Z g) (inject_Z RuleDriver.MAX_GEAR)
  then (g + 1)%Z
  else if Qltb rpm (inject_Z RuleDriver.DOWNSHIFT_RPM)
          && Qltb (inject_Z RuleDriver.MIN_GEAR) (inject_Z g)
  then (g - 1)%Z
  else g.

(** Whether [_auto_shift] shifts up, and whether it shifts down, from the
    forward command gear [g]. *)
Definition auto_up (g : Z) (rpm speed : Q) : bool :=
  match dict_get Z.eqb g LearningDriver.upshift_rpm with
  | Some limit =>
      Qltb (inject_Z g) (inject_Z 6)
      && (Qltb (inject_Z limit) rpm && Qltb (inject_Z 0) speed)
  | None => false
  end.

Definition auto_down (g : Z) (rpm : Q) : bool :=
  match dict_get Z.eqb g LearningDriver.downshift_rpm with
  | Some limit =>
      Qltb (inject_Z 1) (inject_Z g) && Qltb rpm (inject_Z limit)
  | None => false
  end.

(** The accelerator after the rev-matching step of a downshift. *)
Definition rev_matched (a : Q) : pyval :=
  if Qltb (inject_Z 0) a then
    if Qltb (a - 0.2) (inject_Z 0) then PInt 0 else PFloat (a - 0.2)
  else PFloat a.

(** The control that [_auto_shift] leaves. *)
Definition auto_shifted (g : Z) (rpm speed a : Q) (c : CarControl.t)
    : CarControl.t :=
  if Z.eqb g (-1) then
    if Qltb 0.1 speed then CarControl.set_gear (PInt 1) c else c
  else
    let c := if auto_up g rpm speed
             then CarControl.set_gear (PInt (g + 1)) c else c in
    if auto_down g rpm then
      CarControl.set_gear
        (PInt ((if auto_up g rpm speed then g + 1 else g) - 1))
        (if Qltb (inject_Z 0) a
         then CarControl.set_accel (rev_matched a) c else c)
    else c.

(** ** Notions used to state the properties of the racing loop *)

(** A datagram without a server control marker. *)
Definition marker_free (buf : str) : bool :=
  negb (contains (lit "***shutdown***") buf)
  && negb (contains (lit "***restart***") buf).

(** The events of a tick in which whatever is sent comes out of the policy's
    [drive], called first in that tick. *)
Definition driven (events : list PyClient.event) : Prop :=
  forall payload, In (PyClient.Send payload) events ->
  exists buf, hd_error events = Some (PyClient.Drive buf).

(** The command that the learning driver falls back to: steer, accel and
    brake at zero, everything else as it was. *)
Definition neutral (c : CarControl.t) : CarControl.t :=
  CarControl.set_brake (PFloat 0.0)
    (CarControl.set_accel (PFloat 0.0)
       (CarControl.set_steer (PFloat 0.0) c)).

(** ** Notions used to state the properties of the recovery machine *)

(** What [toMsg] leaves in the control: the dictionary it built. *)
Definition sent (c : CarControl.t) : CarControl.t :=
  CarControl.set_actions (CarControl.actions_of c) c.

(** The driver with its control replaced. *)
Definition with_control {X} (c : CarControl.t) (d : ModelDriver.t X)
    : ModelDriver.t X :=
  ModelDriver.set_inherited
    (ModelDriver.set_control c (ModelDriver.inherited d)) d.

(** The control of a driver. *)
Definition command {X} (d : ModelDriver.t X) : CarControl.t :=
  ModelDriver.control (ModelDriver.inherited d).

(** The forced commands of the three recovery branches. *)
Definition hold_command (c : CarControl.t) : CarControl.t :=
  CarControl.set_brake (PFloat 0.0)
    (CarControl.set_accel (PFloat 0.5)
       (CarControl.set_gear (PInt 1) c)).

Definition exit_command (c : CarControl.t) : CarControl.t :=
  CarControl.set_steer (PFloat 0.0)
    (CarControl.set_brake (PFloat 0.0)
       (CarControl.set_accel (PFloat 0.1)
          (CarControl.set_gear (PInt 1) c))).

Definition counter_steer (angle : Q) : Q :=
  if Qltb 0.5 angle then (-0.5)%Q
  else if Qltb angle (-0.5) then 0.5%Q else 0.0%Q.

Definition reverse_command (angle : Q) (c : CarControl.t) : CarControl.t :=
  CarControl.set_steer (PFloat (counter_steer angle))
    (CarControl.set_brake (PFloat 0.0)
       (CarControl.set_accel (PFloat 0.3)
          (CarControl.set_gear (PInt (-1)) c))).

Definition predicted_command (steer accel brake : Q) (c : CarControl.t)
    : CarControl.t :=
  CarControl.set_brake (PFloat (clip brake 0.0 1.0))
    (CarControl.set_accel (PFloat (clip accel 0.0 1.0))
       (CarControl.set_steer (PFloat (clip steer (-1.0) 1.0)) c)).

(** The input row of the fitted model. *)
Definition model_row {X} (d : ModelDriver.t X) : list pyval :=
  let state := ModelDriver.state (ModelDriver.inherited d) in
  [ of_float (CarState.speedX state);
    of_float (CarState.speedY state);
    of_float (CarState.speedZ state);
    of_float (CarState.trackPos state);
    of_float (CarState.angle state);
    of_float (CarState.getRpm state);
    of_int (CarState.gear state) ].

(** The stuck test of [drive] at clock reading [now]. *)
Definition stuck {X} (now speed : Q) (d : ModelDriver.t X) : bool :=
  Qltb (inject_Z 5) (now - ModelDriver.session_start_time d)
  && (Qltb speed 0.3
      && Qltb (inject_Z 5) (now - ModelDriver.last_recovery_time d)).

(** What the stuck test evaluates to: the forward speed is only looked at
    once the session is more than five seconds old. *)
Definition stuck_outcome {X} (now : Q) (d : ModelDriver.t X) : res bool :=
  if Qltb (inject_Z 5) (now - ModelDriver.session_start_time d) then
    match CarState.speedX (ModelDriver.state (ModelDriver.inherited d)) with
    | Some speed =>
        if Qltb speed 0.3
        then Ok (Qltb (inject_Z 5) (now - ModelDriver.last_recovery_time d))
        else Ok false
    | None => Raise TypeError
    end
  else Ok false.

(** ** Sample objects for the worked examples *)

(** A vehicle state with the RPM, the forward speed and the gear known. *)
Definition telemetry (rpm speed : Q) (gear : Z) : CarState.t :=
  CarState.set_Rpm (Some rpm)
    (CarState.set_SpeedX (Some speed)
       (CarState.set_Gear (Some gear) CarState.new)).

(** A control with the given accel and gear commanded. *)
Definition commanded (accel : Q) (gear : Z) : CarControl.t :=
  CarControl.set_accel (PFloat accel)
    (CarControl.set_gear (PInt gear) CarControl.new).

Definition rule_driver_at (s : CarState.t) (c : CarControl.t) : RuleDriver.t :=
  RuleDriver.set_control c (RuleDriver.set_state s (RuleDriver.new 3)).

Definition learning_driver_at (s : CarState.t) (c : CarControl.t)
    : LearningDriver.t :=
  LearningDriver.set_control c
    (LearningDriver.set_state s (LearningDriver.new 3)).

(** Fitted artefacts that predict zero throughout. *)
#[local] Instance zero_models : Trained := {
  scale := fun row => row;
  predict := fun _ _ => Some 0.0%Q
}.

(** A complete telemetry datagram. *)
Definition sample_telemetry : str :=
  lit "(angle 0.0)(trackPos 0.0)(rpm 3000)(gear 1)(speedX 10)(speedY 0)(speedZ 0)".

(** Telemetry at high revs, and at moderate revs. *)
Definition high_revs : str :=
  lit "(angle 0.0)(trackPos 0.0)(rpm 7200)(gear 1)(speedX 10)(speedY 0)(speedZ 0)".

Definition moderate_revs : str :=
  lit "(angle 0.0)(trackPos 0.0)(rpm 3200)(gear 1)(speedX 10)(speedY 0)(speedZ 0)".

(** The driver after [n] calls of [drive] on the same datagram. *)
Fixpoint driven_times `{PyRuntime} `{Trained} (n : nat) (msg : str)
    (d : LearningDriver.t) : LearningDriver.t :=
  match n with
  | O => d
  | S n' => driven_times n' msg (snd (LearningDriver.drive msg d))
  end.

(** Fitted artefacts whose accel model answers with a ten-thousandth of the
    RPM change, the other models with zero. *)
Definition rpm_change_models : Trained := {|
  scale := fun row => row;
  predict := fun control frame =>
    if str_eqb control (lit "accel") then
      match frame with
      | Some row =>
          match dict_get str_eqb (lit "RPM_Change") row with
          | Some change => Some (change / 10000)%Q
          | None => None
          end
      | None => None
      end
    else Some 0.0%Q
|}.

Definition steady_revs : str :=
  lit "(angle 0.0)(trackPos 0.0)(rpm 5000)(gear 1)(speedX 10)(speedY 0)(speedZ 0)".

(** The text of a result, empty when it raised. *)
Definition fst_text {S} (r : res str * S) : str :=
  match fst r with
  | Ok text => text
  | Raise _ => []
  end.

(** An inherited [drive] that refreshes the state from the datagram and
    returns the command as it stands. *)
Definition telemetry_only `{PyRuntime} (msg : str)
    : M (ModelDriver.base unit) str :=
  zoom ModelDriver.state ModelDriver.set_state (CarState.setFromMsg msg) ;;
  zoom ModelDriver.control ModelDriver.set_control CarControl.toMsg.

(** A freshly constructed model driver, session started at clock reading 0,
    and the same with model control switched on. *)
Definition model_off : ModelDriver.t unit :=
  ModelDriver.new (ModelDriver.mk_base CarState.new CarControl.new tt) 0%Q.

Definition model_on : ModelDriver.t unit :=
  ModelDriver.set_use_model true model_off.

(** The driver in the Reversing phase since reading 6, with the reversing
    command of the last tick. *)
Definition reversing_since_6 : ModelDriver.t unit :=
  with_control (sent (reverse_command 0.7%Q CarControl.new))
    (ModelDriver.set_recovery_start_time (Some 6%Q)
       (ModelDriver.set_in_recovery true model_on)).

(** The driver in the forward phase since reading 9.5. *)
Definition forward_since_9_5 : ModelDriver.t unit :=
  with_control (sent (exit_command CarControl.new))
    (ModelDriver.set_post_recovery_start_time (Some 9.5%Q)
       (ModelDriver.set_in_post_recovery true
          (ModelDriver.set_last_recovery_time 9.5%Q
             (ModelDriver.set_recovery_start_time (Some 6%Q) model_on)))).

Definition crawling : str := lit "(speedX 0.1)(angle 0.7)".

Definition rolling : str := lit "(speedX 5)(angle 0.0)".

(** ** Notions used to state further properties of the codec *)

(** A message cut into its groups: each part is the text before an opening
    parenthesis and the body up to the next closing one; [tail] is what
    follows the last group. *)
Definition framed (parts : list (str * str)) (tail : str) : str :=
  List.concat (map (fun p => fst p ++ "("%char :: snd p ++ [")"%char]) parts)
  ++ tail.

Definition well_framed (parts : list (str * str)) (tail : str) : Prop :=
  Forall (fun p => ~ In "("%char (fst p) /\ ~ In ")"%char (snd p)) parts /\
  ~ In "("%char tail.

(** The dictionary after the groups of [parts], in order. *)
Definition stored (parts : list (str * str)) (d : dict str (list str))
    : dict str (list str) :=
  fold_left (fun d p => store (snd p) d) parts d.


(** ** Notions used to state further properties of the vehicle state *)

(** The place of an attribute in the order in which [setFromMsg] assigns
    them. *)
Definition position (f : field) : nat :=
  match f with
  | FAngle => 0
  | FCurLapTime => 1
  | FDamage => 2
  | FDistFromStart => 3
  | FDistRaced => 4
  | FFocus => 5
  | FFuel => 6
  | FGear => 7
  | FLastLapTime => 8
  | FOpponents => 9
  | FRacePos => 10
  | FRpm => 11
  | FSpeedX => 12
  | FSpeedY => 13
  | FSpeedZ => 14
  | FTrack => 15
  | FTrackPos => 16
  | FWheelSpinVel => 17
  | FZ => 18
  | FX => 19
  | FY => 20
  end.


(** ** Notions used to state what a method leaves alone *)

(** A computation that never changes the object. *)
Definition silent {S A} (m : M S A) : Prop := forall s, snd (m s) = s.

(** From a state in [P] the computation ends in a state in [Q], whether it
    returns or raises. *)
Definition moves {S A} (P : S -> Prop) (m : M S A) (Q : S -> Prop) : Prop :=
  forall s, P s -> Q (snd (m s)).


(** ** Notions used to state the ranges of the commands *)

(** A control value that is a number between [lo] and [hi]. *)
Definition within (lo hi : Q) (v : pyval) : Prop :=
  exists q, num_of v = Some q /\ (lo <= q)%Q /\ (q <= hi)%Q.

(** The learning driver [d] is [d0] with another commanded gear and accel,
    the accel being a number between 0 and [a]. *)
Definition shifted_from (d0 : LearningDriver.t) (a : Q) (d : LearningDriver.t)
    : Prop :=
  exists gear accel,
    d = LearningDriver.set_control
          (CarControl.set_accel accel
             (CarControl.set_gear gear (LearningDriver.control d0))) d0 /\
    within 0 a accel.


(** The ranges that [_apply_safety_constraints] enforces. *)
Definition safe_triple (steer accel brake : Q) : Prop :=
  ((-1 <= steer)%Q /\ (steer <= 1)%Q) /\
  ((0 <= accel)%Q /\ (accel <= 1)%Q) /\
  ((0 <= brake)%Q /\ (brake <= 1)%Q) /\
  ((0.1 < brake)%Q -> (accel == 0)%Q).

(** The control after the three assignments of [drive] and a gear shift. *)
Definition answered (steer brake : Q) (gear accel : pyval) (c : CarControl.t)
    : CarControl.t :=
  CarControl.set_accel accel
    (CarControl.set_gear gear
       (CarControl.set_brake (PFloat brake)
          (CarControl.set_steer (PFloat steer) c))).

(** Every window of the history is full. *)
Definition windows_full (d : LearningDriver.t) : bool :=
  forallb (fun e => List.length (snd e) =? LearningDriver.window_size)
    (LearningDriver.history d).


(** The commanded gear of [d] is a forward gear at most one step from
    [g]. *)
Definition gear_near (g : Z) (d : LearningDriver.t) : Prop :=
  exists g',
    CarControl.gear (LearningDriver.control d) = PInt g' /\
    (g - 1 <= g' <= g + 1)%Z /\ (1 <= g' <= 6)%Z.


(** No window of the history holds more than [window_size] samples. *)
Definition windows_bounded (d : LearningDriver.t) : Prop :=
  Forall (fun e => List.length (snd e) <= LearningDriver.window_size)
    (LearningDriver.history d).


(** The rule-based driver [d] is [d0] but for the state, the angles and the
    commanded steer, gear, accel and last message. *)
Definition same_pedals (c0 c : CarControl.t) : Prop :=
  CarControl.brake c = CarControl.brake c0 /\
  CarControl.clutch c = CarControl.clutch c0 /\
  CarControl.focus c = CarControl.focus c0 /\
  CarControl.meta c = CarControl.meta c0.


(** ** Notions used to state further properties of the recovery machine *)

(** The driver as the body of [drive] finds it after the forward-phase
    test: unchanged outside the forward phase, and with the phase cleared
    when its four seconds are over. *)
Definition resumed {X} (now : Q) (d d1 : ModelDriver.t X) : Prop :=
  (ModelDriver.in_post_recovery d = false /\ d1 = d) \/
  (ModelDriver.in_post_recovery d = true /\
   exists t0, ModelDriver.post_recovery_start_time d = Some t0 /\
              Qltb (now - t0) 4.0 = false /\
              d1 = ModelDriver.set_in_post_recovery false d).

(** The command of the reversing branch before its steering test. *)
Definition reverse_pedals (c : CarControl.t) : CarControl.t :=
  CarControl.set_brake (PFloat 0.0)
    (CarControl.set_accel (PFloat 0.3)
       (CarControl.set_gear (PInt (-1)) c)).

(** The two recovery phases are not both on. *)
Definition one_phase {X} (d : ModelDriver.t X) : Prop :=
  ModelDriver.in_recovery d && ModelDriver.in_post_recovery d = false.

(** A fitted model that always predicts steer 2, accel 0.5 and brake -1. *)
Definition eager_model (row : list pyval) : res (Q * Q * Q) :=
  Ok (inject_Z 2, 0.5, inject_Z (-1))%Q.


(** ** Notions used to state further properties of the racing loop *)

(** What [recvfrom] delivered, the timeouts left out. *)
Definition heard (inputs : list (option str)) : list (option str) :=
  filter (fun received => match received with Some _ => true | None => false end)
    inputs.

(** The events of a run in order, the pauses after a timeout left out. *)
Definition acted (ticks : list (list PyClient.event)) : list PyClient.event :=
  filter (fun e => match e with PyClient.Sleep => false | _ => true end)
    (List.concat ticks).

(** Two clients that differ at most in the timeout counter. *)
Definition same_run {D} (c1 c2 : @PyClient.client D) : Prop :=
  PyClient.d c1 = PyClient.d c2 /\
  PyClient.currentStep c1 = PyClient.currentStep c2 /\
  PyClient.shutdownClient c1 = PyClient.shutdownClient c2.

(** The marker that makes the loop leave, and the event of leaving. *)
Definition marker (shutdown : bool) : str :=
  if shutdown then lit "***shutdown***" else lit "***restart***".

Definition leaving (shutdown : bool) : PyClient.event :=
  if shutdown then PyClient.OnShutDown else PyClient.OnRestart.

(* ================================================================== *)
(** * Part II. Properties                                              *)
(* ================================================================== *)

Import MsgParser.

(** ** Searching and slicing *)

Lemma find_at_shift c s k i :
  find_at c s (k + i) = option_map (Nat.add k) (find_at c s i).
Proof.
  revert i; induction s as [|x s IH]; intros i; simpl; [reflexivity|].
  destruct (Ascii.eqb x c); [reflexivity|].
  rewrite <- IH. f_equal. lia.
Qed.

Lemma find_at_spec c s i j :
  find_at c s i = Some j ->
  i <= j < i + List.length s /\ nth_error s (j - i) = Some c.
Proof.
  revert i; induction s as [|x s IH]; intros i; simpl; [discriminate|].
  destruct (Ascii.eqb x c) eqn:E.
  - intros [= <-]. apply Ascii.eqb_eq in E; subst x.
    rewrite Nat.sub_diag. split; [lia | reflexivity].
  - intros Hf. apply IH in Hf as [Hb Hn]. split; [lia|].
    replace (j - i) with (S (j - S i)) by lia. exact Hn.
Qed.

Lemma find_spec c s i j :
  find c s i = Some j ->
  i <= j < List.length s /\ nth_error s j = Some c.
Proof.
  unfold find. intros Hf. apply find_at_spec in Hf as [Hb Hn].
  rewrite length_skipn in Hb. rewrite nth_error_skipn in Hn.
  replace (i + (j - i)) with j in Hn by lia.
  split; [lia | exact Hn].
Qed.

Lemma find_app_shift c pre s i :
  find c (pre ++ s) (List.length pre + i)
  = option_map (Nat.add (List.length pre)) (find c s i).
Proof.
  unfold find. rewrite skipn_app.
  replace (List.length pre + i - List.length pre) with i by lia.
  rewrite skipn_all2 by lia. simpl. apply find_at_shift.
Qed.

Lemma slice_app_shift pre s a b :
  slice (pre ++ s) (List.length pre + a) (List.length pre + b) = slice s a b.
Proof.
  unfold slice. rewrite skipn_app.
  replace (List.length pre + a - List.length pre) with a by lia.
  rewrite skipn_all2 by lia. simpl. f_equal. lia.
Qed.

Lemma find_absent c s : ~ In c s -> find c s 0 = None.
Proof.
  unfold find; simpl. generalize 0.
  induction s as [|x s IH]; intros n Hn; simpl; [reflexivity|].
  destruct (Ascii.eqb x c) eqn:E.
  - apply Ascii.eqb_eq in E. subst. exfalso. apply Hn. now left.
  - apply IH. intros Hin. apply Hn. now right.
Qed.

Lemma find_first c a b :
  ~ In c a -> find c (a ++ c :: b) 0 = Some (List.length a).
Proof.
  unfold find; simpl. intros Hn.
  assert (G : forall n, find_at c (a ++ c :: b) n = Some (n + List.length a)).
  { induction a as [|x a IH]; intros n; simpl.
    - rewrite Ascii.eqb_refl. f_equal. lia.
    - destruct (Ascii.eqb x c) eqn:E.
      + apply Ascii.eqb_eq in E. subst. exfalso. apply Hn. now left.
      + rewrite IH; [f_equal; lia|]. intros Hin. apply Hn. now right. }
  apply G.
Qed.

Lemma find_skip c a s :
  ~ In c a ->
  find c (a ++ s) 0 = option_map (Nat.add (List.length a)) (find c s 0).
Proof.
  intros Hn. destruct (find c s 0) as [j|] eqn:E; simpl.
  - unfold find in *; simpl in *.
    assert (G : forall n, find_at c (a ++ s) n
                          = option_map (Nat.add (n + List.length a)) (find_at c s 0)).
    { induction a as [|x a IH]; intros n; simpl.
      - rewrite Nat.add_0_r. rewrite <- find_at_shift. f_equal. lia.
      - destruct (Ascii.eqb x c) eqn:E'.
        + apply Ascii.eqb_eq in E'. subst. exfalso. apply Hn. now left.
        + rewrite IH; [|intros Hin; apply Hn; now right].
          do 2 f_equal. lia. }
    rewrite G, E. reflexivity.
  - unfold find in *; simpl in *.
    assert (G : forall n m, find_at c s m = None -> find_at c (a ++ s) n = None).
    { induction a as [|x a IH]; intros n m Hm; simpl.
      - destruct (find_at c s n) eqn:E'; [|reflexivity].
        replace n with (n + 0) in E' by lia.
        replace m with (m + 0) in Hm by lia.
        rewrite find_at_shift in E', Hm.
        destruct (find_at c s 0); simpl in *; discriminate.
      - destruct (Ascii.eqb x c) eqn:E'.
        + apply Ascii.eqb_eq in E'. subst. exfalso. apply Hn. now left.
        + eapply IH; [|eassumption]. intros Hin. apply Hn. now right. }
    eapply G; eassumption.
Qed.

(** First occurrence of a character. *)
Lemma first_occurrence (c : ascii) (s : str) :
  ~ In c s \/ exists a b, s = a ++ c :: b /\ ~ In c a.
Proof.
  induction s as [|x s IH]; [left; intros []|].
  destruct (ascii_dec x c) as [->|Hne].
  - right. exists [], s. split; [reflexivity | intros []].
  - destruct IH as [Hn | (a & b & -> & Ha)].
    + left. intros [H|H]; [now apply Hne | now apply Hn].
    + right. exists (x :: a), b. split; [reflexivity|].
      intros [H|H]; [now apply Hne | now apply Ha].
Qed.

(** ** The scanning loop of [parse] *)

Lemma parse_loop_enough f :
  forall s bo d, need s bo <= f ->
  exists r, parse_loop f s bo d = Some r /\
            forall f', need s bo <= f' -> parse_loop f' s bo d = Some r.
Proof.
  induction f as [|f IH]; intros s bo d Hf.
  - destruct bo as [b|]; simpl in Hf; [lia|].
    eexists; split; [reflexivity|]. intros f' _. destruct f'; reflexivity.
  - destruct bo as [b|]; simpl.
    2:{ eexists; split; [reflexivity|]. intros f' _. destruct f'; reflexivity. }
    destruct (find ")" s b) as [bc|] eqn:Ec.
    2:{ eexists; split; [reflexivity|]. intros f' Hf'.
        destruct f'; simpl in *; [lia|]. rewrite Ec. reflexivity. }
    set (d' := if (List.length (split (slice s (b + 1) bc)) <? 2)%nat then d
               else dict_set str_eqb (hd [] (split (slice s (b + 1) bc)))
                      (tl (split (slice s (b + 1) bc))) d).
    assert (Hn : forall g, need s (Some b) <= S g ->
                           need s (find "(" s bc) <= g).
    { intros g Hg. destruct (find "(" s bc) as [b'|] eqn:Eo; simpl; [|lia].
      apply find_spec in Ec as [Hc1 Hc2]. apply find_spec in Eo as [Ho1 Ho2].
      assert (b' <> bc) by (intros ->; rewrite Hc2 in Ho2; discriminate).
      simpl in Hg. lia. }
    destruct (IH s (find "(" s bc) d' (Hn f Hf)) as (r & Hr & Hall).
    exists r. split; [exact Hr|].
    intros f' Hf'. destruct f' as [|f']; simpl in Hf'; [lia|].
    simpl. rewrite Ec. apply Hall. apply Hn. exact Hf'.
Qed.

(** The fuel of [parse_from] is never exhausted. *)
Lemma parse_loop_fuel_enough s d :
  exists r, parse_loop (S (List.length s)) s (find "(" s 0) d = Some r.
Proof.
  destruct (parse_loop_enough (S (List.length s)) s (find "(" s 0) d)
    as (r & Hr & _); [|eauto].
  destruct (find "(" s 0); simpl; lia.
Qed.

Lemma parse_from_eq s d f bo :
  need s bo <= f -> bo = find "(" s 0 ->
  parse_loop f s bo d = Some (parse_from s d).
Proof.
  intros Hf ->. unfold parse_from.
  destruct (parse_loop_enough f s (find "(" s 0) d Hf) as (r & Hr & Hall).
  rewrite Hr, Hall; [reflexivity|].
  destruct (find "(" s 0); simpl; lia.
Qed.

Lemma parse_loop_shift f pre :
  forall s bo d,
  parse_loop f (pre ++ s) (option_map (Nat.add (List.length pre)) bo) d
  = parse_loop f s bo d.
Proof.
  induction f as [|f IH]; intros s bo d; destruct bo as [b|]; simpl; try reflexivity.
  rewrite find_app_shift.
  destruct (find ")" s b) as [bc|]; simpl; [|reflexivity].
  replace (List.length pre + b + 1) with (List.length pre + (b + 1)) by lia.
  rewrite slice_app_shift, find_app_shift. apply IH.
Qed.

(** Text before the first opening parenthesis is ignored. *)
Lemma parse_from_junk junk s d :
  ~ In "("%char junk -> parse_from (junk ++ s) d = parse_from s d.
Proof.
  intros Hj. unfold parse_from at 1.
  rewrite (find_skip _ _ s Hj), parse_loop_shift.
  rewrite (parse_from_eq s d _ _); [reflexivity| |reflexivity].
  rewrite length_app. destruct (find "(" s 0); simpl; lia.
Qed.

(** A terminated group is stored and the scan goes on behind it. *)
Lemma parse_from_group body rest d :
  ~ In ")"%char body ->
  parse_from ("("%char :: body ++ ")"%char :: rest) d
  = parse_from rest (store body d).
Proof.
  intros Hb. unfold parse_from at 1.
  set (s := "("%char :: body ++ ")"%char :: rest).
  assert (Ho : find "(" s 0 = Some 0) by reflexivity.
  rewrite Ho. cbn [parse_loop].
  assert (Hc : find ")" s 0 = Some (S (List.length body))).
  { change s with (("("%char :: body) ++ ")"%char :: rest).
    rewrite find_first; [reflexivity|].
    intros [H|H]; [discriminate | now apply Hb]. }
  rewrite Hc.
  assert (Hs : slice s (0 + 1) (S (List.length body)) = body).
  { unfold slice, s. simpl. rewrite Nat.sub_0_r.
    rewrite firstn_app, firstn_all, Nat.sub_diag. simpl. apply app_nil_r. }
  rewrite Hs. fold (store body d).
  assert (Hn : find "(" s (S (List.length body))
               = option_map (Nat.add (List.length ("("%char :: body ++ [")"%char])))
                   (find "(" rest 0)).
  { unfold find, s. simpl skipn at 2.
    change ("("%char :: body ++ ")"%char :: rest)
      with (("("%char :: body) ++ ")"%char :: rest).
    replace (S (List.length body)) with (List.length ("("%char :: body)) by reflexivity.
    rewrite skipn_app, Nat.sub_diag, skipn_all. simpl.
    rewrite length_app. simpl.
    replace (S (S (List.length body))) with (S (List.length body + 1) + 0) by lia.
    rewrite find_at_shift. reflexivity. }
  rewrite Hn.
  replace s with (("("%char :: body ++ [")"%char]) ++ rest)
    by (unfold s; simpl; rewrite <- app_assoc; reflexivity).
  rewrite parse_loop_shift.
  rewrite (parse_from_eq rest (store body d) _ _); [reflexivity| |reflexivity].
  rewrite length_app. simpl. destruct (find "(" rest 0); simpl; lia.
Qed.

(** A group that is never closed makes the whole result [None]. *)
Lemma parse_from_open rest d :
  ~ In ")"%char rest -> parse_from ("("%char :: rest) d = PyNone.
Proof.
  intros Hr. unfold parse_from.
  assert (Ho : find "(" ("("%char :: rest) 0 = Some 0) by reflexivity.
  rewrite Ho. cbn [parse_loop].
  rewrite find_absent; [reflexivity|].
  intros [H|H]; [discriminate | now apply Hr].
Qed.

Lemma parse_from_plain s d :
  ~ In "("%char s -> parse_from s d = Sensors d.
Proof.
  intros Hs. unfold parse_from. rewrite find_absent by exact Hs. reflexivity.
Qed.

Lemma parse_from_app n :
  forall pre, List.length pre <= n ->
  forall rest d d', parse_from pre d = Sensors d' ->
  parse_from (pre ++ rest) d = parse_from rest d'.
Proof.
  induction n as [|n IH]; intros pre Hlen rest d d' Hp;
    destruct (first_occurrence "(" pre) as [Hno | (a & b & -> & Ha)].
  1,3: rewrite parse_from_plain in Hp by exact Hno; injection Hp as <-;
       apply parse_from_junk; exact Hno.
  - rewrite length_app in Hlen. simpl in Hlen. lia.
  - rewrite parse_from_junk in Hp by exact Ha.
    rewrite <- app_assoc, parse_from_junk by exact Ha.
    destruct (first_occurrence ")" b) as [Hno | (body & t & -> & Hb)].
    + rewrite parse_from_open in Hp by exact Hno. discriminate.
    + rewrite parse_from_group in Hp by exact Hb.
      simpl. rewrite <- app_assoc. simpl.
      rewrite parse_from_group by exact Hb.
      apply IH; [|exact Hp].
      rewrite !length_app in Hlen. simpl in Hlen.
      rewrite length_app in Hlen. simpl in Hlen. lia.
Qed.

Lemma parse_from_unterminated n :
  forall a, List.length a <= n ->
  forall b d, ~ In ")"%char b -> parse_from (a ++ "("%char :: b) d = PyNone.
Proof.
  induction n as [|n IH]; intros a Hlen b d Hb;
    destruct (first_occurrence "(" a) as [Hno | (j & t & -> & Hj)].
  1,3: rewrite parse_from_junk by exact Hno; apply parse_from_open; exact Hb.
  - rewrite length_app in Hlen. simpl in Hlen. lia.
  - rewrite <- app_assoc, parse_from_junk by exact Hj. simpl.
    destruct (first_occurrence ")" t) as [Hno | (body & t' & -> & Hbody)].
    + apply parse_from_open. intros Hin. apply in_app_or in Hin as [H|[H|H]].
      * now apply Hno.
      * discriminate.
      * now apply Hb.
    + rewrite <- app_assoc. simpl. rewrite parse_from_group by exact Hbody.
      apply IH; [|exact Hb].
      rewrite !length_app in Hlen. simpl in Hlen.
      rewrite length_app in Hlen. simpl in Hlen. lia.
Qed.

Lemma no_paren_In s c : no_paren s = true -> In c s -> is_paren c = false.
Proof.
  unfold no_paren. rewrite forallb_forall. intros H Hin.
  apply H in Hin. now apply negb_true_iff in Hin.
Qed.

Lemma store_short body d :
  (List.length (split body) <? 2) = true -> store body d = d.
Proof. unfold store. now intros ->. Qed.

(** C2 (amended). An opening parenthesis that no closing parenthesis follows
    anywhere later in the message makes [parse] return [None] for the whole
    message, whatever came before it;
    a closed group with fewer than two whitespace-separated tokens is dropped
    and the decoding goes on: behind any prefix that decodes, the message
    with the short group decodes like the message without it.  The
    unterminated message ["(angle 1.0"] gives [None] and ["(angle)"] gives the
    empty dictionary. *)
Theorem parse_malformed_and_short_groups :
  (forall s, unterminated s -> parse s = PyNone) /\
  (forall pre body post d,
     parse pre = Sensors d ->
     no_paren body = true ->
     (List.length (split body) <? 2) = true ->
     parse (pre ++ lit "(" ++ body ++ lit ")" ++ post) = parse_from post d /\
     parse (pre ++ post) = parse_from post d) /\
  parse (lit "(angle 1.0") = PyNone /\
  parse (lit "(angle)") = Sensors [] /\
  parse (lit "(angle)(rpm 942.5)(gear)(track 7.0 8.5)")
  = Sensors [(lit "rpm", [lit "942.5"]); (lit "track", [lit "7.0"; lit "8.5"])].
Proof.
  split; [|split; [|repeat split; reflexivity]].
  - intros s (a & b & -> & Hb). unfold parse.
    eapply parse_from_unterminated; [reflexivity | exact Hb].
  - intros pre body post d Hpre Hbody Hshort. unfold parse in *. split.
    + rewrite (parse_from_app (List.length pre) pre (le_n _) _ [] d Hpre).
      simpl. rewrite parse_from_group.
      * now rewrite store_short.
      * intros Hin. apply (no_paren_In _ _ Hbody) in Hin. discriminate.
    + apply (parse_from_app (List.length pre) pre (le_n _) _ [] d Hpre).
Qed.

Lemma parse_malformed_and_short_groups_witness :
  parse (lit "(speedX 3)(angle 1.0") = PyNone /\
  parse (lit "(speedX 3)" ++ lit "(" ++ lit "angle" ++ lit ")" ++ lit "(rpm 900)")
  = parse_from (lit "(rpm 900)") [(lit "speedX", [lit "3"])].
Proof.
  destruct parse_malformed_and_short_groups as (Hopen & Hshort & _).
  split.
  - apply Hopen. exists (lit "(speedX 3)"), (lit "angle 1.0").
    split; [reflexivity|]. simpl. intros H.
    repeat (destruct H as [H|H]; [discriminate|]). exact H.
  - apply Hshort; reflexivity.
Defined.

(** C2 as worded fails.  In ["(angle 1.0 (rpm 3)"] the first opening
    parenthesis has no matching close: the only closing parenthesis pairs
    with the second one.  [parse] searches for the next closing parenthesis
    whatever lies between, so the message is not rejected: it decodes to a
    partial result in which [angle] has swallowed the inner group and [rpm]
    is lost. *)
Lemma unmatched_open_gives_partial_result :
  spec_unmatched_opens (lit "(angle 1.0 (rpm 3)") = 1 /\
  ~ unterminated (lit "(angle 1.0 (rpm 3)") /\
  parse (lit "(angle 1.0 (rpm 3)")
  = Sensors [(lit "angle", [lit "1.0"; lit "(rpm"; lit "3"])].
Proof.
  split; [reflexivity|]. split; [|vm_compute; reflexivity].
  intros (a & b & E & Hb).
  assert (Hnone : parse (a ++ "("%char :: b) = PyNone)
    by (unfold parse; eapply parse_from_unterminated; [reflexivity | exact Hb]).
  rewrite <- E in Hnone. vm_compute in Hnone. discriminate Hnone.
Qed.

(** ** Splitting and joining *)

Lemma split_acc_word w :
  forall tok rest,
  (forall c, In c w -> isspace c = false) ->
  split_acc tok (w ++ rest) = split_acc (tok ++ w) rest.
Proof.
  induction w as [|x w IH]; intros tok rest Hw; simpl.
  - now rewrite app_nil_r.
  - rewrite (Hw x) by now left.
    rewrite IH by (intros c Hc; apply Hw; now right).
    now rewrite <- app_assoc.
Qed.

Lemma split_join xs :
  Forall spaceless xs -> split (join (lit " ") xs) = xs.
Proof.
  unfold split. induction xs as [|x xs IH]; intros Hxs; [reflexivity|].
  inversion Hxs as [|? ? [Hne Hsp] Hrest]; subst.
  destruct xs as [|y ys].
  - simpl. rewrite <- (app_nil_r x) at 1.
    rewrite split_acc_word by exact Hsp. simpl.
    destruct x; [contradiction | reflexivity].
  - change (join (lit " ") (x :: y :: ys))
      with (x ++ " "%char :: join (lit " ") (y :: ys)).
    rewrite split_acc_word by exact Hsp. simpl app.
    cbn [split_acc]. change (isspace " ") with true. cbv iota.
    rewrite IH by exact Hrest.
    destruct x; [contradiction | reflexivity].
Qed.

Lemma In_join c sep xs :
  In c (join sep xs) -> In c sep \/ exists x, In x xs /\ In c x.
Proof.
  induction xs as [|x xs IH]; [intros []|].
  destruct xs as [|y ys].
  - simpl. intros Hc. right. exists x. split; [now left | exact Hc].
  - change (join sep (x :: y :: ys)) with (x ++ sep ++ join sep (y :: ys)).
    intros Hc. apply in_app_or in Hc as [Hc|Hc].
    + right. exists x. split; [now left | exact Hc].
    + apply in_app_or in Hc as [Hc|Hc]; [now left|].
      destruct (IH Hc) as [H|(z & Hz & Hcz)]; [now left|].
      right. exists z. split; [now right | exact Hcz].
Qed.

Lemma wire_word_spec w :
  wire_word w = true ->
  spaceless w /\ forall c, In c w -> is_paren c = false.
Proof.
  unfold wire_word, spaceless. intros H.
  apply andb_true_iff in H as [Hne Hall]. rewrite forallb_forall in Hall.
  repeat split.
  - intros ->. discriminate.
  - intros c Hc. apply Hall in Hc. apply andb_true_iff in Hc as [_ Hc].
    now apply negb_true_iff in Hc.
  - intros c Hc. apply Hall in Hc. apply andb_true_iff in Hc as [Hc _].
    now apply negb_true_iff in Hc.
Qed.

Lemma str_eqb_eq a b : str_eqb a b = true <-> a = b.
Proof.
  revert b. induction a as [|x a IH]; intros [|y b]; simpl;
    try (split; [discriminate | congruence]); [tauto|].
  rewrite andb_true_iff, Ascii.eqb_eq, IH. split.
  - now intros [-> ->].
  - now intros [= -> ->].
Qed.

Lemma dict_set_fresh {V} k (v : V) d :
  ~ In k (keys d) -> dict_set str_eqb k v d = d ++ [(k, v)].
Proof.
  induction d as [|[k' v'] d IH]; intros Hk; simpl; [reflexivity|].
  destruct (str_eqb k k') eqn:E.
  - apply str_eqb_eq in E. subst. exfalso. apply Hk. now left.
  - rewrite IH; [reflexivity|]. intros Hin. apply Hk. now right.
Qed.

(** ** [stringify] *)

Section StringifyFacts.
Context `{PyRuntime}.

Lemma stringify_from_emitted d :
  forall msg,
  (forall k, ~ In (k, Some []) d) ->
  stringify_from msg d = Ok (msg ++ emitted d).
Proof.
  unfold emitted.
  induction d as [|[k v] d IH]; intros msg Hd; simpl.
  - now rewrite app_nil_r.
  - assert (Hd' : forall k0, ~ In (k0, Some []) d)
      by (intros k0 Hin; apply (Hd k0); now right).
    destruct v as [[|[| z | q | s] vs]|]; simpl.
    + exfalso. apply (Hd k). now left.
    + now apply IH.
    + rewrite IH by exact Hd'. now rewrite <- app_assoc.
    + rewrite IH by exact Hd'. now rewrite <- app_assoc.
    + rewrite IH by exact Hd'. now rewrite <- app_assoc.
    + now apply IH.
Qed.

Lemma wire_no_empty m :
  forallb wire_entry m = true -> forall k, ~ In (k, Some []) (wire m).
Proof.
  rewrite forallb_forall. intros Hm k Hin. unfold wire in Hin.
  apply in_map_iff in Hin as ([k' v] & Heq & Hin). simpl in Heq.
  apply Hm in Hin. unfold wire_entry in Hin. simpl in Hin.
  injection Heq as _ Hv. destruct v; [|discriminate].
  rewrite andb_false_r in Hin. discriminate.
Qed.

Lemma map_py_str_PStr v : map py_str (map PStr v) = v.
Proof. induction v; simpl; congruence. Qed.

(** The text of one entry of text tokens, and how it is read back. *)
Lemma group_read k v rest d :
  wire_entry (k, v) = true ->
  parse_from (group k (map PStr v) ++ rest) d
  = parse_from rest (dict_set str_eqb k v d).
Proof.
  unfold wire_entry. intros He. simpl in He.
  apply andb_true_iff in He as [He Hall].
  apply andb_true_iff in He as [Hk Hne].
  rewrite forallb_forall in Hall.
  destruct v as [|t ts]; [discriminate|].
  assert (Hbody : group k (map PStr (t :: ts)) ++ rest
                  = "("%char :: join (lit " ") (k :: t :: ts) ++ ")"%char :: rest).
  { unfold group. rewrite map_py_str_PStr.
    change (join (lit " ") (k :: t :: ts))
      with (k ++ lit " " ++ join (lit " ") (t :: ts)).
    simpl. rewrite <- !app_assoc. simpl. rewrite <- app_assoc. reflexivity. }
  rewrite Hbody.
  assert (Hwords : Forall (fun w => wire_word w = true) (k :: t :: ts)).
  { constructor; [exact Hk|]. apply Forall_forall. exact Hall. }
  rewrite parse_from_group.
  - unfold store. rewrite split_join.
    + reflexivity.
    + eapply Forall_impl; [|exact Hwords]. intros w Hw.
      now apply wire_word_spec.
  - intros Hin. apply In_join in Hin as [Hin|(w & Hw & Hin)].
    + simpl in Hin. destruct Hin as [Hin|[]]. discriminate.
    + rewrite Forall_forall in Hwords. apply Hwords in Hw.
      apply wire_word_spec in Hw as [_ Hw]. apply Hw in Hin. discriminate.
Qed.

Lemma emitted_wire m :
  forallb wire_entry m = true ->
  emitted (wire m)
  = List.concat (map (fun e => group (fst e) (map PStr (snd e))) m).
Proof.
  unfold emitted. induction m as [|[k v] m IH]; intros Hm; [reflexivity|].
  simpl in Hm. apply andb_true_iff in Hm as [He Hm].
  destruct v as [|t ts].
  - unfold wire_entry in He. simpl in He. rewrite andb_false_r in He.
    discriminate.
  - change (wire ((k, t :: ts) :: m))
      with ((k, Some (PStr t :: map PStr ts)) :: wire m).
    cbn [filter snd fst skipped negb map values_of List.concat].
    f_equal. now apply IH.
Qed.

Lemma groups_read m :
  forall d,
  forallb wire_entry m = true ->
  NoDup (keys d ++ keys m) ->
  parse_from (List.concat (map (fun e => group (fst e) (map PStr (snd e))) m)) d
  = Sensors (d ++ m).
Proof.
  induction m as [|[k v] m IH]; intros d Hm Hnd.
  - simpl. now rewrite app_nil_r.
  - simpl in Hm. apply andb_true_iff in Hm as [He Hm].
    cbn [map List.concat fst snd]. rewrite group_read by exact He.
    rewrite dict_set_fresh.
    + rewrite IH; [now rewrite <- app_assoc | exact Hm |].
      unfold keys in *. rewrite map_app, <- app_assoc. exact Hnd.
    + simpl in Hnd. apply NoDup_remove_2 in Hnd.
      intros Hin. apply Hnd. apply in_or_app. now left.
Qed.

End StringifyFacts.

(** C1 (amended).  For every mapping from tags to non-empty sequences of text
    tokens in which every tag and every token is non-empty and free of
    parentheses and of whitespace, [parse (stringify m)] is [m], entries in
    the same order. *)
Theorem parse_stringify_roundtrip `{PyRuntime} (m : dict str (list str)) :
  NoDup (keys m) ->
  forallb wire_entry m = true ->
  exists text, stringify (wire m) = Ok text /\ parse text = Sensors m.
Proof.
  intros Hnd Hm. exists (emitted (wire m)). split.
  - unfold stringify. rewrite stringify_from_emitted; [reflexivity|].
    now apply wire_no_empty.
  - rewrite emitted_wire by exact Hm. unfold parse.
    now rewrite groups_read.
Qed.

Lemma parse_stringify_roundtrip_witness :
  let m := [(lit "angle", [lit "0.5"]); (lit "track", [lit "7.0"; lit "8.5"])] in
  exists text, stringify (wire m) = Ok text /\ parse text = Sensors m.
Proof.
  apply (parse_stringify_roundtrip
           [(lit "angle", [lit "0.5"]); (lit "track", [lit "7.0"; lit "8.5"])]).
  - repeat constructor; simpl; intuition discriminate.
  - reflexivity.
Defined.

(** C1 as worded fails: a token with a blank in it is read back as two
    tokens, and an empty tag gives its place to the first token. *)
Lemma roundtrip_breaks_on_blank_or_empty_tag :
  let m1 := [(lit "track", [lit "7.0 8.5"])] in
  let m2 := [(lit "", [lit "a"; lit "b"])] in
  (NoDup (keys m1) /\ forallb stated_entry m1 = true /\
   stringify (wire m1) = Ok (lit "(track 7.0 8.5)") /\
   parse (lit "(track 7.0 8.5)") = Sensors [(lit "track", [lit "7.0"; lit "8.5"])] /\
   parse (lit "(track 7.0 8.5)") <> Sensors m1) /\
  (NoDup (keys m2) /\ forallb stated_entry m2 = true /\
   stringify (wire m2) = Ok (lit "( a b)") /\
   parse (lit "( a b)") = Sensors [(lit "a", [lit "b"])] /\
   parse (lit "( a b)") <> Sensors m2).
Proof.
  cbv zeta. split; repeat split; try reflexivity;
    try (repeat constructor; simpl; intuition discriminate);
    intros Heq; vm_compute in Heq; discriminate.
Qed.

(** C8 (amended).  For every mapping whose values are null or non-empty
    sequences, [stringify] succeeds and returns the concatenation of the
    [(tag v1 v2 ...)] groups of the tags that are kept, in order; a tag whose
    value is null, or whose first value is null, is left out. *)
Theorem stringify_skips_null_values `{PyRuntime}
    (d : dict str (option (list pyval))) :
  (forall k, ~ In (k, Some []) d) ->
  stringify d = Ok (emitted d).
Proof.
  intros Hd. unfold stringify. now rewrite stringify_from_emitted.
Qed.

Lemma stringify_skips_null_values_witness :
  stringify [(lit "gear", Some [PInt 2]); (lit "focus", None);
             (lit "clutch", Some [PNone]); (lit "meta", Some [PInt 1])]
  = Ok (lit "(gear 2)(meta 1)").
Proof.
  rewrite stringify_skips_null_values.
  - reflexivity.
  - intros k Hin. simpl in Hin.
    repeat (destruct Hin as [Hin|Hin]; [discriminate|]). exact Hin.
Defined.

(** C8 as worded fails: an empty value sequence is not skipped, the test
    [value[0]] raises [IndexError] and no text is returned. *)
Lemma stringify_raises_on_empty_sequence :
  stringify [(lit "gear", Some [PInt 2]); (lit "focus", Some []);
             (lit "meta", Some [PInt 1])]
  = Raise IndexError.
Proof. reflexivity. Qed.

(** ** The vehicle state *)

Lemma bind_ok {S A B} (m : M S A) (k : A -> M S B) s b s' :
  bind m k s = (Ok b, s') ->
  exists a s1, m s = (Ok a, s1) /\ k a s1 = (Ok b, s').
Proof.
  unfold bind. destruct (m s) as [[a|e] s1]; [eauto | discriminate].
Qed.

Section CarStateFacts.
Context `{PyRuntime}.

Lemma float_step {B} name set (k : unit -> M CarState.t B) s d :
  CarState.sensors s = Sensors d ->
  bind (v <- CarState.getFloatD name ;; modify (set v)) k s
  = match field_float d name with
    | Ok v => k tt (set v s)
    | Raise e => (Raise e, s)
    end.
Proof.
  intros Hs. unfold field_float, bind, CarState.getFloatD,
    CarState.sensors_get, bind, get, ret, lift_res, modify, raise.
  rewrite Hs. destruct (dict_get str_eqb name d) as [toks|]; [|reflexivity].
  destruct (CarState.first CarState.float toks); reflexivity.
Qed.

Lemma int_step {B} name set (k : unit -> M CarState.t B) s d :
  CarState.sensors s = Sensors d ->
  bind (v <- CarState.getIntD name ;; modify (set v)) k s
  = match field_int d name with
    | Ok v => k tt (set v s)
    | Raise e => (Raise e, s)
    end.
Proof.
  intros Hs. unfold field_int, bind, CarState.getIntD,
    CarState.sensors_get, bind, get, ret, lift_res, modify, raise.
  rewrite Hs. destruct (dict_get str_eqb name d) as [toks|]; [|reflexivity].
  destruct (CarState.first CarState.int toks); reflexivity.
Qed.

Lemma floats_step {B} name set (k : unit -> M CarState.t B) s d :
  CarState.sensors s = Sensors d ->
  bind (v <- CarState.getFloatListD name ;; modify (set v)) k s
  = match field_floats d name with
    | Ok v => k tt (set v s)
    | Raise e => (Raise e, s)
    end.
Proof.
  intros Hs. unfold field_floats, bind, CarState.getFloatListD,
    CarState.sensors_get, bind, get, ret, lift_res, modify, raise.
  rewrite Hs. destruct (dict_get str_eqb name d) as [toks|]; [|reflexivity].
  destruct (CarState.floats toks); reflexivity.
Qed.

Lemma bind_ret {S A} (m : M S A) s : bind m ret s = m s.
Proof. unfold bind, ret. now destruct (m s) as [[a|e] s1]. Qed.

Lemma decode_in_float f d v :
  decode f = (fun toks => map_res Float (CarState.first CarState.float toks)) ->
  field_float d (tag f) = Ok v -> decode_in d f = Ok (float_reading v).
Proof.
  unfold field_float, decode_in. intros ->.
  destruct (dict_get str_eqb (tag f) d) as [toks|].
  - destruct (CarState.first CarState.float toks); simpl; [now intros [= <-] | discriminate].
  - now intros [= <-].
Qed.

Lemma decode_in_int f d v :
  decode f = (fun toks => map_res Int (CarState.first CarState.int toks)) ->
  field_int d (tag f) = Ok v -> decode_in d f = Ok (int_reading v).
Proof.
  unfold field_int, decode_in. intros ->.
  destruct (dict_get str_eqb (tag f) d) as [toks|].
  - destruct (CarState.first CarState.int toks); simpl; [now intros [= <-] | discriminate].
  - now intros [= <-].
Qed.

Lemma decode_in_floats f d v :
  decode f = (fun toks => map_res Floats (CarState.floats toks)) ->
  field_floats d (tag f) = Ok v -> decode_in d f = Ok (floats_reading v).
Proof.
  unfold field_floats, decode_in. intros ->.
  destruct (dict_get str_eqb (tag f) d) as [toks|].
  - destruct (CarState.floats toks); simpl; [now intros [= <-] | discriminate].
  - now intros [= <-].
Qed.

Ltac setter_step H d :=
  first [ rewrite (float_step _ _ _ _ d) in H by reflexivity
        | rewrite (int_step _ _ _ _ d) in H by reflexivity
        | rewrite (floats_step _ _ _ _ d) in H by reflexivity ];
  match type of H with
  | match ?x with _ => _ end = _ => destruct x eqn:?; [|discriminate]
  end.

(** What a successful [setFromMsg] leaves in the state. *)
Lemma setFromMsg_result msg s s' d :
  parse msg = Sensors d ->
  CarState.setFromMsg msg s = (Ok tt, s') ->
  CarState.sensors s' = Sensors d /\
  forall f, decode_in d f = Ok (read f s').
Proof.
  intros Hp H0.
  unfold CarState.setFromMsg in H0. rewrite Hp in H0.
  unfold bind at 1 in H0. unfold modify at 1 in H0.
  unfold CarState.setAngleD, CarState.setCurLapTimeD, CarState.setDamageD,
    CarState.setDistFromStartD, CarState.setDistRacedD, CarState.setFocusD,
    CarState.setFuelD, CarState.setGearD, CarState.setLastLapTimeD,
    CarState.setOpponentsD, CarState.setRacePosD, CarState.setRpmD,
    CarState.setSpeedXD, CarState.setSpeedYD, CarState.setSpeedZD,
    CarState.setTrackD, CarState.setTrackPosD, CarState.setWheelSpinVelD,
    CarState.setZD, CarState.setXD, CarState.setYD in H0.
  do 20 setter_step H0 d.
  rewrite <- bind_ret in H0. setter_step H0 d.
  injection H0 as <-. split; [reflexivity|].
  intros f. destruct f;
    first [ apply decode_in_float; [reflexivity | assumption]
          | apply decode_in_int; [reflexivity | assumption]
          | apply decode_in_floats; [reflexivity | assumption] ].
Qed.

End CarStateFacts.

Section CarStateTotal.
Context `{PyRuntime}.

Lemma field_float_of_decode f d r :
  decode f = (fun toks => map_res Float (CarState.first CarState.float toks)) ->
  decode_in d f = Ok r -> exists v, field_float d (tag f) = Ok v.
Proof.
  unfold field_float, decode_in. intros ->.
  destruct (dict_get str_eqb (tag f) d) as [toks|]; [|eauto].
  destruct (CarState.first CarState.float toks); simpl; [eauto | discriminate].
Qed.

Lemma field_int_of_decode f d r :
  decode f = (fun toks => map_res Int (CarState.first CarState.int toks)) ->
  decode_in d f = Ok r -> exists v, field_int d (tag f) = Ok v.
Proof.
  unfold field_int, decode_in. intros ->.
  destruct (dict_get str_eqb (tag f) d) as [toks|]; [|eauto].
  destruct (CarState.first CarState.int toks); simpl; [eauto | discriminate].
Qed.

Lemma field_floats_of_decode f d r :
  decode f = (fun toks => map_res Floats (CarState.floats toks)) ->
  decode_in d f = Ok r -> exists v, field_floats d (tag f) = Ok v.
Proof.
  unfold field_floats, decode_in. intros ->.
  destruct (dict_get str_eqb (tag f) d) as [toks|]; [|eauto].
  destruct (CarState.floats toks); simpl; [eauto | discriminate].
Qed.

Ltac setter_run d Hall f :=
  let v := fresh "v" in
  let E := fresh "E" in
  destruct (Hall f) as [? E];
  first [ apply field_float_of_decode in E as [v E]; [|reflexivity];
          rewrite (float_step _ _ _ _ d) by reflexivity
        | apply field_int_of_decode in E as [v E]; [|reflexivity];
          rewrite (int_step _ _ _ _ d) by reflexivity
        | apply field_floats_of_decode in E as [v E]; [|reflexivity];
          rewrite (floats_step _ _ _ _ d) by reflexivity ];
  cbn [tag] in E; rewrite E.

(** [setFromMsg] returns normally when the message decodes and every
    present tag carries tokens that its decode rule accepts. *)
Lemma setFromMsg_succeeds msg s d :
  parse msg = Sensors d ->
  (forall f, exists r, decode_in d f = Ok r) ->
  exists s', CarState.setFromMsg msg s = (Ok tt, s').
Proof.
  intros Hp Hall.
  unfold CarState.setFromMsg. rewrite Hp.
  unfold bind at 1. unfold modify at 1.
  unfold CarState.setAngleD, CarState.setCurLapTimeD, CarState.setDamageD,
    CarState.setDistFromStartD, CarState.setDistRacedD, CarState.setFocusD,
    CarState.setFuelD, CarState.setGearD, CarState.setLastLapTimeD,
    CarState.setOpponentsD, CarState.setRacePosD, CarState.setRpmD,
    CarState.setSpeedXD, CarState.setSpeedYD, CarState.setSpeedZD,
    CarState.setTrackD, CarState.setTrackPosD, CarState.setWheelSpinVelD,
    CarState.setZD, CarState.setXD, CarState.setYD.
  setter_run d Hall FAngle. setter_run d Hall FCurLapTime.
  setter_run d Hall FDamage. setter_run d Hall FDistFromStart.
  setter_run d Hall FDistRaced. setter_run d Hall FFocus.
  setter_run d Hall FFuel. setter_run d Hall FGear.
  setter_run d Hall FLastLapTime. setter_run d Hall FOpponents.
  setter_run d Hall FRacePos. setter_run d Hall FRpm.
  setter_run d Hall FSpeedX. setter_run d Hall FSpeedY.
  setter_run d Hall FSpeedZ. setter_run d Hall FTrack.
  setter_run d Hall FTrackPos. setter_run d Hall FWheelSpinVel.
  setter_run d Hall FZ. setter_run d Hall FX.
  rewrite <- bind_ret. setter_run d Hall FY.
  eexists. reflexivity.
Qed.

(** On an unterminated message only [sensors] is assigned, and the first
    getter raises. *)
Lemma setFromMsg_malformed msg s :
  parse msg = PyNone ->
  CarState.setFromMsg msg s
  = (Raise AttributeError, CarState.set_sensors PyNone s).
Proof.
  intros Hp. unfold CarState.setFromMsg. rewrite Hp. reflexivity.
Qed.

End CarStateTotal.




(** ** Gear rules *)

Lemma Qltb_lt a b : Qltb a b = true <-> (a < b)%Q.
Proof.
  unfold Qltb. rewrite negb_true_iff. split.
  - intros Hle. apply Qnot_le_lt. intros Hc.
    apply Qle_bool_iff in Hc. congruence.
  - intros Hlt. destruct (Qle_bool b a) eqn:E; [|reflexivity].
    apply Qle_bool_iff in E. exfalso. now apply (Qlt_not_le a b).
Qed.

Lemma Qltb_ge a b : Qltb a b = false <-> (b <= a)%Q.
Proof.
  unfold Qltb. rewrite negb_false_iff. apply Qle_bool_iff.
Qed.

Section GearRules.
Context `{PyRuntime}.

Lemma rule_gear_run d rpm g :
  CarState.rpm (RuleDriver.state d) = Some rpm ->
  CarState.gear (RuleDriver.state d) = Some g ->
  RuleDriver.gear d
  = (Ok tt, RuleDriver.set_control
              (CarControl.set_gear (PInt (rule_shift rpm g))
                 (RuleDriver.control d)) d).
Proof.
  intros Hr Hg.
  unfold RuleDriver.gear, rule_shift, bind, get, and_then, py_gt, py_lt, bind,
    as_num, ret, CarState.getRpm, CarState.getGear.
  rewrite Hr, Hg. cbn [of_float of_int]. cbv beta iota.
  destruct (Qltb (inject_Z RuleDriver.UPSHIFT_RPM) rpm);
    destruct (Qltb (inject_Z g) (inject_Z RuleDriver.MAX_GEAR));
    destruct (Qltb rpm (inject_Z RuleDriver.DOWNSHIFT_RPM));
    destruct (Qltb (inject_Z RuleDriver.MIN_GEAR) (inject_Z g));
    reflexivity.
Qed.

Lemma auto_shift_run d rpm speed g a :
  CarState.rpm (LearningDriver.state d) = Some rpm ->
  CarState.speedX (LearningDriver.state d) = Some speed ->
  CarControl.gear (LearningDriver.control d) = PInt g ->
  CarControl.accel (LearningDriver.control d) = PFloat a ->
  LearningDriver._auto_shift d
  = (Ok tt, LearningDriver.set_control
              (auto_shifted g rpm speed a (LearningDriver.control d)) d).
Proof.
  destruct d as [stage st c hist prev ang]. destruct c as [act ac br ge ste cl fo me].
  cbn [LearningDriver.state LearningDriver.control CarControl.gear CarControl.accel].
  intros Hr Hs -> ->.
  unfold LearningDriver._auto_shift, auto_shifted, auto_up, auto_down,
    rev_matched, try_except, bind, get, and_then, py_gt, py_lt, py_sub,
    py_add, py_max, py_arith, bind, as_num, ret, modify,
    LearningDriver.in_control, zoom, LearningDriver.threshold, int_key,
    CarState.getRpm, CarState.getSpeedX.
  cbn [LearningDriver.state LearningDriver.control CarControl.gear
       CarControl.accel py_eq of_float].
  rewrite Hr, Hs. cbn [of_float].
  destruct (Z.eqb g (-1)).
  { destruct (Qltb 0.1 speed); reflexivity. }
  destruct (dict_get Z.eqb g LearningDriver.upshift_rpm) as [up|];
    destruct (dict_get Z.eqb g LearningDriver.downshift_rpm) as [down|];
    try destruct (Qltb (inject_Z g) (inject_Z 6));
    try destruct (Qltb (inject_Z up) rpm);
    try destruct (Qltb (inject_Z 0) speed);
    try destruct (Qltb (inject_Z 1) (inject_Z g));
    try destruct (Qltb rpm (inject_Z down));
    cbn -[Qltb Qminus Qplus inject_Z];
    try reflexivity;
    destruct (Qltb (inject_Z 0) a);
    cbn -[Qltb Qminus Qplus inject_Z];
    try reflexivity;
    destruct (Qltb (a - 0.2) (inject_Z 0));
    reflexivity.
Qed.

Lemma upshift_limit g up :
  dict_get Z.eqb g LearningDriver.upshift_rpm = Some up ->
  (1 <= g <= 6 /\ 7000 <= up)%Z.
Proof.
  unfold LearningDriver.upshift_rpm. cbn [dict_get].
  repeat (match goal with
          | |- context [Z.eqb g ?k] =>
              destruct (Z.eqb_spec g k); [intros [= <-]; subst; lia|]
          end).
  discriminate.
Qed.

Lemma downshift_limit g down :
  dict_get Z.eqb g LearningDriver.downshift_rpm = Some down ->
  (2 <= g <= 6 /\ down <= 4000)%Z.
Proof.
  unfold LearningDriver.downshift_rpm. cbn [dict_get].
  repeat (match goal with
          | |- context [Z.eqb g ?k] =>
              destruct (Z.eqb_spec g k); [intros [= <-]; subst; lia|]
          end).
  discriminate.
Qed.

Lemma inject_Z_ltb x y : Qltb (inject_Z x) (inject_Z y) = true <-> (x < y)%Z.
Proof. rewrite Qltb_lt, <- Zlt_Qlt. reflexivity. Qed.

Lemma auto_up_spec g rpm speed :
  auto_up g rpm speed = true <->
  exists up, dict_get Z.eqb g LearningDriver.upshift_rpm = Some up /\
             (g < 6)%Z /\ (inject_Z up < rpm)%Q /\ (0 < speed)%Q.
Proof.
  unfold auto_up.
  destruct (dict_get Z.eqb g LearningDriver.upshift_rpm) as [up|].
  - rewrite !andb_true_iff, inject_Z_ltb, !Qltb_lt. split.
    + intros (Hg & Hr & Hs). exists up. repeat split; assumption.
    + intros (up' & [= <-] & Hg & Hr & Hs). repeat split; assumption.
  - split; [discriminate | intros (up & Hup & _); discriminate].
Qed.

Lemma auto_down_spec g rpm :
  auto_down g rpm = true <->
  exists down, dict_get Z.eqb g LearningDriver.downshift_rpm = Some down /\
               (1 < g)%Z /\ (rpm < inject_Z down)%Q.
Proof.
  unfold auto_down.
  destruct (dict_get Z.eqb g LearningDriver.downshift_rpm) as [down|].
  - rewrite !andb_true_iff, inject_Z_ltb, !Qltb_lt. split.
    + intros (Hg & Hr). exists down. repeat split; assumption.
    + intros (down' & [= <-] & Hg & Hr). split; assumption.
  - split; [discriminate | intros (down & Hd & _); discriminate].
Qed.

(** The two shifts of [_auto_shift] exclude each other. *)
Lemma auto_up_not_down g rpm speed :
  auto_up g rpm speed = true -> auto_down g rpm = false.
Proof.
  intros Hup. destruct (auto_down g rpm) eqn:Hdown; [|reflexivity].
  apply auto_up_spec in Hup as (up & Hu & _ & Hr & _).
  apply auto_down_spec in Hdown as (down & Hd & _ & Hr').
  apply upshift_limit in Hu as [_ Hu]. apply downshift_limit in Hd as [_ Hd].
  assert (Hlt : (inject_Z up < inject_Z down)%Q) by (eapply Qlt_trans; eassumption).
  rewrite <- Zlt_Qlt in Hlt. lia.
Qed.

Lemma rev_matched_num a :
  exists q, num_of (rev_matched a) = Some q /\
    ((0 < a)%Q -> (q == Qmax (a - 0.2) 0)%Q) /\ ((a <= 0)%Q -> (q == a)%Q).
Proof.
  unfold rev_matched. change (inject_Z 0) with 0%Q.
  destruct (Qltb 0 a) eqn:Ea.
  - apply Qltb_lt in Ea.
    destruct (Qltb (a - 0.2) 0) eqn:Eb.
    + apply Qltb_lt in Eb. exists 0%Q. repeat split.
      * intros _. symmetry. apply Q.max_r. now apply Qlt_le_weak.
      * intros Hle. exfalso. apply (Qlt_not_le 0 a); assumption.
    + apply Qltb_ge in Eb. exists (a - 0.2)%Q. repeat split.
      * intros _. symmetry. now apply Q.max_l.
      * intros Hle. exfalso. apply (Qlt_not_le 0 a); assumption.
  - apply Qltb_ge in Ea. exists a. repeat split; try reflexivity.
    intros Hlt. exfalso. apply (Qlt_not_le 0 a); assumption.
Qed.

End GearRules.

(** C5 (amended).  [Driver.gear] of the rule-based driver commands the
    telemetry gear plus one when the RPM exceeds 7000 and the gear is below
    6, the telemetry gear minus one when the RPM is below 3000 (one threshold
    for every gear) and the gear is above 1, and the telemetry gear
    otherwise; nothing but the commanded gear changes, and from a telemetry
    gear of -1 or more the command is -1 only when the telemetry gear is -1
    already.
    [_auto_shift] of the learning driver, from the commanded gear [g]:
    commands [g + 1] when [g] is below 6, the RPM exceeds the upshift
    threshold of [g] and the speed is positive; commands [g - 1] when [g] is
    above 1 and the RPM is below the downshift threshold of [g], and then a
    positive accel is lowered by 0.2 and floored at 0; from gear -1 commands
    gear 1 when the speed exceeds 0.1 and stays in -1 otherwise; in every
    other case gear and accel stay, and it never turns another gear into -1. *)
Theorem gear_rules_shift_on_rpm_thresholds `{PyRuntime} :
  (forall d rpm g,
     CarState.rpm (RuleDriver.state d) = Some rpm ->
     CarState.gear (RuleDriver.state d) = Some g ->
     exists out,
       RuleDriver.gear d
       = (Ok tt, RuleDriver.set_control
                   (CarControl.set_gear (PInt out) (RuleDriver.control d)) d) /\
       ((7000 < rpm)%Q -> (g < 6)%Z -> out = (g + 1)%Z) /\
       ((rpm < 3000)%Q -> (1 < g)%Z -> out = (g - 1)%Z) /\
       (~ ((7000 < rpm)%Q /\ (g < 6)%Z) ->
        ~ ((rpm < 3000)%Q /\ (1 < g)%Z) -> out = g) /\
       ((-1 <= g)%Z -> out = (-1)%Z -> g = (-1)%Z)) /\
  (forall d rpm speed g a,
     CarState.rpm (LearningDriver.state d) = Some rpm ->
     CarState.speedX (LearningDriver.state d) = Some speed ->
     CarControl.gear (LearningDriver.control d) = PInt g ->
     CarControl.accel (LearningDriver.control d) = PFloat a ->
     exists out a',
       LearningDriver._auto_shift d
       = (Ok tt, LearningDriver.set_control
                   (CarControl.set_accel a'
                      (CarControl.set_gear (PInt out) (LearningDriver.control d)))
                   d) /\
       (forall up,
          dict_get Z.eqb g LearningDriver.upshift_rpm = Some up ->
          (g < 6)%Z -> (inject_Z up < rpm)%Q -> (0 < speed)%Q ->
          out = (g + 1)%Z /\ a' = PFloat a) /\
       (forall down,
          dict_get Z.eqb g LearningDriver.downshift_rpm = Some down ->
          (1 < g)%Z -> (rpm < inject_Z down)%Q ->
          out = (g - 1)%Z /\
          exists q, num_of a' = Some q /\
            ((0 < a)%Q -> (q == Qmax (a - 0.2) 0)%Q) /\
            ((a <= 0)%Q -> (q == a)%Q)) /\
       (g = (-1)%Z ->
          a' = PFloat a /\
          ((0.1 < speed)%Q -> out = 1%Z) /\
          ((speed <= 0.1)%Q -> out = (-1)%Z)) /\
       (g <> (-1)%Z ->
        (forall up, dict_get Z.eqb g LearningDriver.upshift_rpm = Some up ->
           ~ ((g < 6)%Z /\ (inject_Z up < rpm)%Q /\ (0 < speed)%Q)) ->
        (forall down, dict_get Z.eqb g LearningDriver.downshift_rpm = Some down ->
           ~ ((1 < g)%Z /\ (rpm < inject_Z down)%Q)) ->
        out = g /\ a' = PFloat a) /\
       (out = (-1)%Z -> g = (-1)%Z)).
Proof.
  split.
  - intros d rpm g Hr Hg. exists (rule_shift rpm g).
    split; [now apply rule_gear_run|].
    unfold rule_shift, RuleDriver.UPSHIFT_RPM, RuleDriver.DOWNSHIFT_RPM,
      RuleDriver.MAX_GEAR, RuleDriver.MIN_GEAR.
    change (inject_Z 7000) with 7000%Q. change (inject_Z 3000) with 3000%Q.
    destruct (Qltb 7000 rpm) eqn:E1; destruct (Qltb (inject_Z g) (inject_Z 6)) eqn:E2;
      destruct (Qltb rpm 3000) eqn:E3; destruct (Qltb (inject_Z 1) (inject_Z g)) eqn:E4;
      cbn [andb];
      try (apply Qltb_lt in E1); try (apply Qltb_ge in E1);
      try (apply inject_Z_ltb in E2);
      try (apply Qltb_ge in E2; rewrite <- Zle_Qle in E2);
      try (apply Qltb_lt in E3); try (apply Qltb_ge in E3);
      try (apply inject_Z_ltb in E4);
      try (apply Qltb_ge in E4; rewrite <- Zle_Qle in E4);
      repeat split; intros;
      try reflexivity; try lia;
      try (exfalso; lra);
      try (exfalso; lia);
      try (exfalso; tauto).
  - intros d rpm speed g a Hr Hs Hg Ha.
    set (out := if Z.eqb g (-1) then (if Qltb 0.1 speed then 1 else -1)%Z
                else if auto_up g rpm speed then (g + 1)%Z
                else if auto_down g rpm then (g - 1)%Z else g).
    set (a' := if Z.eqb g (-1) then PFloat a
               else if auto_down g rpm then rev_matched a else PFloat a).
    exists out, a'. split; [|split; [|split; [|split; [|split]]]].
    + rewrite (auto_shift_run d rpm speed g a Hr Hs Hg Ha). f_equal.
      destruct d as [stage st c hist prev ang].
      destruct c as [act ac br ge ste cl fo me]. cbn in Hg, Ha. subst ge ac.
      unfold LearningDriver.set_control. f_equal.
      cbn [LearningDriver.control]. unfold auto_shifted, out, a'.
      destruct (Z.eqb g (-1)) eqn:Eg.
      * apply Z.eqb_eq in Eg. subst g. destruct (Qltb 0.1 speed); reflexivity.
      * destruct (auto_up g rpm speed) eqn:Eu.
        -- rewrite (auto_up_not_down _ _ _ Eu). reflexivity.
        -- destruct (auto_down g rpm); [|reflexivity].
           unfold rev_matched. destruct (Qltb (inject_Z 0) a); reflexivity.
    + intros up Hup Hlt Hrpm Hsp.
      assert (Eu : auto_up g rpm speed = true)
        by (apply auto_up_spec; exists up; repeat split; assumption).
      assert (Eg : Z.eqb g (-1) = false)
        by (apply Z.eqb_neq; apply upshift_limit in Hup; lia).
      unfold out, a'. rewrite Eg, Eu, (auto_up_not_down _ _ _ Eu).
      split; reflexivity.
    + intros down Hd Hlt Hrpm.
      assert (Ed : auto_down g rpm = true)
        by (apply auto_down_spec; exists down; repeat split; assumption).
      assert (Eg : Z.eqb g (-1) = false) by (apply Z.eqb_neq; lia).
      unfold out, a'. rewrite Eg, Ed. split.
      * destruct (auto_up g rpm speed) eqn:Eu; [|reflexivity].
        apply auto_up_not_down in Eu. congruence.
      * apply rev_matched_num.
    + intros ->. unfold out, a'. cbn [Z.eqb Pos.eqb]. split; [reflexivity|]. split.
      * intros Hsp. apply Qltb_lt in Hsp. now rewrite Hsp.
      * intros Hsp. apply Qltb_ge in Hsp. now rewrite Hsp.
    + intros Hne Hnu Hnd. apply Z.eqb_neq in Hne. unfold out, a'. rewrite Hne.
      destruct (auto_up g rpm speed) eqn:Eu.
      { apply auto_up_spec in Eu as (up & Hup & Hc). exfalso.
        apply (Hnu up Hup). exact Hc. }
      destruct (auto_down g rpm) eqn:Ed; [|split; reflexivity].
      apply auto_down_spec in Ed as (down & Hd & Hc). exfalso.
      apply (Hnd down Hd). exact Hc.
    + unfold out. destruct (Z.eqb g (-1)) eqn:Eg.
      { intros _. now apply Z.eqb_eq. }
      destruct (auto_up g rpm speed) eqn:Eu.
      { apply auto_up_spec in Eu as (up & Hup & _).
        apply upshift_limit in Hup. lia. }
      destruct (auto_down g rpm) eqn:Ed.
      { apply auto_down_spec in Ed as (down & Hd & _).
        apply downshift_limit in Hd. lia. }
      intros ->. discriminate.
Qed.

Lemma gear_rules_shift_on_rpm_thresholds_witness :
  CarControl.gear (RuleDriver.control
    (snd (RuleDriver.gear (rule_driver_at (telemetry 7200 10 3) (commanded 0.5 3)))))
  = PInt 4 /\
  CarControl.gear (RuleDriver.control
    (snd (RuleDriver.gear (rule_driver_at (telemetry 2400 10 3) (commanded 0.5 3)))))
  = PInt 2 /\
  CarControl.gear (LearningDriver.control
    (snd (LearningDriver._auto_shift
            (learning_driver_at (telemetry 7200 10 3) (commanded 0.5 3)))))
  = PInt 4 /\
  (exists a',
     LearningDriver.control
       (snd (LearningDriver._auto_shift
               (learning_driver_at (telemetry 2400 10 3) (commanded 0.5 3))))
     = CarControl.set_accel a' (CarControl.set_gear (PInt 2) (commanded 0.5 3)) /\
     exists q, num_of a' = Some q /\ (q == 0.3)%Q).
Proof.
  destruct gear_rules_shift_on_rpm_thresholds as [Hrule Hauto].
  split; [|split; [|split]].
  - destruct (Hrule (rule_driver_at (telemetry 7200 10 3) (commanded 0.5 3))
                7200%Q 3%Z eq_refl eq_refl) as (out & Hrun & Hup & _).
    rewrite Hrun, Hup; [reflexivity | lra | lia].
  - destruct (Hrule (rule_driver_at (telemetry 2400 10 3) (commanded 0.5 3))
                2400%Q 3%Z eq_refl eq_refl) as (out & Hrun & _ & Hdown & _).
    rewrite Hrun, Hdown; [reflexivity | lra | lia].
  - destruct (Hauto (learning_driver_at (telemetry 7200 10 3) (commanded 0.5 3))
                7200%Q 10%Q 3%Z 0.5%Q eq_refl eq_refl eq_refl eq_refl)
      as (out & a' & Hrun & Hup & _).
    rewrite Hrun.
    destruct (Hup 7000%Z eq_refl) as [-> _]; [lia | reflexivity | reflexivity |].
    reflexivity.
  - destruct (Hauto (learning_driver_at (telemetry 2400 10 3) (commanded 0.5 3))
                2400%Q 10%Q 3%Z 0.5%Q eq_refl eq_refl eq_refl eq_refl)
      as (out & a' & Hrun & _ & Hdown & _).
    rewrite Hrun.
    destruct (Hdown 2500%Z eq_refl) as [-> (q & Hq & Hpos & _)];
      [lia | reflexivity |].
    exists a'. split; [reflexivity|].
    exists q. split; [exact Hq|].
    rewrite Hpos by reflexivity. reflexivity.
Defined.

(** C5 as worded fails on both gear rules.  [Driver.gear] passes a telemetry
    gear of -1 on as the command and leaves accel alone on a downshift;
    [_auto_shift] does not shift up at standstill although the RPM is above
    the threshold, and keeps gear -1 when the car is not moving forward. *)
Lemma gear_rules_counterexample :
  CarControl.gear (RuleDriver.control
    (snd (RuleDriver.gear (rule_driver_at (telemetry 5000 10 (-1)) (commanded 0.5 1)))))
  = PInt (-1) /\
  CarControl.accel (RuleDriver.control
    (snd (RuleDriver.gear (rule_driver_at (telemetry 2400 10 3) (commanded 0.5 3)))))
  = PFloat 0.5 /\
  CarControl.gear (LearningDriver.control
    (snd (LearningDriver._auto_shift
            (learning_driver_at (telemetry 7200 0 3) (commanded 0.5 3)))))
  = PInt 3 /\
  CarControl.gear (LearningDriver.control
    (snd (LearningDriver._auto_shift
            (learning_driver_at (telemetry 900 0 (-1)) (commanded 0.5 (-1))))))
  = PInt (-1).
Proof. repeat split; reflexivity. Qed.

(** ** The racing loop *)

Section RacingLoop.
Context {D : Type} `{Policy D}.

Lemma tick_at_ceiling max_steps buf (c : PyClient.client) :
  marker_free buf = true ->
  (PyClient.currentStep c + 1)%Z = max_steps ->
  PyClient.tick max_steps (Some buf) c
  = ([PyClient.Send (lit "(meta 1)")],
     PyClient.mk (PyClient.d c) max_steps 0 (PyClient.shutdownClient c),
     PyClient.Racing).
Proof.
  unfold marker_free, PyClient.tick. intros Hm Hs.
  apply andb_true_iff in Hm as [Hsd Hrs].
  apply negb_true_iff in Hsd, Hrs. rewrite Hsd, Hrs, !andb_false_r.
  rewrite Hs, Z.eqb_refl. reflexivity.
Qed.

Lemma tick_below_ceiling_driven max_steps received (c : PyClient.client) :
  (PyClient.currentStep c + 1)%Z <> max_steps ->
  driven (fst (fst (PyClient.tick max_steps received c))).
Proof.
  intros Hs payload. unfold PyClient.tick.
  destruct received as [buf|]; [|simpl; intros [Hin|[]]; discriminate].
  destruct (nonempty buf && contains (lit "***shutdown***") buf).
  { destruct (policy_onShutDown (PyClient.d c)) as [[u|e] d'];
      simpl; intros [Hin|[]]; discriminate. }
  destruct (nonempty buf && contains (lit "***restart***") buf).
  { destruct (policy_onRestart (PyClient.d c)) as [[u|e] d'];
      simpl; intros [Hin|[]]; discriminate. }
  apply Z.eqb_neq in Hs. rewrite Hs. cbn [negb].
  destruct (nonempty buf); [|intros []].
  destruct (policy_drive buf (PyClient.d c)) as [[out|e] d'];
    simpl; intros _; eauto.
Qed.

Lemma tick_step_nonneg max_steps received (c : PyClient.client) :
  (0 <= PyClient.currentStep c)%Z ->
  (0 <= PyClient.currentStep (snd (fst (PyClient.tick max_steps received c))))%Z.
Proof.
  intros Hc. unfold PyClient.tick.
  destruct received as [buf|]; [|exact Hc].
  destruct (nonempty buf && contains (lit "***shutdown***") buf).
  { destruct (policy_onShutDown (PyClient.d c)) as [[u|e] d']; exact Hc. }
  destruct (nonempty buf && contains (lit "***restart***") buf).
  { destruct (policy_onRestart (PyClient.d c)) as [[u|e] d']; exact Hc. }
  destruct (negb (PyClient.currentStep c + 1 =? max_steps)%Z).
  - destruct (nonempty buf); [|simpl; lia].
    destruct (policy_drive buf (PyClient.d c)) as [[out|e] d']; simpl; lia.
  - simpl. lia.
Qed.

(** Without a ceiling every tick of the loop that sends has driven. *)
Lemma racing_unbounded_driven inputs :
  forall c : PyClient.client,
  (0 <= PyClient.currentStep c)%Z ->
  Forall driven (fst (fst (PyClient.racing 0 inputs c))).
Proof.
  induction inputs as [|received rest IH]; intros c Hc; [constructor|].
  cbn [PyClient.racing].
  pose proof (tick_below_ceiling_driven 0 received c) as Hd.
  pose proof (tick_step_nonneg 0 received c Hc) as Hn.
  destruct (PyClient.tick 0 received c) as [[events c'] st].
  cbn [fst snd] in Hd, Hn.
  assert (Hev : driven events) by (apply Hd; lia).
  destruct st.
  - specialize (IH c' Hn).
    destruct (PyClient.racing 0 rest c') as [[later c''] st'].
    cbn [fst] in *. constructor; assumption.
  - cbn [fst]. constructor; [exact Hev | constructor].
  - cbn [fst]. constructor; [exact Hev | constructor].
Qed.

(** After [k] more datagrams without a marker the step counter has advanced
    by [k], unless the policy raised on the way. *)
Lemma racing_reaches_ceiling bufs :
  forall (c : PyClient.client) max_steps,
  forallb marker_free bufs = true ->
  (PyClient.currentStep c + Z.of_nat (List.length bufs))%Z = max_steps ->
  bufs <> [] ->
  let ticks := fst (fst (PyClient.racing max_steps (map Some bufs) c)) in
  List.length ticks = List.length bufs ->
  nth_error ticks (List.length bufs - 1) = Some [PyClient.Send (lit "(meta 1)")].
Proof.
  induction bufs as [|buf rest IH]; intros c max_steps Hm Hs Hne; [congruence|].
  cbn [forallb] in Hm. apply andb_true_iff in Hm as [Hb Hm].
  cbn [map PyClient.racing List.length].
  destruct rest as [|buf' rest'].
  - cbn [List.length] in Hs.
    rewrite tick_at_ceiling by (assumption || lia). reflexivity.
  - assert (Hstep : PyClient.currentStep
                      (snd (fst (PyClient.tick max_steps (Some buf) c)))
                    = (PyClient.currentStep c + 1)%Z).
    { unfold PyClient.tick. unfold marker_free in Hb.
      apply andb_true_iff in Hb as [Hsd Hrs].
      apply negb_true_iff in Hsd, Hrs. rewrite Hsd, Hrs, !andb_false_r.
      destruct (negb (PyClient.currentStep c + 1 =? max_steps)%Z).
      - destruct (nonempty buf); [|reflexivity].
        destruct (policy_drive buf (PyClient.d c)) as [[out|e] d']; reflexivity.
      - reflexivity. }
    destruct (PyClient.tick max_steps (Some buf) c) as [[events c'] st].
    cbn [fst snd] in Hstep.
    destruct st.
    + specialize (IH c' max_steps Hm).
      destruct (PyClient.racing max_steps (map Some (buf' :: rest')) c')
        as [[later c''] st'] eqn:Er.
      cbn [fst List.length] in *. intros Hlen.
      replace (S (S (List.length rest')) - 1) with (S (S (List.length rest') - 1))
        by lia.
      cbn [nth_error]. apply IH; [lia | discriminate | lia].
    + cbn [fst List.length]. intros Hlen. lia.
    + cbn [fst List.length]. intros Hlen. lia.
Qed.

End RacingLoop.



(** ** Malformed datagrams *)

Section Malformed.
Context `{PyRuntime} `{Trained}.

Lemma toMsg_run (c : CarControl.t) :
  CarControl.toMsg c
  = (Ok (emitted (CarControl.actions_of c)),
     CarControl.set_actions (CarControl.actions_of c) c).
Proof.
  unfold CarControl.toMsg, bind, get, modify, lift_res, stringify.
  rewrite stringify_from_emitted; [reflexivity|].
  intros k Hin. unfold CarControl.actions_of in Hin. simpl in Hin.
  repeat (destruct Hin as [Hin|Hin]; [discriminate|]). exact Hin.
Qed.

(** On an unterminated datagram the learning driver answers with the neutral
    command; only [sensors], the three zeroed controls and the record of the
    last message built change. *)
Lemma learning_drive_malformed msg (d : LearningDriver.t) :
  parse msg = PyNone ->
  LearningDriver.drive msg d
  = (Ok (emitted (CarControl.actions_of (neutral (LearningDriver.control d)))),
     LearningDriver.set_control
       (CarControl.set_actions
          (CarControl.actions_of (neutral (LearningDriver.control d)))
          (neutral (LearningDriver.control d)))
       (LearningDriver.set_state
          (CarState.set_sensors PyNone (LearningDriver.state d)) d)).
Proof.
  intros Hp.
  unfold LearningDriver.drive, try_except.
  unfold bind at 1. unfold LearningDriver.in_state at 1. unfold zoom at 1.
  rewrite (setFromMsg_malformed msg _ Hp).
  unfold bind, LearningDriver.in_control, zoom, CarControl.setSteer,
    CarControl.setAccel, CarControl.setBrake, modify.
  cbn [LearningDriver.control LearningDriver.set_control LearningDriver.set_state].
  rewrite toMsg_run. reflexivity.
Qed.

Lemma malformed_nonempty msg : parse msg = PyNone -> nonempty msg = true.
Proof. destruct msg; [discriminate | reflexivity]. Qed.

Lemma neutral_text_nonempty (c : CarControl.t) :
  nonempty (emitted (CarControl.actions_of (neutral c))) = true.
Proof. reflexivity. Qed.

End Malformed.

(** C10 (amended).  When a racing-tick payload is an unterminated message and
    the policy is the learning driver, the failure is caught inside [drive]:
    the tick sends the neutral command (steer, accel and brake at 0.0, the
    other controls as they were), the telemetry attributes, the history
    windows and the previous RPM keep their values (only the raw [sensors]
    mapping becomes [None]), the step counter advances and the loop goes on
    to the next receive. *)
Theorem malformed_tick_sends_neutral_command `{PyRuntime} `{Trained}
    max_steps buf (c : PyClient.client (D := LearningDriver.t)) :
  parse buf = PyNone ->
  marker_free buf = true ->
  (PyClient.currentStep c + 1)%Z <> max_steps ->
  let command := neutral (LearningDriver.control (PyClient.d c)) in
  PyClient.tick max_steps (Some buf) c
  = ([PyClient.Drive buf;
      PyClient.CsvRow (PyClient.currentStep c + 1);
      PyClient.Send (emitted (CarControl.actions_of command))],
     PyClient.mk
       (LearningDriver.set_control
          (CarControl.set_actions (CarControl.actions_of command) command)
          (LearningDriver.set_state
             (CarState.set_sensors PyNone (LearningDriver.state (PyClient.d c)))
             (PyClient.d c)))
       (PyClient.currentStep c + 1) 0 (PyClient.shutdownClient c),
     PyClient.Racing).
Proof.
  intros Hp Hm Hs command.
  unfold PyClient.tick. unfold marker_free in Hm.
  apply andb_true_iff in Hm as [Hsd Hrs].
  apply negb_true_iff in Hsd, Hrs. rewrite Hsd, Hrs, !andb_false_r.
  apply Z.eqb_neq in Hs. rewrite Hs. cbn [negb].
  rewrite (malformed_nonempty buf Hp).
  cbn [policy_drive learning_policy].
  rewrite (learning_drive_malformed buf _ Hp).
  subst command. rewrite neutral_text_nonempty. reflexivity.
Qed.

Lemma malformed_tick_sends_neutral_command_witness :
  PyClient.tick 0 (Some (lit "(angle 1.0"))
    (PyClient.start
       (learning_driver_at (telemetry 3000 10 2) (commanded 0.6 2)))
  = ([PyClient.Drive (lit "(angle 1.0");
      PyClient.CsvRow 1;
      PyClient.Send
        (lit "(accel 0.0)(brake 0.0)(gear 2)(steer 0.0)(clutch 0.0)(focus 0)(meta 0)")],
     PyClient.mk
       (LearningDriver.set_control
          (CarControl.set_actions
             (CarControl.actions_of (neutral (commanded 0.6 2)))
             (neutral (commanded 0.6 2)))
          (learning_driver_at
             (CarState.set_sensors PyNone (telemetry 3000 10 2))
             (commanded 0.6 2)))
       1 0 false,
     PyClient.Racing).
Proof.
  rewrite (malformed_tick_sends_neutral_command 0 (lit "(angle 1.0")
             (PyClient.start
                (learning_driver_at (telemetry 3000 10 2) (commanded 0.6 2))));
    [reflexivity | reflexivity | reflexivity | discriminate].
Defined.

(** C10 as worded fails: no policy skips the tick.  The learning driver
    answers the unterminated datagram with the neutral command, which is
    sent; under the rule-based driver the [AttributeError] of [setFromMsg]
    leaves [drive] and ends the client. *)
Lemma malformed_tick_is_not_skipped :
  fst (fst (PyClient.tick 0 (Some (lit "(angle 1.0"))
              (PyClient.start (LearningDriver.new 3))))
  = [PyClient.Drive (lit "(angle 1.0");
     PyClient.CsvRow 1;
     PyClient.Send
       (lit "(accel 0.0)(brake 0.0)(gear 1)(steer 0.0)(clutch 0.0)(focus 0)(meta 0)")] /\
  snd (PyClient.tick 0 (Some (lit "(angle 1.0"))
         (PyClient.start (RuleDriver.new 3)))
  = PyClient.Crashed AttributeError.
Proof. split; vm_compute; reflexivity. Qed.

(** ** Restarting the learning driver *)

(** [onRestart] empties the history windows and touches nothing else: the
    previous RPM and the commanded controls stay. *)
Lemma onRestart_run `{PyRuntime} `{Trained} (d : LearningDriver.t) :
  LearningDriver.onRestart d
  = (Ok tt, LearningDriver.set_history
              (map (fun e => (fst e, [])) (LearningDriver.history d)) d).
Proof. reflexivity. Qed.

(** C9.  The code at the failing input: after five ticks at 7200 RPM the
    learning driver has commanded gear 4 and remembers 7200 as the previous
    RPM; [onRestart] empties the three history windows but keeps both, so the
    next [drive] answers with gear 4 where a freshly constructed driver
    answers the same datagram with gear 1. *)
Theorem onRestart_keeps_prev_rpm_and_gear :
  let used := snd (LearningDriver.onRestart
                     (driven_times 5 high_revs (LearningDriver.new 3))) in
  let fresh := LearningDriver.new 3 in
  LearningDriver.history used = LearningDriver.history fresh /\
  LearningDriver.prev_rpm used = PFloat 7200 /\
  LearningDriver.prev_rpm fresh = PInt 0 /\
  CarControl.gear (LearningDriver.control used) = PInt 4 /\
  CarControl.gear (LearningDriver.control fresh) = PInt 1 /\
  fst (LearningDriver.drive moderate_revs used)
  = Ok (lit "(accel 0.0)(brake 0.0)(gear 4)(steer 0.0)(clutch 0.0)(focus 0)(meta 0)") /\
  fst (LearningDriver.drive moderate_revs fresh)
  = Ok (lit "(accel 0.0)(brake 0.0)(gear 1)(steer 0.0)(clutch 0.0)(focus 0)(meta 0)").
Proof. vm_compute. repeat split; reflexivity. Qed.

(** The previous RPM that [onRestart] keeps biases the new episode: with an
    accel model that follows the RPM change, the first prediction after a
    restart differs from the first prediction of a fresh driver on the same
    five datagrams. *)
Lemma stale_prev_rpm_changes_first_prediction :
  let drive := @LearningDriver.drive decimal_runtime rpm_change_models in
  let run := @driven_times decimal_runtime rpm_change_models in
  let used := snd (LearningDriver.onRestart
                     (run 5 steady_revs (LearningDriver.new 3))) in
  let fresh := LearningDriver.new 3 in
  fst (drive steady_revs (run 4 steady_revs used))
  = Ok (lit "(accel 0.0)(brake 0.0)(gear 1)(steer 0.0)(clutch 0.0)(focus 0)(meta 0)") /\
  fst (drive steady_revs (run 4 steady_revs fresh))
  = Ok (lit "(accel 0.5)(brake 0.0)(gear 1)(steer 0.0)(clutch 0.0)(focus 0)(meta 0)").
Proof. vm_compute. split; reflexivity. Qed.

(** ** The recovery machine of the model driver *)

Section Recovery.
Context {X : Type} `{PyRuntime}.
Variable super_drive : str -> M (ModelDriver.base X) str.
Variable xg_model : option (list pyval -> res (Q * Q * Q)).

Lemma in_control_toMsg (d : ModelDriver.t X) :
  ModelDriver.in_control CarControl.toMsg d
  = (Ok (emitted (CarControl.actions_of (command d))),
     with_control (sent (command d)) d).
Proof.
  unfold ModelDriver.in_control, ModelDriver.in_base, zoom.
  rewrite toMsg_run. reflexivity.
Qed.

Lemma body_hold now t0 (d : ModelDriver.t X) :
  ModelDriver.in_post_recovery d = true ->
  ModelDriver.post_recovery_start_time d = Some t0 ->
  Qltb (now - t0) 4.0 = true ->
  ModelDriver.body xg_model now d
  = (Ok (ModelDriver.Return
           (emitted (CarControl.actions_of (hold_command (command d))))),
     with_control (sent (hold_command (command d))) d).
Proof.
  intros Hp Ht Hw. unfold ModelDriver.body.
  unfold bind at 1. unfold get at 1. cbv beta iota.
  rewrite Hp, Ht. cbn [of_float].
  unfold bind at 1. unfold bind at 1.
  unfold py_sub, py_arith, py_lt, bind, as_num, ret. rewrite Hw.
  unfold ModelDriver.in_control at 1 2 3, ModelDriver.in_base, zoom, modify.
  rewrite in_control_toMsg. reflexivity.
Qed.

Ltac open_driver d :=
  let b := fresh "b" in
  destruct d as [b ? ? ? ? ? ? ? ?]; destruct b as [? ? ?];
  cbn [ModelDriver.inherited ModelDriver.use_model ModelDriver.in_recovery
       ModelDriver.recovery_start_time ModelDriver.in_post_recovery
       ModelDriver.post_recovery_start_time ModelDriver.last_recovery_time
       ModelDriver.session_start_time ModelDriver.state ModelDriver.control] in *.

Lemma body_expired now t0 (d : ModelDriver.t X) :
  ModelDriver.in_post_recovery d = true ->
  ModelDriver.post_recovery_start_time d = Some t0 ->
  Qltb (now - t0) 4.0 = false ->
  ModelDriver.body xg_model now d
  = ModelDriver.body xg_model now (ModelDriver.set_in_post_recovery false d).
Proof.
  intros Hp Ht Hw. open_driver d. subst.
  unfold ModelDriver.body, bind, get, py_sub, py_arith, py_lt, bind, as_num, ret,
    modify.
  cbn [ModelDriver.in_post_recovery ModelDriver.post_recovery_start_time
       ModelDriver.set_in_post_recovery of_float].
  rewrite Hw. reflexivity.
Qed.

Lemma body_exit now t0 (d : ModelDriver.t X) :
  ModelDriver.in_post_recovery d = false ->
  ModelDriver.in_recovery d = true ->
  ModelDriver.recovery_start_time d = Some t0 ->
  Qltb 3.0 (now - t0) = true ->
  ModelDriver.body xg_model now d
  = (Ok (ModelDriver.Return
           (emitted (CarControl.actions_of (exit_command (command d))))),
     with_control (sent (exit_command (command d)))
       (ModelDriver.set_post_recovery_start_time (Some now)
          (ModelDriver.set_in_post_recovery true
             (ModelDriver.set_last_recovery_time now
                (ModelDriver.set_in_recovery false d))))).
Proof.
  intros Hp Hr Ht Hw. open_driver d. subst.
  unfold ModelDriver.body, bind, get, py_sub, py_arith, py_gt, bind, as_num, ret,
    modify.
  cbn [ModelDriver.in_post_recovery ModelDriver.in_recovery
       ModelDriver.recovery_start_time of_float].
  rewrite Hw.
  unfold ModelDriver.in_control at 1 2 3 4, ModelDriver.in_base, zoom, modify.
  rewrite in_control_toMsg. reflexivity.
Qed.

Lemma body_reverse now t0 angle (d : ModelDriver.t X) :
  ModelDriver.in_post_recovery d = false ->
  ModelDriver.in_recovery d = true ->
  ModelDriver.recovery_start_time d = Some t0 ->
  Qltb 3.0 (now - t0) = false ->
  CarState.angle (ModelDriver.state (ModelDriver.inherited d)) = Some angle ->
  ModelDriver.body xg_model now d
  = (Ok (ModelDriver.Return
           (emitted (CarControl.actions_of (reverse_command angle (command d))))),
     with_control (sent (reverse_command angle (command d))) d).
Proof.
  intros Hp Hr Ht Hw Ha. open_driver d. subst.
  unfold ModelDriver.body, bind, get, py_sub, py_arith, py_gt, py_lt, bind,
    as_num, ret, modify.
  cbn [ModelDriver.in_post_recovery ModelDriver.in_recovery
       ModelDriver.recovery_start_time ModelDriver.inherited ModelDriver.state
       of_float].
  rewrite Hw, Ha. cbn [of_float].
  unfold ModelDriver.in_control at 1 2 3, ModelDriver.in_base, zoom, modify.
  unfold reverse_command, counter_steer.
  destruct (Qltb 0.5 angle); [|destruct (Qltb angle (-0.5))];
    unfold ModelDriver.in_control at 1, ModelDriver.in_base, zoom, modify;
    rewrite in_control_toMsg; reflexivity.
Qed.

Lemma drive_unfold now later msg (d : ModelDriver.t X) r1 b1 :
  super_drive msg (ModelDriver.inherited d) = (Ok r1, b1) ->
  ModelDriver.use_model d = true ->
  ModelDriver.drive super_drive xg_model (now :: later) msg d
  = match ModelDriver.body xg_model now (ModelDriver.set_inherited b1 d) with
    | (Ok (ModelDriver.Return text), self) => Some (Ok text, self)
    | (Ok ModelDriver.Reinvoke, self) =>
        ModelDriver.drive super_drive xg_model later msg self
    | (Raise e, self) => Some (Raise e, self)
    end.
Proof.
  intros Hs Hu. cbn [ModelDriver.drive].
  unfold ModelDriver.in_base, zoom. rewrite Hs.
  cbn [ModelDriver.use_model ModelDriver.set_inherited]. rewrite Hu. reflexivity.
Qed.

Lemma body_hold_unset now (d : ModelDriver.t X) :
  ModelDriver.in_post_recovery d = true ->
  ModelDriver.post_recovery_start_time d = None ->
  ModelDriver.body xg_model now d = (Raise TypeError, d).
Proof.
  intros Hp Ht. open_driver d. subst. reflexivity.
Qed.

(** Outside both recovery phases the body follows the stuck test. *)
Lemma body_idle now (d : ModelDriver.t X) :
  ModelDriver.in_post_recovery d = false ->
  ModelDriver.in_recovery d = false ->
  ModelDriver.body xg_model now d
  = match stuck_outcome now d with
    | Ok true =>
        (Ok ModelDriver.Reinvoke,
         ModelDriver.set_recovery_start_time (Some now)
           (ModelDriver.set_in_recovery true d))
    | Ok false =>
        match xg_model with
        | None =>
            (Ok (ModelDriver.Return (emitted (CarControl.actions_of (command d)))),
             with_control (sent (command d)) d)
        | Some model =>
            match model (model_row d) with
            | Ok (steer, accel, brake) =>
                (Ok (ModelDriver.Return
                       (emitted (CarControl.actions_of
                                   (predicted_command steer accel brake (command d))))),
                 with_control
                   (sent (predicted_command steer accel brake (command d))) d)
            | Raise e => (Raise e, d)
            end
        end
    | Raise e => (Raise e, d)
    end.
Proof.
  intros Hp Hr. open_driver d. subst.
  unfold stuck_outcome, ModelDriver.body, bind, get, and_then, py_sub, py_arith,
    py_gt, py_lt, bind, as_num, ret, modify, raise, CarState.getSpeedX.
  cbn [ModelDriver.in_post_recovery ModelDriver.in_recovery
       ModelDriver.inherited ModelDriver.state ModelDriver.session_start_time
       ModelDriver.last_recovery_time of_float].
  match goal with
  | |- context [Qltb (inject_Z 5) (now - ?sst)] =>
      destruct (Qltb (inject_Z 5) (now - sst))
  end.
  1: match goal with
     | |- context [CarState.speedX ?st] => destruct (CarState.speedX st) as [speed|]
     end; cbn [of_float]; [|reflexivity].
  1: destruct (Qltb speed 0.3).
  1: match goal with
     | |- context [Qltb (inject_Z 5) (now - ?lrt)] =>
         destruct (Qltb (inject_Z 5) (now - lrt)); [reflexivity|]
     end.
  all: cbv beta iota;
    unfold ModelDriver._get_model_prediction, model_row, bind, get, ret, lift_res;
    (destruct xg_model as [model|]; cbv beta iota;
     [ cbn [ModelDriver.inherited ModelDriver.state];
       match goal with
       | |- context [model ?row] => destruct (model row) as [[[st ac] br]|e]
       end;
       cbv beta iota; [|reflexivity]
     | ]);
    try (unfold ModelDriver.in_control at 1 2 3, ModelDriver.in_base, zoom, modify);
    rewrite in_control_toMsg; reflexivity.
Qed.

Lemma stuck_outcome_true now (d : ModelDriver.t X) :
  stuck_outcome now d = Ok true ->
  exists speed,
    CarState.speedX (ModelDriver.state (ModelDriver.inherited d)) = Some speed /\
    stuck now speed d = true.
Proof.
  unfold stuck_outcome, stuck.
  destruct (Qltb (inject_Z 5) (now - ModelDriver.session_start_time d));
    [|discriminate].
  destruct (CarState.speedX _) as [speed|]; [|discriminate].
  destruct (Qltb speed 0.3) eqn:Es; [|discriminate].
  intros [= Hl]. exists speed. rewrite Es, Hl. split; reflexivity.
Qed.

Lemma stuck_outcome_known now speed (d : ModelDriver.t X) :
  CarState.speedX (ModelDriver.state (ModelDriver.inherited d)) = Some speed ->
  stuck_outcome now d = Ok (stuck now speed d).
Proof.
  unfold stuck_outcome, stuck. intros ->.
  destruct (Qltb (inject_Z 5) (now - ModelDriver.session_start_time d));
    [|reflexivity].
  destruct (Qltb speed 0.3); reflexivity.
Qed.

Lemma body_stuck now speed (d : ModelDriver.t X) :
  ModelDriver.in_post_recovery d = false ->
  ModelDriver.in_recovery d = false ->
  CarState.speedX (ModelDriver.state (ModelDriver.inherited d)) = Some speed ->
  stuck now speed d = true ->
  ModelDriver.body xg_model now d
  = (Ok ModelDriver.Reinvoke,
     ModelDriver.set_recovery_start_time (Some now)
       (ModelDriver.set_in_recovery true d)).
Proof.
  intros Hp Hr Hs Hk.
  rewrite (body_idle now d Hp Hr), (stuck_outcome_known now speed d Hs), Hk.
  reflexivity.
Qed.

(** A pass through the body that starts outside recovery either ends outside
    recovery, and not with a re-invocation, or is the stuck branch, taken at
    a reading more than five seconds after the last recovery. *)
Lemma body_from_normal now (d : ModelDriver.t X) :
  ModelDriver.in_recovery d = false ->
  (ModelDriver.in_recovery (snd (ModelDriver.body xg_model now d)) = false /\
   fst (ModelDriver.body xg_model now d) <> Ok ModelDriver.Reinvoke) \/
  (fst (ModelDriver.body xg_model now d) = Ok ModelDriver.Reinvoke /\
   Qltb (inject_Z 5) (now - ModelDriver.last_recovery_time d) = true).
Proof.
  intros Hr.
  assert (Hidle : forall d0 : ModelDriver.t X,
            ModelDriver.in_post_recovery d0 = false ->
            ModelDriver.in_recovery d0 = false ->
            ModelDriver.last_recovery_time d0 = ModelDriver.last_recovery_time d ->
            (ModelDriver.in_recovery (snd (ModelDriver.body xg_model now d0)) = false /\
             fst (ModelDriver.body xg_model now d0) <> Ok ModelDriver.Reinvoke) \/
            (fst (ModelDriver.body xg_model now d0) = Ok ModelDriver.Reinvoke /\
             Qltb (inject_Z 5) (now - ModelDriver.last_recovery_time d) = true)).
  { intros d0 Hp0 Hr0 Hl. rewrite (body_idle now d0 Hp0 Hr0).
    destruct (stuck_outcome now d0) as [[|]|e] eqn:Ek.
    - right. apply stuck_outcome_true in Ek as (speed & _ & Hk).
      unfold stuck in Hk. apply andb_true_iff in Hk as [_ Hk].
      apply andb_true_iff in Hk as [_ Hk]. rewrite Hl in Hk.
      split; [reflexivity | exact Hk].
    - left. destruct xg_model as [model|]; [|split; [exact Hr0 | discriminate]].
      destruct (model (model_row d0)) as [[[st ac] br]|e];
        (split; [exact Hr0 | discriminate]).
    - left. split; [exact Hr0 | discriminate]. }
  destruct (ModelDriver.in_post_recovery d) eqn:Hp; [|now apply Hidle].
  destruct (ModelDriver.post_recovery_start_time d) as [t0|] eqn:Ht.
  - destruct (Qltb (now - t0) 4.0) eqn:Hw.
    + left. rewrite (body_hold now t0 d Hp Ht Hw).
      split; [exact Hr | discriminate].
    + rewrite (body_expired now t0 d Hp Ht Hw).
      apply Hidle; [reflexivity | exact Hr | reflexivity].
  - left. rewrite (body_hold_unset now d Hp Ht).
    split; [exact Hr | discriminate].
Qed.

(** A call of [drive] takes the driver into recovery only at a clock reading
    more than five seconds after the recorded end of the last recovery. *)
Lemma reentry_after_cooldown times msg (d : ModelDriver.t X) r d' :
  ModelDriver.drive super_drive xg_model times msg d = Some (r, d') ->
  ModelDriver.in_recovery d = false ->
  ModelDriver.in_recovery d' = true ->
  exists now later,
    times = now :: later /\ (5 < now - ModelDriver.last_recovery_time d)%Q.
Proof.
  intros Hrun Hr Hr'.
  destruct times as [|now later]; cbn [ModelDriver.drive] in Hrun;
    unfold ModelDriver.in_base, zoom in Hrun;
    destruct (super_drive msg (ModelDriver.inherited d)) as [[r1|e] b1];
    cbn [ModelDriver.use_model ModelDriver.set_inherited] in Hrun;
    try (injection Hrun as _ <-; cbn in Hr'; congruence).
  - destruct (ModelDriver.use_model d); [discriminate|].
    injection Hrun as _ <-. cbn in Hr'. congruence.
  - destruct (ModelDriver.use_model d).
    + fold (ModelDriver.set_inherited b1 d) in Hrun.
      destruct (body_from_normal now (ModelDriver.set_inherited b1 d) Hr)
        as [[Hleft Hnot] | [Hre Hcool]].
      * destruct (ModelDriver.body xg_model now (ModelDriver.set_inherited b1 d))
          as [[[text|]|e] d2]; cbn [fst snd] in *.
        -- injection Hrun as _ <-. congruence.
        -- congruence.
        -- injection Hrun as _ <-. congruence.
      * exists now, later. split; [reflexivity|].
        apply Qltb_lt in Hcool. exact Hcool.
    + injection Hrun as _ <-. cbn in Hr'. congruence.
Qed.


Lemma stuck_false now speed (d : ModelDriver.t X) :
  ~ ((5 < now - ModelDriver.session_start_time d)%Q /\ (speed < 0.3)%Q /\
     (5 < now - ModelDriver.last_recovery_time d)%Q) ->
  stuck now speed d = false.
Proof.
  intros Hn. unfold stuck.
  destruct (Qltb (inject_Z 5) (now - ModelDriver.session_start_time d)) eqn:E1;
    [|reflexivity].
  destruct (Qltb speed 0.3) eqn:E2; [|reflexivity].
  destruct (Qltb (inject_Z 5) (now - ModelDriver.last_recovery_time d)) eqn:E3;
    [|reflexivity].
  exfalso. apply Hn. apply Qltb_lt in E1, E2, E3. repeat split; assumption.
Qed.

(** C4 (amended).  With model control switched on: (a) the first [drive]
    whose clock reading is more than 3 s after the start of the Reversing
    phase leaves it, records the reading as end of the recovery and start of
    the forward phase, and returns gear = 1, accel = 0.1, brake = 0,
    steer = 0; (b) every [drive] whose reading is less than 4 s after that
    start of the forward phase returns gear = 1, accel = 0.5, brake = 0 on
    top of whatever the inherited [drive] left, without consulting the model
    and without changing the recovery flags and timers; (c) the first [drive]
    at 4 s or more, when the stuck test fails, clears the forward phase and
    returns the command of the fitted model (the inherited command when no
    model is loaded); (d) whenever a [drive] takes the driver from outside
    recovery into recovery, its clock reading is more than 5 s after the
    recorded end of the last recovery. *)
Theorem recovery_exit_hold_resume_cooldown :
  (forall msg (d : ModelDriver.t X) now later r1 b1 t0,
     ModelDriver.use_model d = true ->
     ModelDriver.in_recovery d = true ->
     ModelDriver.in_post_recovery d = false ->
     ModelDriver.recovery_start_time d = Some t0 ->
     (3 < now - t0)%Q ->
     super_drive msg (ModelDriver.inherited d) = (Ok r1, b1) ->
     exists d',
       ModelDriver.drive super_drive xg_model (now :: later) msg d
       = Some (Ok (emitted (CarControl.actions_of (command d'))), d') /\
       ModelDriver.in_recovery d' = false /\
       ModelDriver.in_post_recovery d' = true /\
       ModelDriver.last_recovery_time d' = now /\
       ModelDriver.post_recovery_start_time d' = Some now /\
       CarControl.gear (command d') = PInt 1 /\
       CarControl.accel (command d') = PFloat 0.1 /\
       CarControl.brake (command d') = PFloat 0.0 /\
       CarControl.steer (command d') = PFloat 0.0) /\
  (forall msg (d : ModelDriver.t X) now later r1 b1 t0,
     ModelDriver.use_model d = true ->
     ModelDriver.in_post_recovery d = true ->
     ModelDriver.post_recovery_start_time d = Some t0 ->
     (now - t0 < 4)%Q ->
     super_drive msg (ModelDriver.inherited d) = (Ok r1, b1) ->
     exists d',
       ModelDriver.drive super_drive xg_model (now :: later) msg d
       = Some (Ok (emitted (CarControl.actions_of (command d'))), d') /\
       d' = with_control (sent (hold_command (ModelDriver.control b1)))
              (ModelDriver.set_inherited b1 d) /\
       ModelDriver.in_post_recovery d' = true /\
       ModelDriver.in_recovery d' = ModelDriver.in_recovery d /\
       ModelDriver.post_recovery_start_time d' = Some t0 /\
       ModelDriver.last_recovery_time d' = ModelDriver.last_recovery_time d /\
       CarControl.gear (command d') = PInt 1 /\
       CarControl.accel (command d') = PFloat 0.5 /\
       CarControl.brake (command d') = PFloat 0.0 /\
       CarControl.steer (command d') = CarControl.steer (ModelDriver.control b1)) /\
  (forall msg (d : ModelDriver.t X) now later r1 b1 t0 speed,
     ModelDriver.use_model d = true ->
     ModelDriver.in_post_recovery d = true ->
     ModelDriver.in_recovery d = false ->
     ModelDriver.post_recovery_start_time d = Some t0 ->
     (4 <= now - t0)%Q ->
     super_drive msg (ModelDriver.inherited d) = (Ok r1, b1) ->
     CarState.speedX (ModelDriver.state b1) = Some speed ->
     ~ ((5 < now - ModelDriver.session_start_time d)%Q /\ (speed < 0.3)%Q /\
        (5 < now - ModelDriver.last_recovery_time d)%Q) ->
     let resumed :=
       ModelDriver.set_in_post_recovery false (ModelDriver.set_inherited b1 d) in
     ModelDriver.drive super_drive xg_model (now :: later) msg d
     = match xg_model with
       | None =>
           Some (Ok (emitted (CarControl.actions_of (ModelDriver.control b1))),
                 with_control (sent (ModelDriver.control b1)) resumed)
       | Some model =>
           match model (model_row resumed) with
           | Ok (steer, accel, brake) =>
               Some (Ok (emitted (CarControl.actions_of
                                    (predicted_command steer accel brake
                                       (ModelDriver.control b1)))),
                     with_control
                       (sent (predicted_command steer accel brake
                                (ModelDriver.control b1))) resumed)
           | Raise e => Some (Raise e, resumed)
           end
       end) /\
  (forall times msg (d : ModelDriver.t X) r d',
     ModelDriver.drive super_drive xg_model times msg d = Some (r, d') ->
     ModelDriver.in_recovery d = false ->
     ModelDriver.in_recovery d' = true ->
     exists now later,
       times = now :: later /\ (5 < now - ModelDriver.last_recovery_time d)%Q).
Proof.
  split; [|split; [|split]].
  - intros msg d now later r1 b1 t0 Hum Hr Hp Ht Hlate Hs.
    rewrite (drive_unfold now later msg d r1 b1 Hs Hum).
    rewrite (body_exit now t0 (ModelDriver.set_inherited b1 d) Hp Hr Ht).
    2:{ apply Qltb_lt. lra. }
    exists (with_control (sent (exit_command (ModelDriver.control b1)))
              (ModelDriver.set_post_recovery_start_time (Some now)
                 (ModelDriver.set_in_post_recovery true
                    (ModelDriver.set_last_recovery_time now
                       (ModelDriver.set_in_recovery false
                          (ModelDriver.set_inherited b1 d)))))).
    repeat split; reflexivity.
  - intros msg d now later r1 b1 t0 Hum Hp Ht Hsoon Hs.
    rewrite (drive_unfold now later msg d r1 b1 Hs Hum).
    rewrite (body_hold now t0 (ModelDriver.set_inherited b1 d) Hp Ht).
    2:{ apply Qltb_lt. lra. }
    exists (with_control (sent (hold_command (ModelDriver.control b1)))
              (ModelDriver.set_inherited b1 d)).
    repeat split; try reflexivity; assumption.
  - intros msg d now later r1 b1 t0 speed Hum Hp Hr Ht Hlate Hs Hspeed Hns resumed.
    rewrite (drive_unfold now later msg d r1 b1 Hs Hum).
    rewrite (body_expired now t0 (ModelDriver.set_inherited b1 d) Hp Ht).
    2:{ apply Qltb_ge. lra. }
    fold resumed.
    rewrite (body_idle now resumed eq_refl Hr).
    rewrite (stuck_outcome_known now speed resumed Hspeed).
    replace (stuck now speed resumed) with false
      by (symmetry; apply (stuck_false now speed d Hns)).
    destruct xg_model as [model|]; [|reflexivity].
    destruct (model (model_row resumed)) as [[[st ac] br]|e]; reflexivity.
  - apply reentry_after_cooldown.
Qed.

End Recovery.



Lemma recovery_exit_hold_resume_cooldown_witness :
  (exists d',
     ModelDriver.drive telemetry_only None [9.5]%Q crawling reversing_since_6
     = Some (Ok (emitted (CarControl.actions_of (command d'))), d') /\
     ModelDriver.in_recovery d' = false /\
     ModelDriver.in_post_recovery d' = true /\
     ModelDriver.last_recovery_time d' = 9.5%Q /\
     CarControl.gear (command d') = PInt 1 /\
     CarControl.accel (command d') = PFloat 0.1 /\
     CarControl.steer (command d') = PFloat 0.0) /\
  (exists d',
     ModelDriver.drive telemetry_only None [12]%Q rolling forward_since_9_5
     = Some (Ok (emitted (CarControl.actions_of (command d'))), d') /\
     ModelDriver.in_post_recovery d' = true /\
     CarControl.gear (command d') = PInt 1 /\
     CarControl.accel (command d') = PFloat 0.5 /\
     CarControl.brake (command d') = PFloat 0.0) /\
  (let b1 := snd (telemetry_only rolling (ModelDriver.inherited forward_since_9_5)) in
   ModelDriver.drive telemetry_only None [13.5]%Q rolling forward_since_9_5
   = Some (Ok (emitted (CarControl.actions_of (ModelDriver.control b1))),
           with_control (sent (ModelDriver.control b1))
             (ModelDriver.set_in_post_recovery false
                (ModelDriver.set_inherited b1 forward_since_9_5)))) /\
  (exists now later,
     [6; 6.02]%Q = now :: later /\
     (5 < now - ModelDriver.last_recovery_time model_on)%Q).
Proof.
  destruct (recovery_exit_hold_resume_cooldown telemetry_only None)
    as (Hexit & Hhold & Hresume & Hcool).
  split; [|split; [|split]].
  - pose (first := telemetry_only crawling (ModelDriver.inherited reversing_since_6)).
    destruct (Hexit crawling reversing_since_6 9.5%Q [] (fst_text first) (snd first) 6%Q)
      as (d' & Hrun & Hr & Hp & Hl & _ & Hg & Ha & _ & Hs);
      try (vm_compute; reflexivity).
    exists d'. repeat (split; [assumption|]). exact Hs.
  - pose (first := telemetry_only rolling (ModelDriver.inherited forward_since_9_5)).
    destruct (Hhold rolling forward_since_9_5 12%Q [] (fst_text first) (snd first) 9.5%Q)
      as (d' & Hrun & _ & Hp & _ & _ & _ & Hg & Ha & Hb & _);
      try (vm_compute; reflexivity).
    exists d'. repeat (split; [assumption|]). exact Hb.
  - pose (first := telemetry_only rolling (ModelDriver.inherited forward_since_9_5)).
    apply (Hresume rolling forward_since_9_5 13.5%Q [] (fst_text first) (snd first)
             9.5%Q (inject_Z 5));
      try (vm_compute; reflexivity).
    + vm_compute. intros Hc. discriminate.
    + intros (_ & Hslow & _). vm_compute in Hslow. discriminate.
  - eapply (Hcool [6; 6.02]%Q crawling model_on).
    + lazy. reflexivity.
    + reflexivity.
    + reflexivity.
Defined.

(** C4 as worded fails.  Model control can be switched off while the driver
    is in the Reversing phase; a [drive] more than 3 s after the start of the
    phase then changes neither the recovery flags nor the command, which
    stays in reverse gear. *)
Lemma reversing_persists_with_model_off :
  exists d',
    ModelDriver.drive telemetry_only None [9.5]%Q crawling
      (ModelDriver.set_use_model false reversing_since_6)
    = Some (Ok (lit "(accel 0.3)(brake 0.0)(gear -1)(steer -0.5)(clutch 0.0)(focus 0)(meta 0)"),
            d') /\
    ModelDriver.in_recovery d' = true /\
    ModelDriver.in_post_recovery d' = false /\
    ModelDriver.last_recovery_time d' = 0%Q.
Proof.
  eexists. split; [vm_compute; reflexivity|].
  repeat split; reflexivity.
Qed.

(** ** Further properties of [parse] *)

Lemma parse_from_framed parts :
  forall tail d,
  well_framed parts tail ->
  parse_from (framed parts tail) d = Sensors (stored parts d).
Proof.
  unfold well_framed, framed, stored.
  induction parts as [|[junk body] parts IH]; intros tail d [Hparts Htail].
  - simpl. now apply parse_from_plain.
  - inversion Hparts as [|p ps [Hjunk Hbody] Hrest]; subst. simpl in Hjunk, Hbody.
    cbn [map List.concat fst snd fold_left].
    rewrite <- !app_assoc. rewrite parse_from_junk by exact Hjunk.
    cbn [app]. rewrite <- app_assoc. cbn [app].
    rewrite parse_from_group by exact Hbody.
    apply IH. now split.
Qed.

Lemma parse_from_cases n :
  forall s, List.length s <= n ->
  forall d,
  (parse_from s d = PyNone /\ unterminated s) \/
  (exists parts tail,
     s = framed parts tail /\ well_framed parts tail /\
     parse_from s d = Sensors (stored parts d)).
Proof.
  induction n as [|n IH]; intros s Hlen d;
    destruct (first_occurrence "(" s) as [Hno | (a & b & -> & Ha)].
  1,3: right; exists [], s; split; [reflexivity|]; split;
       [split; [constructor | exact Hno] | now apply parse_from_plain].
  - rewrite length_app in Hlen. simpl in Hlen. lia.
  - destruct (first_occurrence ")" b) as [Hno | (body & rest & -> & Hbody)].
    + left. split.
      * rewrite parse_from_junk by exact Ha. now apply parse_from_open.
      * now exists a, b.
    + assert (Hrest : List.length rest <= n).
      { rewrite !length_app in Hlen. simpl in Hlen.
        rewrite length_app in Hlen. simpl in Hlen. lia. }
      rewrite parse_from_junk by exact Ha.
      rewrite parse_from_group by exact Hbody.
      destruct (IH rest Hrest (store body d))
        as [[Hnone (a' & b' & -> & Hb')] | (parts & tail & -> & [Hparts Htail] & Hp)].
      * left. split; [exact Hnone|].
        exists (a ++ "("%char :: body ++ ")"%char :: a'), b'. split; [|exact Hb'].
        rewrite <- !app_assoc. cbn [app]. rewrite <- app_assoc. reflexivity.
      * right. exists ((a, body) :: parts), tail. split; [|split].
        -- unfold framed. cbn [map List.concat fst snd].
           rewrite <- !app_assoc. cbn [app]. rewrite <- app_assoc. reflexivity.
        -- split; [|exact Htail]. constructor; [now split | exact Hparts].
        -- exact Hp.
Qed.

(** X1.  [parse] fails on the unterminated messages and on no others. *)
Theorem parse_fails_only_on_unterminated (s : str) :
  parse s = PyNone <-> unterminated s.
Proof.
  split.
  - intros Hp.
    destruct (parse_from_cases (List.length s) s (le_n _) [])
      as [[_ Hu] | (parts & tail & _ & _ & Hs)]; [exact Hu|].
    unfold parse in Hp. congruence.
  - intros (a & b & -> & Hb).
    now apply (parse_from_unterminated (List.length a)).
Qed.

(** X2.  On every other message [parse] is the left-to-right run of the groups:
    text outside the parentheses is ignored, and each group body is stored
    in turn. *)
Theorem parse_is_fold_of_groups (s : str) (d : dict str (list str)) :
  parse s = Sensors d <->
  exists parts tail,
    s = framed parts tail /\ well_framed parts tail /\ d = stored parts [].
Proof.
  split.
  - intros Hp.
    destruct (parse_from_cases (List.length s) s (le_n _) [])
      as [[Hnone _] | (parts & tail & Hs & Hw & Hs')].
    + unfold parse in Hp. congruence.
    + exists parts, tail. split; [exact Hs|]. split; [exact Hw|].
      unfold parse in Hp. congruence.
  - intros (parts & tail & -> & Hw & ->).
    now apply parse_from_framed.
Qed.

(** ** Lookup after insertion *)

Lemma str_eqb_refl k : str_eqb k k = true.
Proof. now apply str_eqb_eq. Qed.

Lemma str_eqb_neq a b : a <> b -> str_eqb a b = false.
Proof.
  intros Hne. destruct (str_eqb a b) eqn:E; [|reflexivity].
  apply str_eqb_eq in E. contradiction.
Qed.

Lemma dict_get_set_same {V} k (v : V) d :
  dict_get str_eqb k (dict_set str_eqb k v d) = Some v.
Proof.
  induction d as [|[k' v'] d IH]; simpl.
  - now rewrite str_eqb_refl.
  - destruct (str_eqb k k') eqn:E; simpl; rewrite E; [reflexivity | exact IH].
Qed.

Lemma dict_get_set_other {V} k k' (v : V) d :
  k' <> k ->
  dict_get str_eqb k' (dict_set str_eqb k v d) = dict_get str_eqb k' d.
Proof.
  intros Hne. induction d as [|[k0 v0] d IH]; simpl.
  - now rewrite str_eqb_neq.
  - destruct (str_eqb k k0) eqn:E; simpl.
    + apply str_eqb_eq in E. subst k0. now rewrite str_eqb_neq.
    + now rewrite IH.
Qed.

Lemma keys_dict_set_present {V} k (v : V) d :
  In k (keys d) -> keys (dict_set str_eqb k v d) = keys d.
Proof.
  induction d as [|[k0 v0] d IH]; simpl; [contradiction|].
  intros [-> | Hin].
  - now rewrite str_eqb_refl.
  - destruct (str_eqb k k0) eqn:E; simpl; [reflexivity|].
    f_equal. now apply IH.
Qed.

(** X3.  A group whose tag the message already carried replaces the values of
    that tag and keeps its place; a new tag goes last; the other tags keep
    their values. *)
Theorem parse_later_group_replaces pre body post d k v vs :
  parse pre = Sensors d ->
  ~ In ")"%char body ->
  ~ In "("%char post ->
  split body = k :: v :: vs ->
  exists d',
    parse (pre ++ "("%char :: body ++ ")"%char :: post) = Sensors d' /\
    dict_get str_eqb k d' = Some (v :: vs) /\
    (forall k', k' <> k -> dict_get str_eqb k' d' = dict_get str_eqb k' d) /\
    (In k (keys d) -> keys d' = keys d) /\
    (~ In k (keys d) -> keys d' = keys d ++ [k]).
Proof.
  intros Hpre Hbody Hpost Hsplit.
  exists (dict_set str_eqb k (v :: vs) d). split; [|split; [|split; [|split]]].
  - unfold parse.
    rewrite (parse_from_app (List.length pre) pre (le_n _) _ [] d Hpre).
    rewrite parse_from_group by exact Hbody.
    rewrite parse_from_plain by exact Hpost.
    unfold store. rewrite Hsplit. reflexivity.
  - apply dict_get_set_same.
  - intros k' Hne. now apply dict_get_set_other.
  - apply keys_dict_set_present.
  - intros Hk. rewrite dict_set_fresh by exact Hk.
    unfold keys. now rewrite map_app.
Qed.

Lemma parse_later_group_replaces_witness :
  exists d',
    parse (lit "(rpm 3000)(gear 2)" ++ "("%char :: lit "rpm 3100" ++ ")"%char :: lit " ")
    = Sensors d' /\
    dict_get str_eqb (lit "rpm") d' = Some [lit "3100"] /\
    dict_get str_eqb (lit "gear") d' = Some [lit "2"] /\
    keys d' = [lit "rpm"; lit "gear"].
Proof.
  destruct (parse_later_group_replaces (lit "(rpm 3000)(gear 2)") (lit "rpm 3100")
              (lit " ") [(lit "rpm", [lit "3000"]); (lit "gear", [lit "2"])]
              (lit "rpm") (lit "3100") [])
    as (d' & Hp & Hk & Hother & Hkeys & _).
  - vm_compute. reflexivity.
  - intros Hin. simpl in Hin. intuition discriminate.
  - intros Hin. simpl in Hin. intuition discriminate.
  - vm_compute. reflexivity.
  - exists d'. split; [exact Hp|]. split; [exact Hk|]. split.
    + rewrite (Hother (lit "gear")) by discriminate. reflexivity.
    + apply Hkeys. simpl. now left.
Defined.

(** ** Further properties of [setFromMsg] *)

Section CarStateMore.
Context `{PyRuntime}.

Lemma float_reading_inj a b : float_reading a = float_reading b -> a = b.
Proof. destruct a, b; simpl; congruence. Qed.

Lemma int_reading_inj a b : int_reading a = int_reading b -> a = b.
Proof. destruct a, b; simpl; congruence. Qed.

Lemma floats_reading_inj a b : floats_reading a = floats_reading b -> a = b.
Proof. destruct a, b; simpl; congruence. Qed.

Lemma state_ext (a b : CarState.t) :
  CarState.sensors a = CarState.sensors b ->
  (forall f, read f a = read f b) ->
  a = b.
Proof.
  intros Hs Hf. destruct a, b. cbn [CarState.sensors] in Hs. subst.
  pose proof (Hf FAngle) as H1. pose proof (Hf FCurLapTime) as H2.
  pose proof (Hf FDamage) as H3. pose proof (Hf FDistFromStart) as H4.
  pose proof (Hf FDistRaced) as H5. pose proof (Hf FFocus) as H6.
  pose proof (Hf FFuel) as H7. pose proof (Hf FGear) as H8.
  pose proof (Hf FLastLapTime) as H9. pose proof (Hf FOpponents) as H10.
  pose proof (Hf FRacePos) as H11. pose proof (Hf FRpm) as H12.
  pose proof (Hf FSpeedX) as H13. pose proof (Hf FSpeedY) as H14.
  pose proof (Hf FSpeedZ) as H15. pose proof (Hf FTrack) as H16.
  pose proof (Hf FTrackPos) as H17. pose proof (Hf FWheelSpinVel) as H18.
  pose proof (Hf FZ) as H19. pose proof (Hf FX) as H20.
  pose proof (Hf FY) as H21.
  cbn [read CarState.angle CarState.curLapTime CarState.damage
       CarState.distFromStart CarState.distRaced CarState.focus CarState.fuel
       CarState.gear CarState.lastLapTime CarState.opponents CarState.racePos
       CarState.rpm CarState.speedX CarState.speedY CarState.speedZ
       CarState.track CarState.trackPos CarState.wheelSpinVel CarState.z
       CarState.x CarState.y] in *.
  repeat match goal with
         | E : float_reading _ = float_reading _ |- _ =>
             apply float_reading_inj in E
         | E : int_reading _ = int_reading _ |- _ => apply int_reading_inj in E
         | E : floats_reading _ = floats_reading _ |- _ =>
             apply floats_reading_inj in E
         end.
  subst. reflexivity.
Qed.

(** X4.  An unterminated message makes [setFromMsg] raise [AttributeError] at the
    first getter: the raw mapping is lost, every telemetry attribute keeps
    the value it had. *)
Theorem setFromMsg_unterminated_keeps_attributes msg (s : CarState.t) :
  unterminated msg ->
  exists s',
    CarState.setFromMsg msg s = (Raise AttributeError, s') /\
    CarState.sensors s' = PyNone /\
    forall f, read f s' = read f s.
Proof.
  intros (a & b & -> & Hb).
  exists (CarState.set_sensors PyNone s). split; [|split].
  - apply setFromMsg_malformed.
    now apply (parse_from_unterminated (List.length a)).
  - reflexivity.
  - intros f. destruct f; reflexivity.
Qed.

(** X5.  The state that a successful [setFromMsg] leaves depends on the message
    alone: nothing of the previous state survives. *)
Theorem setFromMsg_forgets_previous_state msg (s1 s2 s' : CarState.t) :
  CarState.setFromMsg msg s1 = (Ok tt, s') ->
  CarState.setFromMsg msg s2 = (Ok tt, s').
Proof.
  intros H1.
  destruct (parse msg) as [d|] eqn:Hp.
  - destruct (setFromMsg_result msg s1 s' d Hp H1) as [Hs1 Hall1].
    destruct (setFromMsg_succeeds msg s2 d Hp) as [s2' H2].
    { intros f. exists (read f s'). apply Hall1. }
    destruct (setFromMsg_result msg s2 s2' d Hp H2) as [Hs2 Hall2].
    rewrite H2. f_equal. apply state_ext; [congruence|].
    intros f. specialize (Hall1 f). specialize (Hall2 f). congruence.
  - rewrite (setFromMsg_malformed msg s1 Hp) in H1. discriminate.
Qed.

End CarStateMore.

Lemma setFromMsg_unterminated_keeps_attributes_witness :
  let s := snd (CarState.setFromMsg (lit "(angle 0.5)(rpm 3000)") CarState.new) in
  exists s',
    CarState.setFromMsg (lit "(angle 0.1)(rpm 3100") s = (Raise AttributeError, s') /\
    CarState.angle s' = Some 0.5%Q /\ CarState.rpm s' = Some 3000%Q.
Proof.
  intros s.
  destruct (setFromMsg_unterminated_keeps_attributes
              (lit "(angle 0.1)(rpm 3100") s) as (s' & Hrun & _ & Hkeep).
  - exists (lit "(angle 0.1)"), (lit "rpm 3100"). split; [reflexivity|].
    intros Hin. simpl in Hin. intuition discriminate.
  - exists s'. split; [exact Hrun|].
    pose proof (Hkeep FAngle) as Ha. pose proof (Hkeep FRpm) as Hr.
    vm_compute in Ha, Hr. simpl in Ha, Hr.
    split; [apply float_reading_inj; exact Ha | apply float_reading_inj; exact Hr].
Defined.

Lemma setFromMsg_forgets_previous_state_witness :
  let msg := lit "(rpm 3100)(gear 2)" in
  let s1 := snd (CarState.setFromMsg (lit "(angle 0.5)(rpm 3000)") CarState.new) in
  CarState.setFromMsg msg s1 = CarState.setFromMsg msg CarState.new.
Proof.
  intros msg s1.
  assert (H1 : CarState.setFromMsg msg CarState.new
               = (Ok tt, snd (CarState.setFromMsg msg CarState.new)))
    by (vm_compute; reflexivity).
  rewrite (setFromMsg_forgets_previous_state msg CarState.new s1 _ H1).
  exact (eq_sym H1).
Defined.

Section CarStatePartial.
Context `{PyRuntime}.

Lemma decode_in_float_raise f d e :
  decode f = (fun toks => map_res Float (CarState.first CarState.float toks)) ->
  field_float d (tag f) = Raise e -> decode_in d f = Raise e.
Proof.
  unfold field_float, decode_in. intros ->.
  destruct (dict_get str_eqb (tag f) d) as [toks|]; [|discriminate].
  destruct (CarState.first CarState.float toks); simpl; [discriminate | now intros [= <-]].
Qed.

Lemma decode_in_int_raise f d e :
  decode f = (fun toks => map_res Int (CarState.first CarState.int toks)) ->
  field_int d (tag f) = Raise e -> decode_in d f = Raise e.
Proof.
  unfold field_int, decode_in. intros ->.
  destruct (dict_get str_eqb (tag f) d) as [toks|]; [|discriminate].
  destruct (CarState.first CarState.int toks); simpl; [discriminate | now intros [= <-]].
Qed.

Lemma decode_in_floats_raise f d e :
  decode f = (fun toks => map_res Floats (CarState.floats toks)) ->
  field_floats d (tag f) = Raise e -> decode_in d f = Raise e.
Proof.
  unfold field_floats, decode_in. intros ->.
  destruct (dict_get str_eqb (tag f) d) as [toks|]; [|discriminate].
  destruct (CarState.floats toks); simpl; [discriminate | now intros [= <-]].
Qed.

Ltac stopped_at f :=
  match goal with
  | H : (Raise _, _) = (Raise _, _) |- _ => injection H as <- <-
  end;
  exists f; split;
  [ first [ apply decode_in_float_raise; [reflexivity | assumption]
          | apply decode_in_int_raise; [reflexivity | assumption]
          | apply decode_in_floats_raise; [reflexivity | assumption] ]
  | split; [reflexivity|]; split; intros g Hg; destruct g; cbn [position] in Hg;
    try (exfalso; lia);
    first [ reflexivity
          | apply decode_in_float; [reflexivity | assumption]
          | apply decode_in_int; [reflexivity | assumption]
          | apply decode_in_floats; [reflexivity | assumption] ] ].

Ltac stop_step H d f :=
  first [ rewrite (float_step _ _ _ _ d) in H by reflexivity
        | rewrite (int_step _ _ _ _ d) in H by reflexivity
        | rewrite (floats_step _ _ _ _ d) in H by reflexivity ];
  match type of H with
  | match ?x with _ => _ end = _ => destruct x eqn:?; [|stopped_at f]
  end.

(** X6.  When a tag carries a token that its decode rule rejects, [setFromMsg]
    raises at that attribute: the attributes assigned before it hold the new
    message, the attribute itself and those after it keep the old values. *)
Theorem setFromMsg_stops_at_first_bad_tag msg d (s s' : CarState.t) e :
  parse msg = Sensors d ->
  CarState.setFromMsg msg s = (Raise e, s') ->
  exists f,
    decode_in d f = Raise e /\
    CarState.sensors s' = Sensors d /\
    (forall g, position g < position f -> decode_in d g = Ok (read g s')) /\
    (forall g, position f <= position g -> read g s' = read g s).
Proof.
  intros Hp H0.
  unfold CarState.setFromMsg in H0. rewrite Hp in H0.
  unfold bind at 1 in H0. unfold modify at 1 in H0.
  unfold CarState.setAngleD, CarState.setCurLapTimeD, CarState.setDamageD,
    CarState.setDistFromStartD, CarState.setDistRacedD, CarState.setFocusD,
    CarState.setFuelD, CarState.setGearD, CarState.setLastLapTimeD,
    CarState.setOpponentsD, CarState.setRacePosD, CarState.setRpmD,
    CarState.setSpeedXD, CarState.setSpeedYD, CarState.setSpeedZD,
    CarState.setTrackD, CarState.setTrackPosD, CarState.setWheelSpinVelD,
    CarState.setZD, CarState.setXD, CarState.setYD in H0.
  stop_step H0 d FAngle. stop_step H0 d FCurLapTime.
  stop_step H0 d FDamage. stop_step H0 d FDistFromStart.
  stop_step H0 d FDistRaced. stop_step H0 d FFocus.
  stop_step H0 d FFuel. stop_step H0 d FGear.
  stop_step H0 d FLastLapTime. stop_step H0 d FOpponents.
  stop_step H0 d FRacePos. stop_step H0 d FRpm.
  stop_step H0 d FSpeedX. stop_step H0 d FSpeedY.
  stop_step H0 d FSpeedZ. stop_step H0 d FTrack.
  stop_step H0 d FTrackPos. stop_step H0 d FWheelSpinVel.
  stop_step H0 d FZ. stop_step H0 d FX.
  rewrite <- bind_ret in H0. stop_step H0 d FY.
  discriminate.
Qed.

End CarStatePartial.

Lemma setFromMsg_stops_at_first_bad_tag_witness :
  let s := snd (CarState.setFromMsg (lit "(angle 0.5)(gear 2)(rpm 3000)") CarState.new) in
  let s' := snd (CarState.setFromMsg (lit "(angle 0.1)(gear N)(rpm 3100)") s) in
  CarState.angle s' = Some 0.1%Q /\
  CarState.gear s' = Some 2%Z /\
  CarState.rpm s' = Some 3000%Q.
Proof.
  intros s s'.
  assert (Hp : parse (lit "(angle 0.1)(gear N)(rpm 3100)")
               = Sensors [(lit "angle", [lit "0.1"]); (lit "gear", [lit "N"]);
                          (lit "rpm", [lit "3100"])])
    by (vm_compute; reflexivity).
  assert (Hrun : CarState.setFromMsg (lit "(angle 0.1)(gear N)(rpm 3100)") s
                 = (Raise ValueError, s')) by (vm_compute; reflexivity).
  destruct (setFromMsg_stops_at_first_bad_tag _ _ s s' _ Hp Hrun)
    as (f & Hf & _ & Hbefore & Hafter).
  assert (Hgear : f = FGear).
  { destruct f; vm_compute in Hf; try discriminate Hf. reflexivity. }
  subst f.
  pose proof (Hbefore FAngle ltac:(cbn; lia)) as Ha.
  pose proof (Hafter FGear ltac:(cbn; lia)) as Hg.
  pose proof (Hafter FRpm ltac:(cbn; lia)) as Hr.
  split; [|split].
  - vm_compute in Ha. vm_compute. congruence.
  - vm_compute in Hg. vm_compute. congruence.
  - vm_compute in Hr. vm_compute. congruence.
Defined.

(** ** The command text read back *)

Section ControlText.
Context `{PyRuntime}.

Lemma group_single k v : group k [v] = group k (map PStr [py_str v]).
Proof. reflexivity. Qed.

Lemma skipped_single v : v <> PNone -> skipped (Some [v]) = false.
Proof. destruct v; [congruence | reflexivity..]. Qed.

Lemma emitted_cons_single k v rest :
  v <> PNone ->
  emitted ((k, Some [v]) :: rest) = group k (map PStr [py_str v]) ++ emitted rest.
Proof.
  intros Hv. unfold emitted. cbn [filter snd].
  rewrite (skipped_single v Hv). reflexivity.
Qed.

(** X7.  The text that [toMsg] returns, given to [parse], is the mapping of the
    seven control tags, in the order accel, brake, gear, steer, clutch,
    focus, meta, each with the one token that [str] makes of its value. *)
Theorem toMsg_text_parses_back (c : CarControl.t) :
  Forall (fun v => v <> PNone /\ wire_word (py_str v) = true)
    [CarControl.accel c; CarControl.brake c; CarControl.gear c;
     CarControl.steer c; CarControl.clutch c; CarControl.focus c;
     CarControl.meta c] ->
  exists text,
    CarControl.toMsg c
    = (Ok text, CarControl.set_actions (CarControl.actions_of c) c) /\
    parse text
    = Sensors [ (lit "accel", [py_str (CarControl.accel c)]);
                (lit "brake", [py_str (CarControl.brake c)]);
                (lit "gear", [py_str (CarControl.gear c)]);
                (lit "steer", [py_str (CarControl.steer c)]);
                (lit "clutch", [py_str (CarControl.clutch c)]);
                (lit "focus", [py_str (CarControl.focus c)]);
                (lit "meta", [py_str (CarControl.meta c)]) ].
Proof.
  intros Hall.
  exists (emitted (CarControl.actions_of c)). split; [apply toMsg_run|].
  repeat match goal with
         | H : Forall _ (_ :: _) |- _ =>
             let Hv := fresh "Hv" in
             let Hw := fresh "Hw" in
             inversion H as [|? ? [Hv Hw] ?]; subst; clear H
         end.
  unfold CarControl.actions_of.
  rewrite !emitted_cons_single by assumption.
  change (emitted []) with (@nil ascii).
  unfold parse.
  repeat (rewrite group_read;
          [| unfold wire_entry; cbn [fst snd nonempty forallb];
             rewrite ?andb_true_r; apply andb_true_iff; split;
             [reflexivity | assumption] ]).
  rewrite parse_from_plain by (intros []).
  reflexivity.
Qed.

End ControlText.

Lemma toMsg_text_parses_back_witness :
  exists text,
    CarControl.toMsg (commanded 0.5 3)
    = (Ok text,
       CarControl.set_actions (CarControl.actions_of (commanded 0.5 3))
         (commanded 0.5 3)) /\
    parse text
    = Sensors [ (lit "accel", [lit "0.5"]); (lit "brake", [lit "0.0"]);
                (lit "gear", [lit "3"]); (lit "steer", [lit "0.0"]);
                (lit "clutch", [lit "0.0"]); (lit "focus", [lit "0"]);
                (lit "meta", [lit "0"]) ].
Proof.
  destruct (toMsg_text_parses_back (commanded 0.5 3)) as (text & Hrun & Hp).
  - repeat constructor; try discriminate; vm_compute; reflexivity.
  - exists text. split; [exact Hrun|]. rewrite Hp. vm_compute. reflexivity.
Defined.

(** ** What methods leave alone *)

Section Silence.
Context {S : Type}.

Lemma silent_ret {A} (a : A) : silent (S := S) (ret a).
Proof. intros s. reflexivity. Qed.

Lemma silent_raise {A} e : silent (S := S) (A := A) (raise e).
Proof. intros s. reflexivity. Qed.

Lemma silent_get : silent (S := S) get.
Proof. intros s. reflexivity. Qed.

Lemma silent_lift_res {A} (r : res A) : silent (S := S) (lift_res r).
Proof. intros s. reflexivity. Qed.

Lemma silent_bind {A B} (m : M S A) (k : A -> M S B) :
  silent m -> (forall a, silent (k a)) -> silent (bind m k).
Proof.
  intros Hm Hk s. unfold bind. specialize (Hm s).
  destruct (m s) as [[a|e] s1]; simpl in Hm; subst; [apply Hk | reflexivity].
Qed.

Lemma silent_try {A} (m : M S A) (h : exn -> M S A) :
  silent m -> (forall e, silent (h e)) -> silent (try_except m h).
Proof.
  intros Hm Hh s. unfold try_except. specialize (Hm s).
  destruct (m s) as [[a|e] s1]; simpl in Hm; subst; [reflexivity | apply Hh].
Qed.

Lemma silent_as_num v : silent (S := S) (as_num v).
Proof. destruct v; intros ?; reflexivity. Qed.

Lemma silent_py_lt a b : silent (S := S) (py_lt a b).
Proof.
  unfold py_lt. repeat (apply silent_bind; [apply silent_as_num | intros ?]).
  apply silent_ret.
Qed.

Lemma silent_py_gt a b : silent (S := S) (py_gt a b).
Proof.
  unfold py_gt. repeat (apply silent_bind; [apply silent_as_num | intros ?]).
  apply silent_ret.
Qed.

Lemma silent_py_arith fz fq a b : silent (S := S) (py_arith fz fq a b).
Proof.
  unfold py_arith.
  destruct a, b; try apply silent_ret;
    repeat (apply silent_bind; [apply silent_as_num | intros ?]);
    apply silent_ret.
Qed.

Lemma silent_py_add a b : silent (S := S) (py_add a b).
Proof. apply silent_py_arith. Qed.

Lemma silent_py_sub a b : silent (S := S) (py_sub a b).
Proof. apply silent_py_arith. Qed.

Lemma silent_py_mul a b : silent (S := S) (py_mul a b).
Proof. apply silent_py_arith. Qed.

Lemma silent_py_div a b : silent (S := S) (py_div a b).
Proof.
  unfold py_div. repeat (apply silent_bind; [apply silent_as_num | intros ?]).
  apply silent_ret.
Qed.

Lemma silent_py_abs a : silent (S := S) (py_abs a).
Proof.
  unfold py_abs. destruct a; try apply silent_ret;
    (apply silent_bind; [apply silent_as_num | intros ?; apply silent_ret]).
Qed.

Lemma silent_py_max a b : silent (S := S) (py_max a b).
Proof.
  unfold py_max. apply silent_bind; [apply silent_py_gt | intros ?; apply silent_ret].
Qed.

Lemma silent_py_min a b : silent (S := S) (py_min a b).
Proof.
  unfold py_min. apply silent_bind; [apply silent_py_lt | intros ?; apply silent_ret].
Qed.

Lemma silent_and_then (a b : M S bool) :
  silent a -> silent b -> silent (and_then a b).
Proof.
  intros Ha Hb. unfold and_then. apply silent_bind; [exact Ha|].
  intros [|]; [exact Hb | apply silent_ret].
Qed.

Lemma silent_state {A} (m : M S A) s r s' :
  silent m -> m s = (r, s') -> s' = s.
Proof. intros Hm E. specialize (Hm s). rewrite E in Hm. exact Hm. Qed.

Lemma moves_silent {A} (P : S -> Prop) (m : M S A) : silent m -> moves P m P.
Proof. intros Hm s Hs. now rewrite Hm. Qed.

Lemma moves_weaken {A} (P Q Q' : S -> Prop) (m : M S A) :
  moves P m Q -> (forall s, Q s -> Q' s) -> moves P m Q'.
Proof. intros Hm Hq s Hs. apply Hq, Hm, Hs. Qed.

Lemma moves_bind {A B} (P R Q : S -> Prop) (m : M S A) (k : A -> M S B) :
  moves P m R -> (forall s, R s -> Q s) -> (forall a, moves R (k a) Q) ->
  moves P (bind m k) Q.
Proof.
  intros Hm Hrq Hk s Hs. unfold bind. specialize (Hm s Hs).
  destruct (m s) as [[a|e] s1]; simpl in Hm; [now apply Hk | now apply Hrq].
Qed.

Lemma keeps_bind {A B} (I : S -> Prop) (m : M S A) (k : A -> M S B) :
  moves I m I -> (forall a, moves I (k a) I) -> moves I (bind m k) I.
Proof. intros Hm Hk. now apply (moves_bind I I I). Qed.

Lemma moves_get_bind {B} (P Q : S -> Prop) (k : S -> M S B) :
  (forall s0, P s0 -> moves (fun s => s = s0) (k s0) Q) ->
  moves P (bind get k) Q.
Proof. intros Hk s Hs. unfold bind, get. now apply (Hk s Hs). Qed.

Lemma keeps_get_bind {B} (I : S -> Prop) (k : S -> M S B) :
  (forall s0, I s0 -> moves I (k s0) I) -> moves I (bind get k) I.
Proof. intros Hk s Hs. unfold bind, get. now apply (Hk s Hs). Qed.

Lemma moves_try {A} (P R Q : S -> Prop) (m : M S A) (h : exn -> M S A) :
  moves P m R -> (forall s, R s -> Q s) -> (forall e, moves R (h e) Q) ->
  moves P (try_except m h) Q.
Proof.
  intros Hm Hrq Hh s Hs. unfold try_except. specialize (Hm s Hs).
  destruct (m s) as [[a|e] s1]; simpl in Hm; [now apply Hrq | now apply Hh].
Qed.

Lemma moves_modify (P Q : S -> Prop) (f : S -> S) :
  (forall s, P s -> Q (f s)) -> moves P (modify f) Q.
Proof. intros Hf s Hs. now apply Hf. Qed.

Lemma moves_zoom {T A} (P Q : S -> Prop) (proj : S -> T) (inj : T -> S -> S)
    (m : M T A) :
  (forall s t, P s -> Q (inj t s)) -> moves P (zoom proj inj m) Q.
Proof.
  intros Hq s Hs. unfold zoom. destruct (m (proj s)) as [r t]. now apply Hq.
Qed.

End Silence.

(** ** The commands of the learning driver *)

Section LearningCommands.
Context `{PyRuntime} `{Trained}.

Lemma auto_shift_returns (d : LearningDriver.t) :
  fst (LearningDriver._auto_shift d) = Ok tt.
Proof.
  unfold LearningDriver._auto_shift, try_except.
  match goal with |- fst (match ?b with _ => _ end) = _ => destruct b as [[[]|e] s'] end;
    reflexivity.
Qed.

Lemma shifted_set_gear d0 a v :
  moves (shifted_from d0 a)
    (LearningDriver.in_control (modify (CarControl.set_gear v)))
    (shifted_from d0 a).
Proof.
  intros s (g & ac & -> & Hac). exists v, ac. split; [reflexivity | exact Hac].
Qed.

Lemma shifted_set_accel d0 a v :
  within 0 a v ->
  moves (shifted_from d0 a)
    (LearningDriver.in_control (modify (CarControl.set_accel v)))
    (shifted_from d0 a).
Proof.
  intros Hv s (g & ac & -> & Hac). exists g, v. split; [reflexivity | exact Hv].
Qed.

Lemma shifted_accel d0 a s :
  shifted_from d0 a s -> within 0 a (CarControl.accel (LearningDriver.control s)).
Proof. intros (g & ac & -> & Hac). exact Hac. Qed.

(** The rev-matching step of a downshift keeps the accel between 0 and its
    bound. *)
Lemma rev_match_within a v (S : Type) (s : S) less accel s1 s2 :
  within 0 a v ->
  py_sub v (PFloat 0.2) s = (Ok less, s1) ->
  py_max less (PInt 0) s1 = (Ok accel, s2) ->
  within 0 a accel.
Proof.
  intros (q & Hq & Hlo & Hhi) Hsub Hmax.
  destruct v as [|z|q'|t]; try discriminate; cbn in Hq; injection Hq as <-;
    cbn in Hsub; injection Hsub as <- <-;
    unfold py_max, py_gt, bind, as_num, ret in Hmax; cbn in Hmax;
    injection Hmax as <- _.
  - destruct (Qltb (inject_Z z - 0.2) (inject_Z 0)) eqn:E.
    + exists (inject_Z 0). split; [reflexivity|]. split; [apply Qle_refl|].
      exact (Qle_trans _ _ _ Hlo Hhi).
    + apply Qltb_ge in E. exists (inject_Z z - 0.2)%Q.
      split; [reflexivity|]. split; [exact E | lra].
  - destruct (Qltb (q' - 0.2) (inject_Z 0)) eqn:E.
    + exists (inject_Z 0). split; [reflexivity|]. split; [apply Qle_refl|].
      exact (Qle_trans _ _ _ Hlo Hhi).
    + apply Qltb_ge in E. exists (q' - 0.2)%Q.
      split; [reflexivity|]. split; [exact E | lra].
Qed.

Ltac quiet :=
  first [ apply silent_py_gt | apply silent_py_lt | apply silent_py_add
        | apply silent_py_sub | apply silent_py_max | apply silent_ret
        | apply silent_and_then; quiet ].

(** [_auto_shift] changes nothing but the commanded gear and accel, and an
    accel between 0 and [a] stays there. *)
Lemma auto_shift_keeps d0 a :
  moves (shifted_from d0 a) LearningDriver._auto_shift (shifted_from d0 a).
Proof.
  unfold LearningDriver._auto_shift.
  apply (moves_try _ (shifted_from d0 a)); [|auto|intros e; apply moves_silent, silent_ret].
  apply keeps_get_bind. intros self Hself.
  destruct (py_eq _ _).
  - apply keeps_bind; [apply moves_silent; quiet|]. intros [|].
    + apply shifted_set_gear.
    + apply moves_silent, silent_ret.
  - apply keeps_bind.
    + destruct (LearningDriver.threshold _ _) as [limit|];
        [|apply moves_silent, silent_ret].
      apply keeps_bind; [apply moves_silent; quiet|]. intros [|];
        [|apply moves_silent, silent_ret].
      apply keeps_bind; [apply moves_silent; quiet|]. intros [|];
        [|apply moves_silent, silent_ret].
      apply keeps_get_bind. intros self' Hself'.
      apply keeps_bind; [apply moves_silent; quiet|]. intros gear.
      apply shifted_set_gear.
    + intros _.
      destruct (LearningDriver.threshold _ _) as [limit|];
        [|apply moves_silent, silent_ret].
      apply keeps_bind; [apply moves_silent; quiet|]. intros [|];
        [|apply moves_silent, silent_ret].
      apply keeps_bind; [apply moves_silent; quiet|]. intros [|];
        [|apply moves_silent, silent_ret].
      apply keeps_get_bind. intros self' Hself'.
      apply keeps_bind; [apply moves_silent; quiet|]. intros pressed.
      apply keeps_bind.
      * destruct pressed; [|apply moves_silent, silent_ret].
        intros s Hs. unfold bind.
        destruct (py_sub _ _ s) as [[less|e] s1] eqn:Esub;
          [|now rewrite (silent_state _ _ _ _ (silent_py_sub _ _) Esub)].
        destruct (py_max _ _ s1) as [[accel|e] s2] eqn:Emax.
        -- assert (Hacc : within 0 a accel)
             by (eapply rev_match_within;
                 [apply (shifted_accel d0 a self' Hself') | exact Esub | exact Emax]).
           rewrite (silent_state _ _ _ _ (silent_py_max _ _) Emax).
           rewrite (silent_state _ _ _ _ (silent_py_sub _ _) Esub).
           now apply shifted_set_accel.
        -- rewrite (silent_state _ _ _ _ (silent_py_max _ _) Emax).
           now rewrite (silent_state _ _ _ _ (silent_py_sub _ _) Esub).
      * intros _. apply keeps_get_bind. intros self'' Hself''.
        apply keeps_bind; [apply moves_silent; quiet|]. intros gear.
        apply shifted_set_gear.
Qed.

End LearningCommands.

Section LearningDrive.
Context `{PyRuntime} `{Trained}.

Lemma learning_toMsg (d : LearningDriver.t) :
  LearningDriver.in_control CarControl.toMsg d
  = (Ok (emitted (CarControl.actions_of (LearningDriver.control d))),
     LearningDriver.set_control
       (CarControl.set_actions
          (CarControl.actions_of (LearningDriver.control d))
          (LearningDriver.control d)) d).
Proof.
  unfold LearningDriver.in_control, zoom. rewrite toMsg_run. reflexivity.
Qed.

(** The three assignments, the gear shift and the rendering in which both
    the warm-up and the prediction branch of [drive] end. *)
Lemma learning_tail (d : LearningDriver.t) st ac br :
  (0 <= ac)%Q ->
  exists gear accel,
    (LearningDriver.in_control (CarControl.setSteer (PFloat st)) ;;
     LearningDriver.in_control (CarControl.setAccel (PFloat ac)) ;;
     LearningDriver.in_control (CarControl.setBrake (PFloat br)) ;;
     LearningDriver._auto_shift ;;
     LearningDriver.in_control CarControl.toMsg) d
    = (Ok (emitted (CarControl.actions_of
                      (CarControl.set_accel accel
                         (CarControl.set_gear gear
                            (CarControl.set_brake (PFloat br)
                               (CarControl.set_steer (PFloat st)
                                  (LearningDriver.control d))))))),
       LearningDriver.set_control
         (sent (CarControl.set_accel accel
                  (CarControl.set_gear gear
                     (CarControl.set_brake (PFloat br)
                        (CarControl.set_steer (PFloat st)
                           (LearningDriver.control d)))))) d) /\
    within 0 ac accel /\
    LearningDriver._auto_shift
      (LearningDriver.set_control
         (CarControl.set_brake (PFloat br)
            (CarControl.set_accel (PFloat ac)
               (CarControl.set_steer (PFloat st) (LearningDriver.control d)))) d)
    = (Ok tt,
       LearningDriver.set_control
         (CarControl.set_accel accel
            (CarControl.set_gear gear
               (CarControl.set_brake (PFloat br)
                  (CarControl.set_steer (PFloat st)
                     (LearningDriver.control d))))) d).
Proof.
  intros Hac.
  destruct d as [stage state c hist prev ang].
  destruct c as [act a0 b0 g0 s0 cl fo me].
  set (d3 := LearningDriver.set_control
               (CarControl.set_brake (PFloat br)
                  (CarControl.set_accel (PFloat ac)
                     (CarControl.set_steer (PFloat st)
                        (CarControl.mk act a0 b0 g0 s0 cl fo me))))
               (LearningDriver.mk stage state
                  (CarControl.mk act a0 b0 g0 s0 cl fo me) hist prev ang)).
  assert (Hstart : shifted_from d3 ac d3).
  { exists g0, (PFloat ac). split; [reflexivity|].
    exists ac. split; [reflexivity|]. split; [exact Hac | apply Qle_refl]. }
  pose proof (auto_shift_keeps d3 ac d3 Hstart) as (gear & accel & Hd4 & Hwithin).
  pose proof (auto_shift_returns d3) as Hret.
  destruct (LearningDriver._auto_shift d3) as [r d4] eqn:Eshift.
  cbn [fst snd] in Hret, Hd4. subst r d4.
  exists gear, accel. split; [|split; [exact Hwithin | exact Eshift]].
  unfold bind at 1. unfold LearningDriver.in_control at 1, zoom at 1,
    CarControl.setSteer, modify at 1.
  unfold bind at 1. unfold LearningDriver.in_control at 1, zoom at 1,
    CarControl.setAccel, modify at 1.
  unfold bind at 1. unfold LearningDriver.in_control at 1, zoom at 1,
    CarControl.setBrake, modify at 1.
  unfold bind at 1.
  cbn [LearningDriver.control LearningDriver.set_control].
  match goal with
  | |- context [LearningDriver._auto_shift ?x] => change x with d3
  end.
  rewrite Eshift. rewrite learning_toMsg. reflexivity.
Qed.

End LearningDrive.

Section LearningKeeps.
Context `{PyRuntime} `{Trained}.

Variable I : LearningDriver.t -> Prop.
Hypothesis I_state : forall v d, I d -> I (LearningDriver.set_state v d).
Hypothesis I_prev : forall v d, I d -> I (LearningDriver.set_prev_rpm v d).
Hypothesis I_push :
  forall k v h d, I d ->
  dict_get str_eqb k (LearningDriver.history d) = Some h ->
  I (LearningDriver.set_history
       (dict_set str_eqb k (LearningDriver.push v h) (LearningDriver.history d)) d).

Lemma in_state_keeps {A} (m : M CarState.t A) :
  moves I (LearningDriver.in_state m) I.
Proof. apply moves_zoom. intros s t. apply I_state. Qed.

Lemma update_features_keeps l st :
  moves I (LearningDriver.update_features l st) I.
Proof.
  induction l as [|feature rest IH]; cbn [LearningDriver.update_features].
  - apply moves_silent, silent_ret.
  - apply keeps_bind; [apply moves_silent, silent_lift_res|]. intros value.
    intros s Hs. unfold bind, get.
    destruct (dict_get str_eqb feature (LearningDriver.history s)) as [hist|] eqn:E;
      [|exact Hs].
    unfold modify. apply IH. now apply I_push.
Qed.

Lemma update_history_keeps : moves I LearningDriver._update_history I.
Proof.
  unfold LearningDriver._update_history. apply keeps_get_bind.
  intros self _. apply update_features_keeps.
Qed.

Lemma silent_total {S} hist : silent (S := S) (LearningDriver.total hist).
Proof.
  induction hist as [|v hist IH]; cbn [LearningDriver.total]; [apply silent_ret|].
  apply silent_bind; [apply silent_as_num|]. intros x.
  apply silent_bind; [exact IH|]. intros rest. apply silent_ret.
Qed.

Lemma silent_mean_or_zero {S} hist :
  silent (S := S) (LearningDriver.mean_or_zero hist).
Proof.
  destruct hist as [|v hist]; [apply silent_ret|].
  unfold LearningDriver.mean_or_zero.
  apply silent_bind; [apply silent_total | intros ?; apply silent_ret].
Qed.

Lemma silent_history_of name : silent (LearningDriver.history_of name).
Proof.
  unfold LearningDriver.history_of. apply silent_bind; [apply silent_get|].
  intros self. destruct (dict_get _ _ _); [apply silent_ret | apply silent_raise].
Qed.

Lemma silent_moving_averages : silent LearningDriver._get_moving_averages.
Proof.
  unfold LearningDriver._get_moving_averages.
  repeat (apply silent_bind;
          [first [apply silent_history_of | apply silent_mean_or_zero] | intros ?]).
  apply silent_ret.
Qed.

Lemma prepare_features_keeps : moves I LearningDriver._prepare_features I.
Proof.
  unfold LearningDriver._prepare_features.
  apply (moves_try _ I); [|auto|intros e; apply moves_silent, silent_ret].
  apply keeps_get_bind. intros self _.
  do 3 (apply keeps_bind; [apply moves_silent, silent_as_num | intros ?]).
  apply keeps_bind; [apply moves_silent, silent_history_of | intros ha].
  apply keeps_bind.
  { destruct (nonempty ha); apply moves_silent;
      [apply silent_py_sub | apply silent_ret]. }
  intros angle_change.
  apply keeps_bind; [apply moves_silent, silent_py_sub | intros rpm_change].
  apply keeps_bind; [apply moves_modify; intros s; apply I_prev | intros _].
  apply keeps_bind; [apply moves_silent, silent_moving_averages | intros ma].
  do 2 (apply keeps_bind; [apply moves_silent, silent_py_mul | intros ?]).
  apply keeps_bind; [apply moves_silent, silent_py_abs | intros ?].
  do 8 (apply keeps_bind; [apply moves_silent, silent_as_num | intros ?]).
  apply moves_silent, silent_ret.
Qed.

End LearningKeeps.

Lemma bind_raise {S A B} (m : M S A) (k : A -> M S B) s e s' :
  bind m k s = (Raise e, s') ->
  m s = (Raise e, s') \/ exists a s1, m s = (Ok a, s1) /\ k a s1 = (Raise e, s').
Proof.
  unfold bind. destruct (m s) as [[a|e0] s1]; [eauto|].
  intros [= -> ->]. now left.
Qed.

Lemma clip_range v lo hi :
  (lo <= hi)%Q -> (lo <= clip v lo hi)%Q /\ (clip v lo hi <= hi)%Q.
Proof.
  intros Hle. unfold clip. split.
  - apply Q.min_glb; [apply Q.le_max_r | exact Hle].
  - apply Q.le_min_r.
Qed.

Section LearningOutcome.
Context `{PyRuntime} `{Trained}.

Lemma safety_constraints_safe (p : Q * Q * Q) :
  let '(steer, accel, brake) := LearningDriver._apply_safety_constraints p in
  safe_triple steer accel brake.
Proof.
  destruct p as [[st ac] br]. unfold LearningDriver._apply_safety_constraints.
  pose proof (clip_range st (-1.0) 1.0 ltac:(lra)) as [Hs1 Hs2].
  pose proof (clip_range ac 0.0 1.0 ltac:(lra)) as [Ha1 Ha2].
  pose proof (clip_range br 0.0 1.0 ltac:(lra)) as [Hb1 Hb2].
  destruct (Qltb 0.1 (clip br 0.0 1.0)) eqn:E; unfold safe_triple.
  - repeat split; try lra.
  - apply Qltb_ge in E. repeat split; try lra.
Qed.

Lemma safe_triple_zero : safe_triple 0.0 0.0 0.0.
Proof. unfold safe_triple. repeat split; lra. Qed.

(** What [drive] comes to.  It always returns the text of the command it
    leaves; the command is the old one with steer and brake assigned, and
    with gear and accel as [_auto_shift] left them (the failure branch assigns
    zeros and does not shift). *)
Lemma learning_drive_outcome msg (d : LearningDriver.t) :
  exists steer accel0 brake gear accel s,
    LearningDriver.drive msg d
    = (Ok (emitted (CarControl.actions_of
                      (answered steer brake gear accel (LearningDriver.control d)))),
       LearningDriver.set_control
         (sent (answered steer brake gear accel (LearningDriver.control d))) s) /\
    LearningDriver.control s = LearningDriver.control d /\
    safe_triple steer accel0 brake /\
    within 0 accel0 accel /\
    (windows_full s = false -> steer = 0.0%Q /\ accel0 = 0.0%Q /\ brake = 0.0%Q) /\
    ((gear = CarControl.gear (LearningDriver.control d) /\
      steer = 0.0%Q /\ accel0 = 0.0%Q /\ brake = 0.0%Q)
     \/
     LearningDriver._auto_shift
       (LearningDriver.set_control
          (CarControl.set_brake (PFloat brake)
             (CarControl.set_accel (PFloat accel0)
                (CarControl.set_steer (PFloat steer) (LearningDriver.control s)))) s)
     = (Ok tt,
        LearningDriver.set_control
          (answered steer brake gear accel (LearningDriver.control s)) s)).
Proof.
  set (K := fun x : LearningDriver.t =>
              LearningDriver.control x = LearningDriver.control d).
  assert (Kstate : forall v x, K x -> K (LearningDriver.set_state v x))
    by (intros v x Hx; exact Hx).
  assert (Kprev : forall v x, K x -> K (LearningDriver.set_prev_rpm v x))
    by (intros v x Hx; exact Hx).
  assert (Kpush : forall k v h x, K x ->
            dict_get str_eqb k (LearningDriver.history x) = Some h ->
            K (LearningDriver.set_history
                 (dict_set str_eqb k (LearningDriver.push v h)
                    (LearningDriver.history x)) x))
    by (intros k v h x Hx _; exact Hx).
  assert (Hfail : forall s, K s ->
            exists steer accel0 brake gear accel s0,
              (LearningDriver.in_control (CarControl.setSteer (PFloat 0.0)) ;;
               LearningDriver.in_control (CarControl.setAccel (PFloat 0.0)) ;;
               LearningDriver.in_control (CarControl.setBrake (PFloat 0.0)) ;;
               LearningDriver.in_control CarControl.toMsg) s
              = (Ok (emitted (CarControl.actions_of
                                (answered steer brake gear accel
                                   (LearningDriver.control d)))),
                 LearningDriver.set_control
                   (sent (answered steer brake gear accel
                            (LearningDriver.control d))) s0) /\
              LearningDriver.control s0 = LearningDriver.control d /\
              safe_triple steer accel0 brake /\
              within 0 accel0 accel /\
              (windows_full s0 = false ->
               steer = 0.0%Q /\ accel0 = 0.0%Q /\ brake = 0.0%Q) /\
              ((gear = CarControl.gear (LearningDriver.control d) /\
                steer = 0.0%Q /\ accel0 = 0.0%Q /\ brake = 0.0%Q)
               \/
               LearningDriver._auto_shift
                 (LearningDriver.set_control
                    (CarControl.set_brake (PFloat brake)
                       (CarControl.set_accel (PFloat accel0)
                          (CarControl.set_steer (PFloat steer)
                             (LearningDriver.control s0)))) s0)
               = (Ok tt,
                  LearningDriver.set_control
                    (answered steer brake gear accel (LearningDriver.control s0))
                    s0))).
  { intros s Hs.
    exists 0.0%Q, 0.0%Q, 0.0%Q, (CarControl.gear (LearningDriver.control d)),
      (PFloat 0.0), s.
    split; [|split; [exact Hs|split; [apply safe_triple_zero|split; [|split]]]].
    - unfold bind, LearningDriver.in_control at 1 2 3, zoom, CarControl.setSteer,
        CarControl.setAccel, CarControl.setBrake, modify.
      rewrite learning_toMsg.
      cbn [LearningDriver.control LearningDriver.set_control].
      unfold K in Hs. rewrite Hs.
      destruct s as [stage state c hist prev ang].
      destruct (LearningDriver.control d) as [act a0 b0 g0 s0 cl fo me].
      reflexivity.
    - exists 0.0%Q. split; [reflexivity|]. split; [lra | apply Qle_refl].
    - intros _. repeat split.
    - left. repeat split. }
  assert (Htail : forall sx st ac br,
            K sx -> safe_triple st ac br ->
            (windows_full sx = false ->
             st = 0.0%Q /\ ac = 0.0%Q /\ br = 0.0%Q) ->
            exists steer accel0 brake gear accel s0,
              (LearningDriver.in_control (CarControl.setSteer (PFloat st)) ;;
               LearningDriver.in_control (CarControl.setAccel (PFloat ac)) ;;
               LearningDriver.in_control (CarControl.setBrake (PFloat br)) ;;
               LearningDriver._auto_shift ;;
               LearningDriver.in_control CarControl.toMsg) sx
              = (Ok (emitted (CarControl.actions_of
                                (answered steer brake gear accel
                                   (LearningDriver.control d)))),
                 LearningDriver.set_control
                   (sent (answered steer brake gear accel
                            (LearningDriver.control d))) s0) /\
              LearningDriver.control s0 = LearningDriver.control d /\
              safe_triple steer accel0 brake /\
              within 0 accel0 accel /\
              (windows_full s0 = false ->
               steer = 0.0%Q /\ accel0 = 0.0%Q /\ brake = 0.0%Q) /\
              ((gear = CarControl.gear (LearningDriver.control d) /\
                steer = 0.0%Q /\ accel0 = 0.0%Q /\ brake = 0.0%Q)
               \/
               LearningDriver._auto_shift
                 (LearningDriver.set_control
                    (CarControl.set_brake (PFloat brake)
                       (CarControl.set_accel (PFloat accel0)
                          (CarControl.set_steer (PFloat steer)
                             (LearningDriver.control s0)))) s0)
               = (Ok tt,
                  LearningDriver.set_control
                    (answered steer brake gear accel (LearningDriver.control s0))
                    s0))).
  { intros sx st ac br Hsx Hsafe Hwarm.
    destruct (learning_tail sx st ac br) as (gear & accel & Hrun & Hw & Hshift).
    { apply Hsafe. }
    exists st, ac, br, gear, accel, sx.
    unfold K in Hsx. unfold answered. rewrite <- Hsx.
    split; [exact Hrun|]. split; [reflexivity|]. split; [exact Hsafe|].
    split; [exact Hw|]. split; [exact Hwarm|]. right. exact Hshift. }
  unfold LearningDriver.drive, try_except.
  match goal with
  | |- context [match ?b d with _ => _ end] => destruct (b d) as [[text|e] s'] eqn:Ebody
  end.
  - apply bind_ok in Ebody as (u1 & s1 & E1 & Ebody).
    apply bind_ok in Ebody as (u2 & s2 & E2 & Ebody).
    unfold bind at 1, get at 1 in Ebody.
    assert (K1 : K s1).
    { pose proof (in_state_keeps K Kstate (CarState.setFromMsg msg) d eq_refl) as Hk.
      now rewrite E1 in Hk. }
    assert (K2 : K s2).
    { pose proof (update_history_keeps K Kpush s1 K1) as Hk.
      now rewrite E2 in Hk. }
    fold (windows_full s2) in Ebody.
    destruct (windows_full s2) eqn:Efull; cbn [negb] in Ebody.
    + apply bind_ok in Ebody as (features & s3 & E3 & Ebody).
      assert (K3 : K s3).
      { pose proof (prepare_features_keeps K Kprev s2 K2) as Hk.
        now rewrite E3 in Hk. }
      pose proof (safety_constraints_safe
                    (LearningDriver.prediction (lit "steer") features,
                     LearningDriver.prediction (lit "accel") features,
                     LearningDriver.prediction (lit "brake") features)) as Hsafe.
      destruct (LearningDriver._apply_safety_constraints _) as [[st ac] br].
      assert (Efull3 : windows_full s3 = true).
      { pose proof (prepare_features_keeps
                      (fun x => windows_full x = true)
                      (fun v x Hx => Hx) s2 Efull) as Hk.
        now rewrite E3 in Hk. }
      destruct (Htail s3 st ac br K3 Hsafe) as (a1 & a2 & a3 & a4 & a5 & a6 & Hrun & Hrest).
      { rewrite Efull3. discriminate. }
      rewrite Hrun in Ebody. injection Ebody as <- <-.
      exists a1, a2, a3, a4, a5, a6. split; [reflexivity | exact Hrest].
    + destruct (Htail s2 0.0%Q 0.0%Q 0.0%Q K2 safe_triple_zero)
        as (a1 & a2 & a3 & a4 & a5 & a6 & Hrun & Hrest).
      { intros _. repeat split. }
      rewrite Hrun in Ebody. injection Ebody as <- <-.
      exists a1, a2, a3, a4, a5, a6. split; [reflexivity | exact Hrest].
  - apply Hfail.
    apply bind_raise in Ebody as [E1 | (u1 & s1 & E1 & Ebody)].
    { pose proof (in_state_keeps K Kstate (CarState.setFromMsg msg) d eq_refl) as Hk.
      now rewrite E1 in Hk. }
    assert (K1 : K s1).
    { pose proof (in_state_keeps K Kstate (CarState.setFromMsg msg) d eq_refl) as Hk.
      now rewrite E1 in Hk. }
    apply bind_raise in Ebody as [E2 | (u2 & s2 & E2 & Ebody)].
    { pose proof (update_history_keeps K Kpush s1 K1) as Hk.
      now rewrite E2 in Hk. }
    assert (K2 : K s2).
    { pose proof (update_history_keeps K Kpush s1 K1) as Hk.
      now rewrite E2 in Hk. }
    unfold bind at 1, get at 1 in Ebody.
    destruct (negb _).
    + destruct (learning_tail s2 0.0 0.0 0.0) as (gear & accel & Hrun & _);
        [lra|]. rewrite Hrun in Ebody. discriminate.
    + apply bind_raise in Ebody as [E3 | (features & s3 & E3 & Ebody)].
      { pose proof (prepare_features_keeps K Kprev s2 K2) as Hk.
        now rewrite E3 in Hk. }
      destruct (LearningDriver._apply_safety_constraints _) as [[st ac] br] eqn:Es.
      pose proof (safety_constraints_safe
                    (LearningDriver.prediction (lit "steer") features,
                     LearningDriver.prediction (lit "accel") features,
                     LearningDriver.prediction (lit "brake") features)) as Hsafe.
      rewrite Es in Hsafe.
      destruct (learning_tail s3 st ac br) as (gear & accel & Hrun & _);
        [apply Hsafe|]. rewrite Hrun in Ebody. discriminate.
Qed.

End LearningOutcome.

Section LearningGear.
Context `{PyRuntime} `{Trained}.

Lemma moves_get_keep {S B} (P Q : S -> Prop) (k : S -> M S B) :
  (forall s0, P s0 -> moves P (k s0) Q) -> moves P (bind get k) Q.
Proof. intros Hk s Hs. unfold bind, get. now apply (Hk s Hs). Qed.

Lemma in_control_modify (f : CarControl.t -> CarControl.t) (s : LearningDriver.t) :
  LearningDriver.in_control (modify f) s
  = (Ok tt, LearningDriver.set_control (f (LearningDriver.control s)) s).
Proof. reflexivity. Qed.

(** From a forward gear [_auto_shift] moves at most one gear, and stays
    within 1..6, whatever the telemetry holds. *)
Lemma auto_shift_gear (d : LearningDriver.t) g :
  CarControl.gear (LearningDriver.control d) = PInt g ->
  (1 <= g <= 6)%Z ->
  gear_near g (snd (LearningDriver._auto_shift d)).
Proof.
  intros Hg Hrange.
  set (G1 := fun s : LearningDriver.t =>
               exists g1, CarControl.gear (LearningDriver.control s) = PInt g1 /\
                          (g <= g1 <= g + 1)%Z /\ (g1 <= 6)%Z).
  assert (Hd : G1 d) by (exists g; split; [exact Hg | lia]).
  assert (Hnear : forall s, G1 s -> gear_near g s).
  { intros s (g1 & H1 & H2 & H3). exists g1. split; [exact H1 | lia]. }
  assert (Hsame : forall s, s = d -> G1 s) by (intros s ->; exact Hd).
  unfold LearningDriver._auto_shift.
  apply (moves_try (fun s => s = d) (gear_near g) (gear_near g)); [|auto| |reflexivity].
  2:{ intros e. apply moves_silent, silent_ret. }
  intros s ->. unfold bind at 1, get at 1. rewrite Hg. cbn [py_eq].
  destruct (Z.eqb_spec g (-1)) as [Hm|_]; [lia|].
  apply (moves_bind (fun s => s = d) G1 (gear_near g)); [|exact Hnear| |reflexivity].
  - (* the upshift block *)
    destruct (LearningDriver.threshold LearningDriver.upshift_rpm (PInt g))
      as [limit|]; [|intros s ->; exact Hd].
    change (py_lt (S := LearningDriver.t) (PInt g) (PInt 6))
      with (ret (S := LearningDriver.t) (Qltb (inject_Z g) (inject_Z 6))).
    intros s ->. unfold bind at 1, ret at 1.
    destruct (Qltb (inject_Z g) (inject_Z 6)) eqn:Eb; [|exact Hd].
    apply inject_Z_ltb in Eb.
    apply (moves_bind (fun s => s = d) (fun s => s = d) G1); [|exact Hsame| |reflexivity].
    { apply moves_silent, silent_and_then; apply silent_py_gt. }
    intros [|]; [|intros s ->; exact Hd].
    intros s ->. unfold bind at 1, get at 1. rewrite Hg.
    change (py_add (S := LearningDriver.t) (PInt g) (PInt 1))
      with (ret (S := LearningDriver.t) (PInt (g + 1))).
    unfold bind at 1, ret at 1. rewrite in_control_modify. cbn [snd].
    exists (g + 1)%Z. split; [reflexivity | lia].
  - (* the downshift block *)
    intros _.
    destruct (LearningDriver.threshold LearningDriver.downshift_rpm (PInt g))
      as [limit|]; [|intros s Hs; apply Hnear; exact Hs].
    change (py_gt (S := LearningDriver.t) (PInt g) (PInt 1))
      with (ret (S := LearningDriver.t) (Qltb (inject_Z 1) (inject_Z g))).
    intros s Hs. unfold bind at 1, ret at 1.
    destruct (Qltb (inject_Z 1) (inject_Z g)) eqn:Ea; [|apply Hnear; exact Hs].
    apply inject_Z_ltb in Ea.
    apply (moves_bind G1 G1 (gear_near g)); [|exact Hnear| |exact Hs].
    { apply moves_silent, silent_py_lt. }
    intros [|]; [|intros s1 Hs1; apply Hnear; exact Hs1].
    apply moves_get_keep. intros self _.
    apply (moves_bind G1 G1 (gear_near g)); [|exact Hnear|].
    { apply moves_silent, silent_py_gt. }
    intros pressed.
    apply (moves_bind G1 G1 (gear_near g)); [|exact Hnear|].
    { destruct pressed; [|apply moves_silent, silent_ret].
      apply keeps_bind; [apply moves_silent, silent_py_sub | intros less].
      apply keeps_bind; [apply moves_silent, silent_py_max | intros accel].
      intros s1 Hs1. rewrite in_control_modify. exact Hs1. }
    intros _ s1 (g1 & Hg1 & Hb1 & Hb2). unfold bind at 1, get at 1. rewrite Hg1.
    change (py_sub (S := LearningDriver.t) (PInt g1) (PInt 1))
      with (ret (S := LearningDriver.t) (PInt (g1 - 1))).
    unfold bind at 1, ret at 1. rewrite in_control_modify. cbn [snd].
    exists (g1 - 1)%Z. split; [reflexivity | lia].
Qed.

(** X8.  [drive] always returns, and what it returns is the text of the command
    it leaves in [control]. *)
Theorem learning_drive_always_answers msg (d : LearningDriver.t) :
  exists text d',
    LearningDriver.drive msg d = (Ok text, d') /\
    text = emitted (CarControl.actions_of (LearningDriver.control d')).
Proof.
  destruct (learning_drive_outcome msg d)
    as (st & ac & br & gear & accel & s & Hrun & _).
  eexists _, _. split; [exact Hrun|]. reflexivity.
Qed.

(** X9.  Whatever the message and whatever the models predict, the command that
    [drive] leaves has steer in [-1, 1], accel and brake in [0, 1], and no
    accel while the brake is above 0.1. *)
Theorem learning_drive_commands_in_range msg (d : LearningDriver.t) :
  let c := LearningDriver.control (snd (LearningDriver.drive msg d)) in
  within (-1) 1 (CarControl.steer c) /\
  within 0 1 (CarControl.accel c) /\
  within 0 1 (CarControl.brake c) /\
  (forall b, num_of (CarControl.brake c) = Some b -> (0.1 < b)%Q ->
   within 0 0 (CarControl.accel c)).
Proof.
  destruct (learning_drive_outcome msg d)
    as (st & ac & br & gear & accel & s & Hrun & _ & Hsafe & Hacc & _).
  rewrite Hrun. cbn [snd LearningDriver.control LearningDriver.set_control].
  unfold sent, answered.
  cbn [CarControl.steer CarControl.accel CarControl.brake CarControl.set_actions
       CarControl.set_accel CarControl.set_gear CarControl.set_brake
       CarControl.set_steer].
  destruct Hsafe as ([Hs1 Hs2] & [Ha1 Ha2] & [Hb1 Hb2] & Hex).
  destruct Hacc as (q & Hq & Hq1 & Hq2).
  split; [|split; [|split]].
  - exists st. split; [reflexivity|]. split; lra.
  - exists q. split; [exact Hq|]. split; lra.
  - exists br. split; [reflexivity|]. split; lra.
  - intros b [= <-] Hb. specialize (Hex Hb).
    exists q. split; [exact Hq|]. split; lra.
Qed.

(** X10.  From a forward gear, [drive] moves the commanded gear by at most one
    step and keeps it within 1..6: the learning driver never selects
    neutral or reverse by itself. *)
Theorem learning_drive_keeps_forward_gear msg (d : LearningDriver.t) g :
  CarControl.gear (LearningDriver.control d) = PInt g ->
  (1 <= g <= 6)%Z ->
  exists g',
    CarControl.gear (LearningDriver.control (snd (LearningDriver.drive msg d)))
    = PInt g' /\
    (g - 1 <= g' <= g + 1)%Z /\ (1 <= g' <= 6)%Z.
Proof.
  intros Hg Hrange.
  destruct (learning_drive_outcome msg d)
    as (st & ac & br & gear & accel & s & Hrun & Hs & _ & _ & _ & Hshift).
  rewrite Hrun. cbn [snd LearningDriver.control LearningDriver.set_control].
  unfold sent, answered.
  cbn [CarControl.gear CarControl.set_actions CarControl.set_accel
       CarControl.set_gear].
  destruct Hshift as [(-> & _) | Hshift].
  - exists g. split; [exact Hg | lia].
  - assert (Hg3 : CarControl.gear
                     (LearningDriver.control
                        (LearningDriver.set_control
                           (CarControl.set_brake (PFloat br)
                              (CarControl.set_accel (PFloat ac)
                                 (CarControl.set_steer (PFloat st)
                                    (LearningDriver.control s)))) s))
                   = PInt g) by (rewrite Hs; exact Hg).
    pose proof (auto_shift_gear _ g Hg3 Hrange) as Hnear.
    rewrite Hshift in Hnear. rewrite Hs in Hnear. exact Hnear.
Qed.

End LearningGear.

Lemma learning_drive_keeps_forward_gear_witness :
  exists g',
    CarControl.gear
      (LearningDriver.control
         (snd (LearningDriver.drive high_revs
                 (learning_driver_at (telemetry 7200 10 3) (commanded 0.5 3)))))
    = PInt g' /\
    (3 - 1 <= g' <= 3 + 1)%Z /\ (1 <= g' <= 6)%Z.
Proof.
  apply (learning_drive_keeps_forward_gear high_revs
           (learning_driver_at (telemetry 7200 10 3) (commanded 0.5 3)) 3).
  - reflexivity.
  - lia.
Defined.

Section LearningHistory.
Context `{PyRuntime} `{Trained}.

Variable I : LearningDriver.t -> Prop.
Hypothesis I_state : forall v d, I d -> I (LearningDriver.set_state v d).
Hypothesis I_control : forall v d, I d -> I (LearningDriver.set_control v d).
Hypothesis I_prev : forall v d, I d -> I (LearningDriver.set_prev_rpm v d).
Hypothesis I_push :
  forall k v h d, I d ->
  dict_get str_eqb k (LearningDriver.history d) = Some h ->
  I (LearningDriver.set_history
       (dict_set str_eqb k (LearningDriver.push v h) (LearningDriver.history d)) d).

Lemma in_control_keeps {A} (m : M CarControl.t A) :
  moves I (LearningDriver.in_control m) I.
Proof. apply moves_zoom. intros s t. apply I_control. Qed.

Ltac hush :=
  first [ apply silent_py_gt | apply silent_py_lt | apply silent_py_add
        | apply silent_py_sub | apply silent_py_max | apply silent_ret
        | apply silent_and_then; hush ].

Lemma auto_shift_keeps_any : moves I LearningDriver._auto_shift I.
Proof.
  unfold LearningDriver._auto_shift.
  apply (moves_try _ I); [|auto|intros e; apply moves_silent, silent_ret].
  apply keeps_get_bind. intros self _.
  destruct (py_eq _ _).
  - apply keeps_bind; [apply moves_silent; hush|]. intros [|].
    + apply in_control_keeps.
    + apply moves_silent, silent_ret.
  - apply keeps_bind.
    + destruct (LearningDriver.threshold _ _) as [limit|];
        [|apply moves_silent, silent_ret].
      apply keeps_bind; [apply moves_silent; hush|]. intros [|];
        [|apply moves_silent, silent_ret].
      apply keeps_bind; [apply moves_silent; hush|]. intros [|];
        [|apply moves_silent, silent_ret].
      apply keeps_get_bind. intros self' _.
      apply keeps_bind; [apply moves_silent; hush|]. intros gear.
      apply in_control_keeps.
    + intros _.
      destruct (LearningDriver.threshold _ _) as [limit|];
        [|apply moves_silent, silent_ret].
      apply keeps_bind; [apply moves_silent; hush|]. intros [|];
        [|apply moves_silent, silent_ret].
      apply keeps_bind; [apply moves_silent; hush|]. intros [|];
        [|apply moves_silent, silent_ret].
      apply keeps_get_bind. intros self' _.
      apply keeps_bind; [apply moves_silent; hush|]. intros pressed.
      apply keeps_bind.
      * destruct pressed; [|apply moves_silent, silent_ret].
        apply keeps_bind; [apply moves_silent; hush|]. intros less.
        apply keeps_bind; [apply moves_silent; hush|]. intros accel.
        apply in_control_keeps.
      * intros _. apply keeps_get_bind. intros self'' _.
        apply keeps_bind; [apply moves_silent; hush|]. intros gear.
        apply in_control_keeps.
Qed.

(** [drive] keeps whatever every assignment it makes keeps. *)
Lemma learning_drive_keeps msg : moves I (LearningDriver.drive msg) I.
Proof.
  unfold LearningDriver.drive.
  apply (moves_try _ I); [|auto|].
  - apply keeps_bind; [apply in_state_keeps, I_state | intros _].
    apply keeps_bind; [apply update_history_keeps, I_push | intros _].
    apply keeps_get_bind. intros self _.
    destruct (negb _).
    + do 3 (apply keeps_bind; [apply in_control_keeps | intros _]).
      apply keeps_bind; [apply auto_shift_keeps_any | intros _].
      apply in_control_keeps.
    + apply keeps_bind; [apply prepare_features_keeps, I_prev | intros features].
      destruct (LearningDriver._apply_safety_constraints _) as [[st ac] br].
      do 3 (apply keeps_bind; [apply in_control_keeps | intros _]).
      apply keeps_bind; [apply auto_shift_keeps_any | intros _].
      apply in_control_keeps.
  - intros e.
    do 3 (apply keeps_bind; [apply in_control_keeps | intros _]).
    apply in_control_keeps.
Qed.

End LearningHistory.

Lemma push_length v h :
  List.length h <= LearningDriver.window_size ->
  List.length (LearningDriver.push v h) <= LearningDriver.window_size.
Proof.
  unfold LearningDriver.push, LearningDriver.window_size. intros Hh.
  destruct (5 <? List.length (h ++ [v])) eqn:E.
  - destruct h as [|x h]; simpl in *; [lia|].
    rewrite length_app. simpl. lia.
  - apply Nat.ltb_ge in E. exact E.
Qed.

Lemma push_length_next v h :
  List.length (LearningDriver.push v h) <= S (List.length h).
Proof.
  unfold LearningDriver.push.
  destruct (_ <? _).
  - destruct h as [|x h]; simpl; [lia|]. rewrite length_app. simpl. lia.
  - rewrite length_app. simpl. lia.
Qed.

Lemma Forall_dict_set {V} (Q : V -> Prop) k v (d : dict str V) :
  Forall (fun e => Q (snd e)) d -> Q v ->
  Forall (fun e => Q (snd e)) (dict_set str_eqb k v d).
Proof.
  intros Hd Hv. induction d as [|[k' v'] d IH]; simpl.
  - constructor; [exact Hv | constructor].
  - inversion Hd as [|? ? H1 H2]; subst.
    destruct (str_eqb k k'); constructor; auto.
Qed.

(** X11.  The history windows never grow beyond five samples: a fresh driver has
    them empty, [drive] keeps them bounded on every message, and [onRestart]
    empties them. *)
Theorem history_windows_stay_bounded `{PyRuntime} `{Trained} :
  (forall stage, windows_bounded (LearningDriver.new stage)) /\
  (forall msg d, windows_bounded d ->
                 windows_bounded (snd (LearningDriver.drive msg d))) /\
  (forall d, Forall (fun e => snd e = [])
               (LearningDriver.history (snd (LearningDriver.onRestart d))) /\
             keys (LearningDriver.history (snd (LearningDriver.onRestart d)))
             = keys (LearningDriver.history d)).
Proof.
  split; [|split].
  - intros stage. unfold windows_bounded, LearningDriver.new.
    cbn [LearningDriver.history]. repeat constructor.
  - intros msg d Hd.
    apply (learning_drive_keeps windows_bounded); try (intros; assumption).
    intros k v h x Hx Hk. unfold windows_bounded in *.
    cbn [LearningDriver.history LearningDriver.set_history].
    apply (Forall_dict_set (fun h => List.length h <= LearningDriver.window_size));
      [exact Hx|].
    apply push_length.
    clear - Hx Hk. induction (LearningDriver.history x) as [|[k' h'] l IH];
      [discriminate|].
    inversion Hx as [|? ? H1 H2]; subst. simpl in Hk.
    destruct (str_eqb k k'); [injection Hk as <-; exact H1 | now apply IH].
  - intros d. unfold LearningDriver.onRestart, modify.
    cbn [snd LearningDriver.history LearningDriver.set_history].
    split.
    + apply Forall_forall. intros e Hin. apply in_map_iff in Hin as (e' & <- & _).
      reflexivity.
    + unfold keys. rewrite map_map. reflexivity.
Qed.

Lemma dict_get_In {V} k (v : V) d :
  dict_get str_eqb k d = Some v -> In (k, v) d.
Proof.
  induction d as [|[k' v'] d IH]; simpl; [discriminate|].
  destruct (str_eqb k k') eqn:E.
  - apply str_eqb_eq in E. subst. intros [= ->]. now left.
  - intros Hk. right. now apply IH.
Qed.

Section LearningWarmUp.
Context `{PyRuntime} `{Trained}.

(** One pass of [_update_history] over distinct keys appends one sample to
    the window of each key visited and leaves the other windows alone. *)
Lemma update_features_windows l st :
  NoDup l ->
  forall d d' k h,
  LearningDriver.update_features l st d = (Ok tt, d') ->
  dict_get str_eqb k (LearningDriver.history d) = Some h ->
  exists h',
    dict_get str_eqb k (LearningDriver.history d') = Some h' /\
    ((~ In k l /\ h' = h) \/ (In k l /\ exists v, h' = LearningDriver.push v h)).
Proof.
  induction l as [|feature rest IH]; intros Hnd d d' k h Hrun Hk.
  - cbn in Hrun. injection Hrun as <-. exists h. split; [exact Hk|]. left. auto.
  - inversion Hnd as [|? ? Hfresh Hnd']; subst.
    cbn [LearningDriver.update_features] in Hrun.
    apply bind_ok in Hrun as (value & s1 & Ev & Hrun).
    unfold lift_res in Ev. injection Ev as Ev <-.
    unfold bind at 1, get at 1 in Hrun.
    destruct (dict_get str_eqb feature (LearningDriver.history d)) as [hist|] eqn:Ef;
      [|discriminate].
    unfold bind at 1, modify at 1 in Hrun.
    destruct (list_eq_dec ascii_dec k feature) as [->|Hne].
    + rewrite Hk in Ef. injection Ef as <-.
      destruct (IH Hnd' _ d' feature (LearningDriver.push value h) Hrun)
        as (h' & Hh' & [[_ ->] | [Hin _]]).
      * cbn [LearningDriver.history LearningDriver.set_history].
        apply dict_get_set_same.
      * exists (LearningDriver.push value h). split; [exact Hh'|].
        right. split; [now left | now exists value].
      * contradiction.
    + destruct (IH Hnd' _ d' k h Hrun) as (h' & Hh' & Hcase).
      * cbn [LearningDriver.history LearningDriver.set_history].
        rewrite dict_get_set_other by exact Hne. exact Hk.
      * exists h'. split; [exact Hh'|].
        destruct Hcase as [[Hnot ->] | [Hin Hv]].
        -- left. split; [|reflexivity]. intros [Heq|Hin]; [congruence | contradiction].
        -- right. split; [now right | exact Hv].
Qed.

Lemma learning_fallback (s : LearningDriver.t) :
  (LearningDriver.in_control (CarControl.setSteer (PFloat 0.0)) ;;
   LearningDriver.in_control (CarControl.setAccel (PFloat 0.0)) ;;
   LearningDriver.in_control (CarControl.setBrake (PFloat 0.0)) ;;
   LearningDriver.in_control CarControl.toMsg) s
  = (Ok (emitted (CarControl.actions_of (neutral (LearningDriver.control s)))),
     LearningDriver.set_control (sent (neutral (LearningDriver.control s))) s).
Proof.
  unfold bind, LearningDriver.in_control at 1 2 3, zoom, CarControl.setSteer,
    CarControl.setAccel, CarControl.setBrake, modify.
  rewrite learning_toMsg. reflexivity.
Qed.

(** X12.  While a window of the history holds fewer than four samples, [drive]
    does not consult the models: the command it leaves has steer and brake
    0.0 and an accel of zero. *)
Theorem learning_drive_warms_up msg (d : LearningDriver.t) k h :
  NoDup (keys (LearningDriver.history d)) ->
  dict_get str_eqb k (LearningDriver.history d) = Some h ->
  List.length h < 4 ->
  let c := LearningDriver.control (snd (LearningDriver.drive msg d)) in
  CarControl.steer c = PFloat 0.0 /\
  CarControl.brake c = PFloat 0.0 /\
  within 0 0 (CarControl.accel c).
Proof.
  intros Hnd Hk Hshort.
  unfold LearningDriver.drive, try_except.
  match goal with
  | |- context [match ?b d with _ => _ end] => destruct (b d) as [[text|e] s'] eqn:Ebody
  end.
  - apply bind_ok in Ebody as (u1 & s1 & E1 & Ebody).
    apply bind_ok in Ebody as ([] & s2 & E2 & Ebody).
    unfold bind at 1, get at 1 in Ebody.
    assert (H1 : LearningDriver.history s1 = LearningDriver.history d).
    { pose proof (in_state_keeps
                    (fun x => LearningDriver.history x = LearningDriver.history d)
                    (fun v x Hx => Hx) (CarState.setFromMsg msg) d eq_refl) as Hk1.
      now rewrite E1 in Hk1. }
    unfold LearningDriver._update_history in E2.
    unfold bind at 1, get at 1 in E2.
    rewrite H1 in E2. rewrite <- H1 in Hk.
    destruct (update_features_windows _ _ Hnd s1 s2 k h E2 Hk)
      as (h' & Hh' & Hcase).
    assert (Hlen : List.length h' < 5).
    { destruct Hcase as [[_ ->] | [_ (v & ->)]]; [lia|].
      pose proof (push_length_next v h). lia. }
    assert (Hfull : forallb
                      (fun e => List.length (snd e) =? LearningDriver.window_size)
                      (LearningDriver.history s2) = false).
    { destruct (forallb _ _) eqn:Ef; [|reflexivity].
      rewrite forallb_forall in Ef. apply dict_get_In in Hh'.
      specialize (Ef _ Hh'). cbn [snd] in Ef. apply Nat.eqb_eq in Ef.
      unfold LearningDriver.window_size in Ef. lia. }
    rewrite Hfull in Ebody. cbn [negb] in Ebody.
    destruct (learning_tail s2 0.0 0.0 0.0) as (gear & accel & Hrun & Hw & _); [lra|].
    rewrite Hrun in Ebody. injection Ebody as _ <-.
    cbn [snd LearningDriver.control LearningDriver.set_control].
    split; [reflexivity|]. split; [reflexivity|].
    destruct Hw as (q & Hq & Hq1 & Hq2). exists q.
    split; [exact Hq|]. split; lra.
  - rewrite learning_fallback.
    cbn [snd LearningDriver.control LearningDriver.set_control].
    split; [reflexivity|]. split; [reflexivity|].
    exists 0.0%Q. split; [reflexivity|]. split; lra.
Qed.

End LearningWarmUp.

Lemma learning_drive_warms_up_witness :
  let d := snd (LearningDriver.onRestart
                  (driven_times 5 high_revs (LearningDriver.new 3))) in
  let c := LearningDriver.control (snd (LearningDriver.drive high_revs d)) in
  CarControl.steer c = PFloat 0.0 /\
  CarControl.brake c = PFloat 0.0 /\
  within 0 0 (CarControl.accel c).
Proof.
  intros d.
  apply (learning_drive_warms_up high_revs d (lit "SpeedX") []).
  - vm_compute. repeat constructor; simpl; intuition discriminate.
  - vm_compute. reflexivity.
  - simpl. lia.
Defined.

(** ** The rule-based driver *)

Section RuleCommands.
Context `{PyRuntime}.

Lemma rule_in_control_modify (f : CarControl.t -> CarControl.t) (s : RuleDriver.t) :
  RuleDriver.in_control (modify f) s
  = (Ok tt, RuleDriver.set_control (f (RuleDriver.control s)) s).
Proof. reflexivity. Qed.

Lemma rule_toMsg (d : RuleDriver.t) :
  RuleDriver.in_control CarControl.toMsg d
  = (Ok (emitted (CarControl.actions_of (RuleDriver.control d))),
     RuleDriver.set_control (sent (RuleDriver.control d)) d).
Proof.
  unfold RuleDriver.in_control, zoom. rewrite toMsg_run. reflexivity.
Qed.

(** The look-ahead block of [speed] changes nothing. *)
Lemma silent_ahead (track_sensors : option (list Q)) (turn_sharpness : pyval) :
  silent (S := RuleDriver.t)
    (match track_sensors with
     | Some sensors =>
         if nonempty sensors && (RuleDriver.LOOK_AHEAD_DISTANCE <=? List.length sensors) then
           match list_min (firstn RuleDriver.LOOK_AHEAD_DISTANCE sensors) with
           | Some min_track_ahead =>
               if Qltb min_track_ahead (inject_Z RuleDriver.CURVE_DETECTION_THRESHOLD) then
                 let curve_factor :=
                   (min_track_ahead / inject_Z RuleDriver.CURVE_DETECTION_THRESHOLD)%Q in
                 factor <- py_max (PFloat curve_factor)
                                  (PFloat RuleDriver.SPEED_REDUCTION_FACTOR) ;;
                 more <- py_add turn_sharpness
                           (PFloat ((1 - curve_factor) * 0.3)%Q) ;;
                 ret (factor, more)
               else ret (PFloat 1.0, turn_sharpness)
           | None => ret (PFloat 1.0, turn_sharpness)
           end
         else ret (PFloat 1.0, turn_sharpness)
     | None => ret (PFloat 1.0, turn_sharpness)
     end).
Proof.
  destruct track_sensors as [sensors|]; [|apply silent_ret].
  destruct (_ && _); [|apply silent_ret].
  destruct (list_min _) as [m|]; [|apply silent_ret].
  destruct (Qltb _ _); [|apply silent_ret].
  cbv zeta.
  apply silent_bind; [apply silent_py_max | intros ?].
  apply silent_bind; [apply silent_py_add | intros ?]. apply silent_ret.
Qed.

(** The final clamp of [speed]. *)
Lemma clamp_within {S} (s s1 s2 : S) accel capped out :
  py_min (PFloat 1.0) accel s = (Ok capped, s1) ->
  py_max (PFloat 0.0) capped s1 = (Ok out, s2) ->
  exists a q,
    num_of accel = Some a /\ num_of out = Some q /\
    (0 <= q)%Q /\ (q <= 1)%Q /\
    ((a <= 0)%Q -> (q == 0)%Q) /\
    ((1 <= a)%Q -> (q == 1)%Q) /\
    ((0 <= a)%Q -> (a <= 1)%Q -> (q == a)%Q).
Proof.
  unfold py_min, py_max, py_lt, py_gt, bind, as_num, ret, raise.
  destruct accel as [|z|x|t]; try discriminate.
  - destruct (Qltb (inject_Z z) 1.0) eqn:E1; intros [= <- <-].
    + destruct (Qltb 0.0 (inject_Z z)) eqn:E2; intros [= <- _].
      * apply Qltb_lt in E1, E2. exists (inject_Z z), (inject_Z z).
        repeat split; try reflexivity; intros; lra.
      * apply Qltb_lt in E1. apply Qltb_ge in E2.
        exists (inject_Z z), 0.0%Q. repeat split; try reflexivity; intros; lra.
    + apply Qltb_ge in E1. cbn. intros [= <- _].
      exists (inject_Z z), 1.0%Q. repeat split; try reflexivity; intros; lra.
  - destruct (Qltb x 1.0) eqn:E1; intros [= <- <-].
    + destruct (Qltb 0.0 x) eqn:E2; intros [= <- _].
      * apply Qltb_lt in E1, E2. exists x, x.
        repeat split; try reflexivity; intros; lra.
      * apply Qltb_lt in E1. apply Qltb_ge in E2.
        exists x, 0.0%Q. repeat split; try reflexivity; intros; lra.
    + apply Qltb_ge in E1. cbn. intros [= <- _].
      exists x, 1.0%Q. repeat split; try reflexivity; intros; lra.
Qed.

Ltac pass H lem :=
  let v := fresh "v" in
  let s1 := fresh "s" in
  let E := fresh "E" in
  apply bind_ok in H as (v & s1 & E & H);
  pose proof (silent_state _ _ _ _ lem E); subst s1.

(** The accel that [speed] reaches for before the clamp: the old one, raised
    by 0.3 or lowered by 0.2. *)
Lemma raw_accel_step {S} (s s1 : S) accel target lower raw :
  py_lt accel target s = (Ok lower, s) ->
  (if lower then py_add accel (PFloat 0.3)
   else
     higher <- py_gt accel target ;;
     if higher then py_sub accel (PFloat 0.2) else ret accel) s = (Ok raw, s1) ->
  exists a r,
    num_of accel = Some a /\ num_of raw = Some r /\
    (a - 0.2 <= r)%Q /\ (r <= a + 0.3)%Q.
Proof.
  intros Hlt Hraw.
  assert (Hnum : exists a, num_of accel = Some a).
  { unfold py_lt, bind in Hlt. destruct accel; try discriminate; cbn; eauto. }
  destruct Hnum as (a & Ha). exists a.
  destruct lower.
  - destruct accel as [|z|x|t]; try discriminate;
      (cbn in Ha; injection Ha as <-; cbn in Hraw; injection Hraw as <- _;
       eexists; split; [reflexivity | split; [reflexivity | split; lra]]).
  - unfold bind in Hraw.
    destruct (py_gt accel target s) as [[[|]|e] s'] eqn:Eh; try discriminate.
    + destruct accel as [|z|x|t]; try discriminate;
        (cbn in Ha; injection Ha as <-; cbn in Hraw; injection Hraw as <- _;
         eexists; split; [reflexivity | split; [reflexivity | split; lra]]).
    + cbn in Hraw. injection Hraw as <- _. exists a.
      split; [exact Ha|]. split; [exact Ha|]. split; lra.
Qed.

(** When [speed] returns it has assigned the accel and nothing else: a
    number between 0 and 1, at most 0.3 above and 0.2 below the accel it
    found when that was in range. *)
Lemma rule_speed_result (d d' : RuleDriver.t) :
  RuleDriver.speed d = (Ok tt, d') ->
  exists v a q,
    d' = RuleDriver.set_control
           (CarControl.set_accel v (RuleDriver.control d)) d /\
    num_of (CarControl.accel (RuleDriver.control d)) = Some a /\
    num_of v = Some q /\
    (0 <= q)%Q /\ (q <= 1)%Q /\
    ((0 <= a)%Q -> (a <= 1)%Q -> (a - 0.2 <= q)%Q /\ (q <= a + 0.3)%Q).
Proof.
  intros Hrun. unfold RuleDriver.speed in Hrun.
  unfold bind at 1, get at 1 in Hrun.
  pass Hrun (silent_py_abs (S := RuleDriver.t) (CarControl.steer (RuleDriver.control d))).
  pass Hrun (silent_py_abs (S := RuleDriver.t)
               (of_float (CarState.trackPos (RuleDriver.state d)))).
  pass Hrun (silent_py_mul (S := RuleDriver.t) v0 (PFloat 0.3)).
  pass Hrun (silent_py_add (S := RuleDriver.t) v v1).
  pass Hrun (silent_py_mul (S := RuleDriver.t) v2 (PFloat RuleDriver.CURVATURE_SENSITIVITY)).
  pass Hrun (silent_ahead (CarState.getTrack (RuleDriver.state d)) v3).
  cbv zeta in Hrun.
  pass Hrun (silent_py_lt (S := RuleDriver.t)
               (of_float (CarState.getSpeedX (RuleDriver.state d)))
               (PInt RuleDriver.max_speed)).
  apply bind_ok in Hrun as (target & s1 & Et & Hrun).
  assert (s1 = d).
  { destruct v5; [exact (silent_state _ _ _ _ (silent_py_mul _ _) Et)|].
    now injection Et as _ <-. }
  subst s1. clear Et.
  pass Hrun (silent_py_gt (S := RuleDriver.t) (snd v4) (PFloat RuleDriver.MIN_TURN_THRESHOLD)).
  apply bind_ok in Hrun as (target' & s1 & Et & Hrun).
  assert (s1 = d).
  { destruct v6; [|now injection Et as _ <-].
    refine (silent_state _ _ _ _ _ Et).
    apply silent_bind; [apply silent_py_min | intros ?].
    apply silent_bind; [apply silent_py_sub | intros ?].
    apply silent_bind; [apply silent_py_mul | intros ?].
    apply silent_py_max. }
  subst s1. clear Et.
  apply bind_ok in Hrun as (lower & s1 & Elower & Hrun).
  pose proof (silent_state _ _ _ _ (silent_py_lt _ _) Elower). subst s1.
  apply bind_ok in Hrun as (raw & s1 & Eraw & Hrun).
  destruct (raw_accel_step _ _ _ _ _ _ Elower Eraw) as (a & r & Ha & Hr & Hr1 & Hr2).
  assert (s1 = d).
  { destruct lower; [exact (silent_state _ _ _ _ (silent_py_add _ _) Eraw)|].
    refine (silent_state _ _ _ _ _ Eraw).
    apply silent_bind; [apply silent_py_gt | intros [|]];
      [apply silent_py_sub | apply silent_ret]. }
  subst s1.
  apply bind_ok in Hrun as (capped & s1 & Emin & Hrun).
  apply bind_ok in Hrun as (out & s2 & Emax & Hrun).
  destruct (clamp_within _ _ _ _ _ _ Emin Emax)
    as (r' & q & Hr' & Hq & Hq0 & Hq1 & Hlow & Hhigh & Hmid).
  rewrite Hr in Hr'. injection Hr' as <-.
  pose proof (silent_state _ _ _ _ (silent_py_min _ _) Emin). subst s1.
  pose proof (silent_state _ _ _ _ (silent_py_max _ _) Emax). subst s2.
  unfold CarControl.setAccel in Hrun. rewrite rule_in_control_modify in Hrun.
  injection Hrun as <-.
  exists out, a, q. split; [reflexivity|]. split; [exact Ha|].
  split; [exact Hq|]. split; [exact Hq0|]. split; [exact Hq1|].
  intros Ha0 Ha1.
  destruct (Qlt_le_dec r 0) as [Hneg|Hpos].
  - rewrite (Hlow ltac:(lra)). split; lra.
  - destruct (Qlt_le_dec 1 r) as [Hbig|Hsmall].
    + rewrite (Hhigh ltac:(lra)). split; lra.
    + rewrite (Hmid Hpos Hsmall). split; lra.
Qed.

Lemma rule_steer_effect (s : RuleDriver.t) :
  snd (RuleDriver.steer s) = s \/
  exists v, snd (RuleDriver.steer s)
            = RuleDriver.set_control
                (CarControl.set_steer v (RuleDriver.control s)) s.
Proof.
  unfold RuleDriver.steer.
  apply (moves_get_keep (fun x => x = s)
           (fun x => x = s \/
                     exists v, x = RuleDriver.set_control
                                     (CarControl.set_steer v (RuleDriver.control s)) s));
    [|reflexivity].
  intros self _.
  apply (moves_bind _ (fun x => x = s)); [apply moves_silent, silent_py_mul|auto|].
  intros half.
  apply (moves_bind _ (fun x => x = s)); [apply moves_silent, silent_py_sub|auto|].
  intros diff.
  apply (moves_bind _ (fun x => x = s)); [apply moves_silent, silent_py_div|auto|].
  intros cmd x ->. right. exists cmd. reflexivity.
Qed.

Lemma rule_gear_effect (s : RuleDriver.t) :
  snd (RuleDriver.gear s) = s \/
  exists v, snd (RuleDriver.gear s)
            = RuleDriver.set_control
                (CarControl.set_gear v (RuleDriver.control s)) s.
Proof.
  unfold RuleDriver.gear.
  apply (moves_get_keep (fun x => x = s)
           (fun x => x = s \/
                     exists v, x = RuleDriver.set_control
                                     (CarControl.set_gear v (RuleDriver.control s)) s));
    [|reflexivity].
  intros self _.
  apply (moves_bind _ (fun x => x = s)); [|auto|].
  { apply moves_silent, silent_and_then; [apply silent_py_gt | apply silent_py_lt]. }
  intros up.
  apply (moves_bind _ (fun x => x = s)); [|auto|].
  { apply moves_silent. destruct up; [apply silent_py_add|].
    apply silent_bind.
    - apply silent_and_then; [apply silent_py_lt | apply silent_py_gt].
    - intros [|]; [apply silent_py_sub | apply silent_ret]. }
  intros g x ->. right. exists g. reflexivity.
Qed.

(** What a [drive] that returns has done: the state is the decoded message,
    steer, gear and accel are assigned, and the text is that of the command. *)
Lemma rule_drive_result msg (d d' : RuleDriver.t) text :
  RuleDriver.drive msg d = (Ok text, d') ->
  exists st steer gear accel a q,
    CarState.setFromMsg msg (RuleDriver.state d) = (Ok tt, st) /\
    d' = RuleDriver.set_control
           (sent (CarControl.set_accel accel
                    (CarControl.set_gear gear
                       (CarControl.set_steer steer (RuleDriver.control d)))))
           (RuleDriver.set_state st d) /\
    text = emitted (CarControl.actions_of (RuleDriver.control d')) /\
    num_of (CarControl.accel (RuleDriver.control d)) = Some a /\
    num_of accel = Some q /\ (0 <= q)%Q /\ (q <= 1)%Q /\
    ((0 <= a)%Q -> (a <= 1)%Q -> (a - 0.2 <= q)%Q /\ (q <= a + 0.3)%Q).
Proof.
  intros Hrun. unfold RuleDriver.drive in Hrun.
  apply bind_ok in Hrun as ([] & s1 & E1 & Hrun).
  apply bind_ok in Hrun as ([] & s2 & E2 & Hrun).
  apply bind_ok in Hrun as ([] & s3 & E3 & Hrun).
  apply bind_ok in Hrun as ([] & s4 & E4 & Hrun).
  unfold RuleDriver.in_state, zoom in E1.
  destruct (CarState.setFromMsg msg (RuleDriver.state d)) as [[[]|e] st] eqn:Est;
    [|discriminate].
  injection E1 as <-.
  assert (H2 : exists steer, s2 = RuleDriver.set_control
                 (CarControl.set_steer steer (RuleDriver.control d))
                 (RuleDriver.set_state st d)).
  { destruct (rule_steer_effect (RuleDriver.set_state st d)) as [Hs | (v & Hs)];
      rewrite E2 in Hs; cbn [snd] in Hs; subst s2.
    - exists (CarControl.steer (RuleDriver.control d)).
      destruct d as [stage state c ang]. destruct c. reflexivity.
    - exists v. reflexivity. }
  destruct H2 as (steer & ->).
  assert (H3 : exists gear, s3 = RuleDriver.set_control
                 (CarControl.set_gear gear
                    (CarControl.set_steer steer (RuleDriver.control d)))
                 (RuleDriver.set_state st d)).
  { match type of E3 with RuleDriver.gear ?x = _ =>
      destruct (rule_gear_effect x) as [Hs | (v & Hs)] end;
      rewrite E3 in Hs; cbn [snd] in Hs; subst s3.
    - exists (CarControl.gear (RuleDriver.control d)).
      destruct d as [stage state c ang]. destruct c. reflexivity.
    - exists v. reflexivity. }
  destruct H3 as (gear & ->).
  apply rule_speed_result in E4 as (accel & a & q & -> & Ha & Hq & Hrest).
  rewrite rule_toMsg in Hrun. injection Hrun as <- <-.
  exists st, steer, gear, accel, a, q.
  split; [reflexivity|]. split; [reflexivity|]. split; [reflexivity|].
  split; [exact Ha|]. split; [exact Hq | exact Hrest].
Qed.

(** X13.  A [drive] of the rule-based driver that returns leaves an accel between
    0 and 1, which is at most 0.3 above and at most 0.2 below the accel of
    the previous command when that was in range; the text is that of the
    command left. *)
Theorem rule_drive_accel_is_clamped_and_rate_limited msg (d d' : RuleDriver.t) text :
  RuleDriver.drive msg d = (Ok text, d') ->
  text = emitted (CarControl.actions_of (RuleDriver.control d')) /\
  within 0 1 (CarControl.accel (RuleDriver.control d')) /\
  (forall a, num_of (CarControl.accel (RuleDriver.control d)) = Some a ->
             (0 <= a)%Q -> (a <= 1)%Q ->
             within (a - 0.2) (a + 0.3) (CarControl.accel (RuleDriver.control d'))).
Proof.
  intros Hrun.
  destruct (rule_drive_result msg d d' text Hrun)
    as (st & steer & gear & accel & a & q & _ & -> & Htext & Ha & Hq & Hq0 & Hq1 & Hrate).
  split; [exact Htext|].
  cbn [RuleDriver.control RuleDriver.set_control sent CarControl.accel
       CarControl.set_actions CarControl.set_accel].
  split.
  - exists q. auto.
  - intros a' Ha' H0 H1. rewrite Ha in Ha'. injection Ha' as <-.
    exists q. split; [exact Hq|]. now apply Hrate.
Qed.

Lemma rule_speed_effect (s : RuleDriver.t) :
  snd (RuleDriver.speed s) = s \/
  exists v, snd (RuleDriver.speed s)
            = RuleDriver.set_control
                (CarControl.set_accel v (RuleDriver.control s)) s.
Proof.
  unfold RuleDriver.speed.
  apply (moves_get_keep (fun x => x = s)
           (fun x => x = s \/
                     exists v, x = RuleDriver.set_control
                                     (CarControl.set_accel v (RuleDriver.control s)) s));
    [|reflexivity].
  intros self _.
  do 2 (apply (moves_bind _ (fun x => x = s));
        [apply moves_silent, silent_py_abs | auto | intros ?]).
  apply (moves_bind _ (fun x => x = s));
    [apply moves_silent, silent_py_mul | auto | intros ?].
  apply (moves_bind _ (fun x => x = s));
    [apply moves_silent, silent_py_add | auto | intros ?].
  apply (moves_bind _ (fun x => x = s));
    [apply moves_silent, silent_py_mul | auto | intros ?].
  apply (moves_bind _ (fun x => x = s));
    [apply moves_silent, silent_ahead | auto | intros ahead].
  cbv zeta.
  apply (moves_bind _ (fun x => x = s));
    [apply moves_silent, silent_py_lt | auto | intros below].
  apply (moves_bind _ (fun x => x = s)); [|auto|intros target].
  { apply moves_silent. destruct below; [apply silent_py_mul | apply silent_ret]. }
  apply (moves_bind _ (fun x => x = s));
    [apply moves_silent, silent_py_gt | auto | intros sharp].
  apply (moves_bind _ (fun x => x = s)); [|auto|intros target'].
  { apply moves_silent. destruct sharp; [|apply silent_ret].
    apply silent_bind; [apply silent_py_min | intros ?].
    apply silent_bind; [apply silent_py_sub | intros ?].
    apply silent_bind; [apply silent_py_mul | intros ?].
    apply silent_py_max. }
  apply (moves_bind _ (fun x => x = s));
    [apply moves_silent, silent_py_lt | auto | intros lower].
  apply (moves_bind _ (fun x => x = s)); [|auto|intros raw].
  { apply moves_silent. destruct lower; [apply silent_py_add|].
    apply silent_bind; [apply silent_py_gt | intros [|]];
      [apply silent_py_sub | apply silent_ret]. }
  apply (moves_bind _ (fun x => x = s));
    [apply moves_silent, silent_py_min | auto | intros capped].
  apply (moves_bind _ (fun x => x = s));
    [apply moves_silent, silent_py_max | auto | intros out].
  intros x ->. right. exists out. reflexivity.
Qed.

(** X14.  Whatever the message, and whether it returns or raises, [drive] of the
    rule-based driver leaves brake, clutch, focus and meta as they were: it
    never brakes. *)
Theorem rule_drive_never_touches_brake msg (d : RuleDriver.t) :
  same_pedals (RuleDriver.control d)
    (RuleDriver.control (snd (RuleDriver.drive msg d))).
Proof.
  set (I := fun x : RuleDriver.t =>
              same_pedals (RuleDriver.control d) (RuleDriver.control x)).
  assert (Hd : I d) by (repeat split).
  assert (Hsteer : moves I RuleDriver.steer I).
  { intros s Hs. destruct (rule_steer_effect s) as [-> | (v & ->)]; exact Hs. }
  assert (Hgear : moves I RuleDriver.gear I).
  { intros s Hs. destruct (rule_gear_effect s) as [-> | (v & ->)]; exact Hs. }
  assert (Hspeed : moves I RuleDriver.speed I).
  { intros s Hs. destruct (rule_speed_effect s) as [-> | (v & ->)]; exact Hs. }
  unfold RuleDriver.drive.
  apply (keeps_bind I); [|intros _|exact Hd].
  { apply moves_zoom. intros s t Hs. exact Hs. }
  apply keeps_bind; [exact Hsteer | intros _].
  apply keeps_bind; [exact Hgear | intros _].
  apply keeps_bind; [exact Hspeed | intros _].
  intros s Hs. rewrite rule_toMsg. exact Hs.
Qed.

End RuleCommands.

Lemma rule_drive_accel_is_clamped_and_rate_limited_witness :
  let d := rule_driver_at CarState.new (commanded 0.9 3) in
  within 0 1 (CarControl.accel (RuleDriver.control
                                  (snd (RuleDriver.drive sample_telemetry d)))) /\
  within (0.9 - 0.2) (0.9 + 0.3)
    (CarControl.accel (RuleDriver.control (snd (RuleDriver.drive sample_telemetry d)))).
Proof.
  intros d.
  assert (E : RuleDriver.drive sample_telemetry d
              = (Ok (fst_text (RuleDriver.drive sample_telemetry d)),
                 snd (RuleDriver.drive sample_telemetry d)))
    by (vm_compute; reflexivity).
  destruct (rule_drive_accel_is_clamped_and_rate_limited _ _ _ _ E)
    as (_ & Hin & Hrate).
  split; [exact Hin|].
  apply (Hrate 0.9%Q); [reflexivity | lra | lra].
Defined.

Section RuleTotal.
Context `{PyRuntime}.

Lemma rule_speed_total (s : RuleDriver.t) x y z a :
  CarControl.steer (RuleDriver.control s) = PFloat x ->
  CarState.trackPos (RuleDriver.state s) = Some y ->
  CarState.speedX (RuleDriver.state s) = Some z ->
  num_of (CarControl.accel (RuleDriver.control s)) = Some a ->
  exists s', RuleDriver.speed s = (Ok tt, s').
Proof.
  intros Hx Hy Hz Ha.
  unfold RuleDriver.speed. unfold bind at 1, get at 1.
  unfold CarState.getSpeedX, CarState.getTrack.
  rewrite Hx, Hy, Hz. cbn [of_float].
  destruct (CarControl.accel (RuleDriver.control s)) as [|az|aq|t];
    try discriminate; clear Ha;
    unfold py_abs, py_mul, py_add, py_sub, py_arith, py_lt, py_gt, py_min, py_max,
      py_lt, py_gt, bind, as_num, ret, RuleDriver.in_control, zoom,
      CarControl.setAccel, modify;
    cbv beta iota zeta;
    repeat match goal with
           | |- context [match ?b with _ => _ end] =>
               lazymatch b with
               | context [match _ with _ => _ end] => fail
               | _ => destruct b
               end; cbv beta iota zeta; cbn [fst snd]
           end;
    eexists; reflexivity.
Qed.

End RuleTotal.

Lemma bind_step {S A B} (m : M S A) (k : A -> M S B) s a s1 :
  m s = (Ok a, s1) -> bind m k s = k a s1.
Proof. intros E. unfold bind. now rewrite E. Qed.

Lemma bind_fail {S A B} (m : M S A) (k : A -> M S B) s e s1 :
  m s = (Raise e, s1) -> bind m k s = (Raise e, s1).
Proof. intros E. unfold bind. now rewrite E. Qed.

Section RuleNeeds.
Context `{PyRuntime}.

Lemma rule_steer_run (s : RuleDriver.t) qa qt :
  CarState.angle (RuleDriver.state s) = Some qa ->
  CarState.trackPos (RuleDriver.state s) = Some qt ->
  RuleDriver.steer s
  = (Ok tt, RuleDriver.set_control
              (CarControl.set_steer
                 (PFloat ((qa - qt * 0.5) / RuleDriver.steer_lock))
                 (RuleDriver.control s)) s).
Proof.
  intros Ha Ht. unfold RuleDriver.steer. unfold bind at 1, get at 1.
  rewrite Ha, Ht. reflexivity.
Qed.

Lemma rule_steer_needs (s : RuleDriver.t) :
  CarState.angle (RuleDriver.state s) = None \/
  CarState.trackPos (RuleDriver.state s) = None ->
  RuleDriver.steer s = (Raise TypeError, s).
Proof.
  intros Hnone. unfold RuleDriver.steer. unfold bind at 1, get at 1.
  destruct Hnone as [Hn|Hn]; rewrite Hn;
    destruct (CarState.angle (RuleDriver.state s));
    destruct (CarState.trackPos (RuleDriver.state s));
    try discriminate; reflexivity.
Qed.

Lemma rule_gear_outcome (s : RuleDriver.t) :
  (exists g, RuleDriver.gear s
             = (Ok tt, RuleDriver.set_control
                         (CarControl.set_gear g (RuleDriver.control s)) s)) \/
  RuleDriver.gear s = (Raise TypeError, s).
Proof.
  destruct (CarState.rpm (RuleDriver.state s)) as [rpm|] eqn:Hr;
    destruct (CarState.gear (RuleDriver.state s)) as [g|] eqn:Hg.
  - left. eexists. apply (rule_gear_run s rpm g Hr Hg).
  - destruct s as [stage st c ang]. cbn [RuleDriver.state] in Hr, Hg.
    unfold RuleDriver.gear, and_then, py_gt, py_lt, bind, get, as_num, ret, raise,
      CarState.getRpm, CarState.getGear.
    cbn [RuleDriver.state]. rewrite Hr, Hg. cbn [of_float of_int].
    destruct (Qltb (inject_Z RuleDriver.UPSHIFT_RPM) rpm); [right; reflexivity|].
    destruct (Qltb rpm (inject_Z RuleDriver.DOWNSHIFT_RPM)); [right; reflexivity|].
    left. eexists. reflexivity.
  - right. unfold RuleDriver.gear. unfold bind at 1, get at 1.
    unfold CarState.getRpm. rewrite Hr. reflexivity.
  - right. unfold RuleDriver.gear. unfold bind at 1, get at 1.
    unfold CarState.getRpm. rewrite Hr. reflexivity.
Qed.

Lemma rule_gear_needs_rpm (s : RuleDriver.t) :
  CarState.rpm (RuleDriver.state s) = None ->
  RuleDriver.gear s = (Raise TypeError, s).
Proof.
  intros Hn. unfold RuleDriver.gear. unfold bind at 1, get at 1.
  unfold CarState.getRpm. rewrite Hn. reflexivity.
Qed.

Lemma rule_speed_needs_speed (s : RuleDriver.t) x y :
  CarControl.steer (RuleDriver.control s) = PFloat x ->
  CarState.trackPos (RuleDriver.state s) = Some y ->
  CarState.speedX (RuleDriver.state s) = None ->
  RuleDriver.speed s = (Raise TypeError, s).
Proof.
  intros Hx Hy Hz.
  unfold RuleDriver.speed. unfold bind at 1, get at 1.
  unfold CarState.getSpeedX, CarState.getTrack.
  rewrite Hx, Hy, Hz. cbn [of_float].
  unfold py_abs, py_mul, py_add, py_sub, py_arith, py_lt, py_gt, py_min, py_max,
    py_lt, py_gt, bind, as_num, ret, raise;
    cbv beta iota zeta;
    repeat match goal with
           | |- context [match ?b with _ => _ end] =>
               lazymatch b with
               | context [match _ with _ => _ end] => fail
               | _ => destruct b
               end; cbv beta iota zeta; cbn [fst snd]
           end;
    reflexivity.
Qed.

Lemma present_reading dict f r :
  decode_in dict f = Ok r ->
  (dict_get str_eqb (tag f) dict = None -> r = Unknown) /\
  (dict_get str_eqb (tag f) dict <> None -> r <> Unknown).
Proof.
  unfold decode_in. destruct (dict_get str_eqb (tag f) dict) as [toks|].
  - intros Hd. split; [discriminate|]. intros _ ->.
    unfold decode in Hd.
    destruct f; cbn in Hd;
      match type of Hd with
      | map_res _ ?x = _ => destruct x; discriminate
      end.
  - intros [= <-]. split; [reflexivity | congruence].
Qed.

(** X15.  The telemetry that the rule-based driver needs: on a message that
    decodes, [drive] returns when angle, trackPos, rpm, gear and speedX are
    all present, and raises [TypeError] when angle, trackPos, rpm or speedX
    is absent. *)
Theorem rule_drive_needs_its_readings msg dict (d : RuleDriver.t) a :
  parse msg = Sensors dict ->
  (forall f, exists r, decode_in dict f = Ok r) ->
  num_of (CarControl.accel (RuleDriver.control d)) = Some a ->
  ((forall f, In f [FAngle; FTrackPos; FRpm; FGear; FSpeedX] ->
              dict_get str_eqb (tag f) dict <> None) ->
   exists text d', RuleDriver.drive msg d = (Ok text, d')) /\
  (forall f, In f [FAngle; FTrackPos; FRpm; FSpeedX] ->
             dict_get str_eqb (tag f) dict = None ->
             exists d', RuleDriver.drive msg d = (Raise TypeError, d')).
Proof.
  intros Hp Hall Ha.
  destruct (setFromMsg_succeeds msg (RuleDriver.state d) dict Hp Hall) as [st Hst].
  destruct (setFromMsg_result msg _ st dict Hp Hst) as [_ Hread].
  assert (Hfield : forall f,
            (dict_get str_eqb (tag f) dict = None -> read f st = Unknown) /\
            (dict_get str_eqb (tag f) dict <> None -> read f st <> Unknown))
    by (intros f; apply present_reading, Hread).
  set (s1 := RuleDriver.set_state st d).
  assert (E1 : RuleDriver.in_state (CarState.setFromMsg msg) d = (Ok tt, s1))
    by (unfold RuleDriver.in_state, zoom; rewrite Hst; reflexivity).
  unfold RuleDriver.drive. rewrite (bind_step _ _ _ _ _ E1).
  split.
  - intros Hpresent.
    assert (Hangle : exists q, CarState.angle st = Some q).
    { destruct (Hfield FAngle) as [_ Hf].
      specialize (Hf (Hpresent FAngle ltac:(simpl; tauto))).
      cbn [read] in Hf. destruct (CarState.angle st); [eauto | contradiction]. }
    assert (Htrack : exists q, CarState.trackPos st = Some q).
    { destruct (Hfield FTrackPos) as [_ Hf].
      specialize (Hf (Hpresent FTrackPos ltac:(simpl; tauto))).
      cbn [read] in Hf. destruct (CarState.trackPos st); [eauto | contradiction]. }
    assert (Hrpm : exists q, CarState.rpm st = Some q).
    { destruct (Hfield FRpm) as [_ Hf].
      specialize (Hf (Hpresent FRpm ltac:(simpl; tauto))).
      cbn [read] in Hf. destruct (CarState.rpm st); [eauto | contradiction]. }
    assert (Hgear : exists g, CarState.gear st = Some g).
    { destruct (Hfield FGear) as [_ Hf].
      specialize (Hf (Hpresent FGear ltac:(simpl; tauto))).
      cbn [read] in Hf. destruct (CarState.gear st); [eauto | contradiction]. }
    assert (Hspeed : exists q, CarState.speedX st = Some q).
    { destruct (Hfield FSpeedX) as [_ Hf].
      specialize (Hf (Hpresent FSpeedX ltac:(simpl; tauto))).
      cbn [read] in Hf. destruct (CarState.speedX st); [eauto | contradiction]. }
    destruct Hangle as (qa & Hqa), Htrack as (qt & Hqt), Hrpm as (qr & Hqr),
      Hgear as (g & Hg), Hspeed as (qs & Hqs).
    rewrite (bind_step _ _ _ _ _ (rule_steer_run s1 qa qt Hqa Hqt)).
    match goal with
    | |- context [bind RuleDriver.gear _ ?x] =>
        rewrite (bind_step _ _ _ _ _ (rule_gear_run x qr g Hqr Hg))
    end.
    match goal with
    | |- context [bind RuleDriver.speed _ ?x] =>
        destruct (rule_speed_total x _ qt qs a eq_refl Hqt Hqs Ha) as (s4 & Hs4)
    end.
    rewrite (bind_step _ _ _ _ _ Hs4). rewrite rule_toMsg. eauto.
  - intros f Hin Habsent.
    destruct (CarState.angle st) as [qa|] eqn:Hqa.
    2:{ rewrite (bind_fail _ _ _ _ _ (rule_steer_needs s1 (or_introl Hqa))). eauto. }
    destruct (CarState.trackPos st) as [qt|] eqn:Hqt.
    2:{ rewrite (bind_fail _ _ _ _ _ (rule_steer_needs s1 (or_intror Hqt))). eauto. }
    rewrite (bind_step _ _ _ _ _ (rule_steer_run s1 qa qt Hqa Hqt)).
    match goal with
    | |- context [bind RuleDriver.gear _ ?x] =>
        pose (s2 := x); destruct (rule_gear_outcome x) as [(g & Hg) | Hg]
    end.
    2:{ rewrite (bind_fail _ _ _ _ _ Hg). eauto. }
    rewrite (bind_step _ _ _ _ _ Hg).
    destruct (Hfield f) as [Hf _]. specialize (Hf Habsent).
    simpl in Hin. destruct Hin as [<-|[<-|[<-|[<-|[]]]]]; cbn [read] in Hf.
    + rewrite Hqa in Hf. discriminate.
    + rewrite Hqt in Hf. discriminate.
    + destruct (CarState.rpm st) eqn:Hr; [discriminate|].
      pose proof (rule_gear_needs_rpm s2 Hr) as Hn. unfold s2 in Hn.
      rewrite Hn in Hg. discriminate.
    + destruct (CarState.speedX st) eqn:Hz; [discriminate|].
      match goal with
      | |- context [bind RuleDriver.speed _ ?x] =>
          rewrite (bind_fail _ _ _ _ _ (rule_speed_needs_speed x _ qt eq_refl Hqt Hz))
      end. eauto.
Qed.

End RuleNeeds.

Lemma rule_drive_needs_its_readings_witness :
  (exists text d',
     RuleDriver.drive sample_telemetry (RuleDriver.new 3) = (Ok text, d')) /\
  (exists d',
     RuleDriver.drive (lit "(trackPos 0.0)(rpm 3000)(gear 1)(speedX 10)")
       (RuleDriver.new 3) = (Raise TypeError, d')).
Proof.
  pose (full := [(lit "angle", [lit "0.0"]); (lit "trackPos", [lit "0.0"]);
                 (lit "rpm", [lit "3000"]); (lit "gear", [lit "1"]);
                 (lit "speedX", [lit "10"]); (lit "speedY", [lit "0"]);
                 (lit "speedZ", [lit "0"])]).
  pose (partial := [(lit "trackPos", [lit "0.0"]); (lit "rpm", [lit "3000"]);
                    (lit "gear", [lit "1"]); (lit "speedX", [lit "10"])]).
  split.
  - destruct (rule_drive_needs_its_readings sample_telemetry full
                (RuleDriver.new 3) 0.0%Q) as [Hok _].
    + vm_compute. reflexivity.
    + intros f. destruct f; vm_compute; eexists; reflexivity.
    + reflexivity.
    + apply Hok. intros f Hin. simpl in Hin.
      destruct Hin as [<-|[<-|[<-|[<-|[<-|[]]]]]]; vm_compute; discriminate.
  - destruct (rule_drive_needs_its_readings
                (lit "(trackPos 0.0)(rpm 3000)(gear 1)(speedX 10)") partial
                (RuleDriver.new 3) 0.0%Q) as [_ Hfail].
    + vm_compute. reflexivity.
    + intros f. destruct f; vm_compute; eexists; reflexivity.
    + reflexivity.
    + apply (Hfail FAngle); [simpl; tauto | vm_compute; reflexivity].
Defined.

(** ** Further properties of the recovery machine *)

Section RecoveryMore.
Context {X : Type} `{PyRuntime}.
Variable super_drive : str -> M (ModelDriver.base X) str.
Variable xg_model : option (list pyval -> res (Q * Q * Q)).

Ltac open_model d :=
  let b := fresh "b" in
  destruct d as [b ? ? ? ? ? ? ? ?]; destruct b as [? ? ?];
  cbn [ModelDriver.inherited ModelDriver.use_model ModelDriver.in_recovery
       ModelDriver.recovery_start_time ModelDriver.in_post_recovery
       ModelDriver.post_recovery_start_time ModelDriver.last_recovery_time
       ModelDriver.session_start_time ModelDriver.state ModelDriver.control] in *.

Lemma body_recovery_unset now (d : ModelDriver.t X) :
  ModelDriver.in_post_recovery d = false ->
  ModelDriver.in_recovery d = true ->
  ModelDriver.recovery_start_time d = None ->
  ModelDriver.body xg_model now d = (Raise TypeError, d).
Proof.
  intros Hp Hr Ht. open_model d. subst. reflexivity.
Qed.

Lemma body_reverse_unknown now t0 (d : ModelDriver.t X) :
  ModelDriver.in_post_recovery d = false ->
  ModelDriver.in_recovery d = true ->
  ModelDriver.recovery_start_time d = Some t0 ->
  Qltb 3.0 (now - t0) = false ->
  CarState.angle (ModelDriver.state (ModelDriver.inherited d)) = None ->
  ModelDriver.body xg_model now d
  = (Raise TypeError, with_control (reverse_pedals (command d)) d).
Proof.
  intros Hp Hr Ht Hw Ha. open_model d. subst.
  unfold ModelDriver.body, bind, get, py_sub, py_arith, py_gt, py_lt, bind,
    as_num, ret, modify.
  cbn [ModelDriver.in_post_recovery ModelDriver.in_recovery
       ModelDriver.recovery_start_time ModelDriver.inherited ModelDriver.state
       of_float].
  rewrite Hw, Ha. reflexivity.
Qed.

(** The ways through the body of [drive]. *)
Lemma body_cases now (d : ModelDriver.t X)
    (P : res ModelDriver.flow * ModelDriver.t X -> Prop) :
  (forall t0,
     ModelDriver.in_post_recovery d = true ->
     ModelDriver.post_recovery_start_time d = Some t0 ->
     Qltb (now - t0) 4.0 = true ->
     P (Ok (ModelDriver.Return
              (emitted (CarControl.actions_of (hold_command (command d))))),
        with_control (sent (hold_command (command d))) d)) ->
  (ModelDriver.in_post_recovery d = true ->
   ModelDriver.post_recovery_start_time d = None ->
   P (Raise TypeError, d)) ->
  (forall d1 t0,
     resumed now d d1 ->
     ModelDriver.in_recovery d1 = true ->
     ModelDriver.recovery_start_time d1 = Some t0 ->
     Qltb 3.0 (now - t0) = true ->
     P (Ok (ModelDriver.Return
              (emitted (CarControl.actions_of (exit_command (command d1))))),
        with_control (sent (exit_command (command d1)))
          (ModelDriver.set_post_recovery_start_time (Some now)
             (ModelDriver.set_in_post_recovery true
                (ModelDriver.set_last_recovery_time now
                   (ModelDriver.set_in_recovery false d1)))))) ->
  (forall d1 t0 angle,
     resumed now d d1 ->
     ModelDriver.in_recovery d1 = true ->
     ModelDriver.recovery_start_time d1 = Some t0 ->
     Qltb 3.0 (now - t0) = false ->
     CarState.angle (ModelDriver.state (ModelDriver.inherited d1)) = Some angle ->
     P (Ok (ModelDriver.Return
              (emitted (CarControl.actions_of (reverse_command angle (command d1))))),
        with_control (sent (reverse_command angle (command d1))) d1)) ->
  (forall d1 t0,
     resumed now d d1 ->
     ModelDriver.in_recovery d1 = true ->
     ModelDriver.recovery_start_time d1 = Some t0 ->
     Qltb 3.0 (now - t0) = false ->
     CarState.angle (ModelDriver.state (ModelDriver.inherited d1)) = None ->
     P (Raise TypeError, with_control (reverse_pedals (command d1)) d1)) ->
  (forall d1,
     resumed now d d1 ->
     ModelDriver.in_recovery d1 = true ->
     ModelDriver.recovery_start_time d1 = None ->
     P (Raise TypeError, d1)) ->
  (forall d1,
     resumed now d d1 ->
     ModelDriver.in_recovery d1 = false ->
     stuck_outcome now d1 = Ok true ->
     P (Ok ModelDriver.Reinvoke,
        ModelDriver.set_recovery_start_time (Some now)
          (ModelDriver.set_in_recovery true d1))) ->
  (forall d1 e,
     resumed now d d1 ->
     ModelDriver.in_recovery d1 = false ->
     stuck_outcome now d1 = Raise e ->
     P (Raise e, d1)) ->
  (forall d1,
     resumed now d d1 ->
     ModelDriver.in_recovery d1 = false ->
     stuck_outcome now d1 = Ok false ->
     xg_model = None ->
     P (Ok (ModelDriver.Return (emitted (CarControl.actions_of (command d1)))),
        with_control (sent (command d1)) d1)) ->
  (forall d1 model steer accel brake,
     resumed now d d1 ->
     ModelDriver.in_recovery d1 = false ->
     stuck_outcome now d1 = Ok false ->
     xg_model = Some model ->
     model (model_row d1) = Ok (steer, accel, brake) ->
     P (Ok (ModelDriver.Return
              (emitted (CarControl.actions_of
                          (predicted_command steer accel brake (command d1))))),
        with_control (sent (predicted_command steer accel brake (command d1))) d1)) ->
  (forall d1 model e,
     resumed now d d1 ->
     ModelDriver.in_recovery d1 = false ->
     stuck_outcome now d1 = Ok false ->
     xg_model = Some model ->
     model (model_row d1) = Raise e ->
     P (Raise e, d1)) ->
  P (ModelDriver.body xg_model now d).
Proof.
  intros Hhold Hunset Hexit Hrev Hrevu Hrecu Hre Hsr Hplain Hmodel Hmr.
  assert (Hphase : forall d1, resumed now d d1 ->
            ModelDriver.in_post_recovery d1 = false ->
            P (ModelDriver.body xg_model now d1)).
  { intros d1 Hres Hp1.
    destruct (ModelDriver.in_recovery d1) eqn:Hr.
    - destruct (ModelDriver.recovery_start_time d1) as [t0|] eqn:Ht.
      + destruct (Qltb 3.0 (now - t0)) eqn:Hw.
        * rewrite (body_exit xg_model now t0 d1 Hp1 Hr Ht Hw). now apply (Hexit d1 t0).
        * destruct (CarState.angle (ModelDriver.state (ModelDriver.inherited d1)))
            as [angle|] eqn:Ha.
          -- rewrite (body_reverse xg_model now t0 angle d1 Hp1 Hr Ht Hw Ha).
             now apply (Hrev d1 t0).
          -- rewrite (body_reverse_unknown now t0 d1 Hp1 Hr Ht Hw Ha).
             now apply (Hrevu d1 t0).
      + rewrite (body_recovery_unset now d1 Hp1 Hr Ht). now apply Hrecu.
    - rewrite (body_idle xg_model now d1 Hp1 Hr).
      destruct (stuck_outcome now d1) as [[|]|e] eqn:Hs.
      + now apply Hre.
      + destruct xg_model as [model|] eqn:Hx.
        * destruct (model (model_row d1)) as [[[st ac] br]|e] eqn:Hm.
          -- now apply (Hmodel d1 model).
          -- now apply (Hmr d1 model).
        * now apply Hplain.
      + now apply Hsr. }
  destruct (ModelDriver.in_post_recovery d) eqn:Hp.
  - destruct (ModelDriver.post_recovery_start_time d) as [t0|] eqn:Ht.
    + destruct (Qltb (now - t0) 4.0) eqn:Hw.
      * rewrite (body_hold xg_model now t0 d Hp Ht Hw). now apply (Hhold t0).
      * rewrite (body_expired xg_model now t0 d Hp Ht Hw).
        apply Hphase; [|reflexivity].
        right. split; [exact Hp|]. exists t0. auto.
    + rewrite (body_hold_unset xg_model now d Hp Ht). now apply Hunset.
  - apply Hphase; [|exact Hp]. left. auto.
Qed.

Lemma resumed_flags now (d d1 : ModelDriver.t X) :
  resumed now d d1 ->
  ModelDriver.in_post_recovery d1 = false /\
  ModelDriver.in_recovery d1 = ModelDriver.in_recovery d /\
  ModelDriver.use_model d1 = ModelDriver.use_model d /\
  ModelDriver.inherited d1 = ModelDriver.inherited d.
Proof.
  intros [[Hp ->] | [Hp (t0 & _ & _ & ->)]]; repeat split; assumption.
Qed.

(** A pass through the body re-invokes [drive] only from outside the
    Reversing phase, and leaves the driver in it. *)
Lemma body_reinvokes now (d : ModelDriver.t X) :
  ModelDriver.use_model (snd (ModelDriver.body xg_model now d))
  = ModelDriver.use_model d /\
  (fst (ModelDriver.body xg_model now d) = Ok ModelDriver.Reinvoke ->
   ModelDriver.in_recovery d = false /\
   ModelDriver.in_recovery (snd (ModelDriver.body xg_model now d)) = true).
Proof.
  apply (body_cases now d); intros;
    repeat match goal with
           | Hres : resumed _ _ _ |- _ =>
               apply resumed_flags in Hres as (? & ? & ? & ?)
           end;
    cbn [fst snd]; (split; [assumption || (cbn; congruence) | ]);
    try (intros; discriminate).
  intros _. split; [congruence | reflexivity].
Qed.

Lemma in_base_flags {A} (m : M (ModelDriver.base X) A) (d : ModelDriver.t X) :
  ModelDriver.in_base m d
  = (fst (m (ModelDriver.inherited d)),
     ModelDriver.set_inherited (snd (m (ModelDriver.inherited d))) d).
Proof.
  unfold ModelDriver.in_base, zoom. now destruct (m (ModelDriver.inherited d)).
Qed.

(** One call of [drive] that starts in the Reversing phase reads the clock
    once. *)
Lemma drive_in_recovery_returns now later msg (d : ModelDriver.t X) :
  ModelDriver.in_recovery d = true ->
  exists out,
    ModelDriver.drive super_drive xg_model (now :: later) msg d = Some out.
Proof.
  intros Hr. cbn [ModelDriver.drive]. rewrite in_base_flags.
  destruct (fst (super_drive msg (ModelDriver.inherited d))) as [r1|e]; [|eauto].
  set (d1 := ModelDriver.set_inherited _ d).
  destruct (ModelDriver.use_model d1); [|eauto].
  destruct (body_reinvokes now d1) as [_ Hre].
  destruct (ModelDriver.body xg_model now d1) as [[[text|]|e] d2]; eauto.
  destruct (Hre eq_refl) as [Hfalse _]. cbn in Hfalse. congruence.
Qed.

(** X16.  [drive] re-invokes itself at most once: two clock readings are always
    enough for it to return, one is enough in the Reversing phase, and none
    is read while model control is off. *)
Theorem model_drive_reads_clock_at_most_twice :
  (forall msg (d : ModelDriver.t X) t1 t2 later,
     exists out,
       ModelDriver.drive super_drive xg_model (t1 :: t2 :: later) msg d = Some out) /\
  (forall msg (d : ModelDriver.t X) t1 later,
     ModelDriver.in_recovery d = true ->
     exists out,
       ModelDriver.drive super_drive xg_model (t1 :: later) msg d = Some out) /\
  (forall msg (d : ModelDriver.t X) times,
     ModelDriver.use_model d = false ->
     exists out,
       ModelDriver.drive super_drive xg_model times msg d = Some out).
Proof.
  split; [|split].
  - intros msg d t1 t2 later.
    change (ModelDriver.drive super_drive xg_model (t1 :: t2 :: later) msg d)
      with (match ModelDriver.in_base (super_drive msg) d with
            | (Raise e, self) => Some (Raise e, self)
            | (Ok _, self) =>
                if ModelDriver.use_model self then
                  match ModelDriver.body xg_model t1 self with
                  | (Ok (ModelDriver.Return text), self) => Some (Ok text, self)
                  | (Ok ModelDriver.Reinvoke, self) =>
                      ModelDriver.drive super_drive xg_model (t2 :: later) msg self
                  | (Raise e, self) => Some (Raise e, self)
                  end
                else Some (ModelDriver.in_control CarControl.toMsg self)
            end).
    rewrite in_base_flags.
    destruct (fst (super_drive msg (ModelDriver.inherited d))) as [r1|e]; [|eauto].
    set (d1 := ModelDriver.set_inherited _ d).
    destruct (ModelDriver.use_model d1); [|eauto].
    destruct (body_reinvokes t1 d1) as [_ Hre].
    destruct (ModelDriver.body xg_model t1 d1) as [[[text|]|e] d2]; eauto.
    destruct (Hre eq_refl) as [_ Htrue]. cbn [snd] in Htrue.
    now apply drive_in_recovery_returns.
  - intros msg d t1 later. apply drive_in_recovery_returns.
  - intros msg d times Hoff.
    destruct times as [|t1 later]; cbn [ModelDriver.drive]; rewrite in_base_flags;
      (destruct (fst (super_drive msg (ModelDriver.inherited d))) as [r1|e]; [|eauto]);
      cbn [ModelDriver.use_model ModelDriver.set_inherited]; rewrite Hoff; eauto.
Qed.

Lemma body_one_phase now (d : ModelDriver.t X) :
  one_phase d -> one_phase (snd (ModelDriver.body xg_model now d)).
Proof.
  unfold one_phase. intros Hd.
  apply (body_cases now d
           (fun out => ModelDriver.in_recovery (snd out)
                       && ModelDriver.in_post_recovery (snd out) = false));
    intros;
    repeat match goal with
           | Hres : resumed _ _ _ |- _ =>
               apply resumed_flags in Hres as (? & ? & ? & ?)
           end;
    cbn [snd with_control ModelDriver.in_recovery ModelDriver.in_post_recovery
         ModelDriver.set_inherited ModelDriver.set_post_recovery_start_time
         ModelDriver.set_in_post_recovery ModelDriver.set_last_recovery_time
         ModelDriver.set_in_recovery ModelDriver.set_recovery_start_time];
    try assumption; try reflexivity;
    repeat match goal with
           | E : ModelDriver.in_post_recovery _ = _ |- _ => rewrite E
           | E : ModelDriver.in_recovery _ = _ |- _ => rewrite E
           end;
    try reflexivity; try (apply andb_false_r).
Qed.

(** X17.  The two recovery phases are never on together: a call of [drive] that
    starts with at most one of them on ends with at most one of them on. *)
Theorem model_drive_keeps_one_phase times :
  forall msg (d d' : ModelDriver.t X) r,
  ModelDriver.drive super_drive xg_model times msg d = Some (r, d') ->
  one_phase d -> one_phase d'.
Proof.
  induction times as [|now later IH]; intros msg d d' r Hrun Hd;
    cbn [ModelDriver.drive] in Hrun; rewrite in_base_flags in Hrun;
    destruct (fst (super_drive msg (ModelDriver.inherited d))) as [r1|e];
    cbn [ModelDriver.use_model ModelDriver.set_inherited] in Hrun;
    try (injection Hrun as _ <-; exact Hd).
  - destruct (ModelDriver.use_model d); [discriminate|].
    injection Hrun as _ <-. exact Hd.
  - destruct (ModelDriver.use_model d).
    + match type of Hrun with
      | context [ModelDriver.body _ _ ?x] =>
          pose proof (body_one_phase now x Hd) as Hb;
          destruct (ModelDriver.body xg_model now x) as [[[text|]|e] d2]
      end; cbn [snd] in Hb.
      * injection Hrun as _ <-. exact Hb.
      * now apply (IH msg d2 d' r).
      * injection Hrun as _ <-. exact Hb.
    + injection Hrun as _ <-. exact Hd.
Qed.

Lemma counter_steer_range angle :
  (-1 <= counter_steer angle)%Q /\ (counter_steer angle <= 1)%Q.
Proof.
  unfold counter_steer.
  destruct (Qltb 0.5 angle); [|destruct (Qltb angle (-0.5))]; split; lra.
Qed.

Lemma within_float lo hi q :
  (lo <= q)%Q -> (q <= hi)%Q -> within lo hi (PFloat q).
Proof. intros Hlo Hhi. exists q. auto. Qed.

(** With a fitted model loaded, every command that a pass through the body
    returns has its pedals in range. *)
Lemma body_pedals model now (d : ModelDriver.t X) :
  xg_model = Some model ->
  match ModelDriver.body xg_model now d with
  | (Ok (ModelDriver.Return text), d') =>
      text = emitted (CarControl.actions_of (command d')) /\
      within 0 1 (CarControl.accel (command d')) /\
      within 0 1 (CarControl.brake (command d')) /\
      (ModelDriver.in_post_recovery d' = false ->
       within (-1) 1 (CarControl.steer (command d')))
  | _ => True
  end.
Proof.
  intros Hx.
  apply (body_cases now d
           (fun out =>
              match out with
              | (Ok (ModelDriver.Return text), d') =>
                  text = emitted (CarControl.actions_of (command d')) /\
                  within 0 1 (CarControl.accel (command d')) /\
                  within 0 1 (CarControl.brake (command d')) /\
                  (ModelDriver.in_post_recovery d' = false ->
                   within (-1) 1 (CarControl.steer (command d')))
              | _ => True
              end));
    intros; try exact I; try congruence;
    repeat match goal with
           | Hres : resumed _ _ _ |- _ =>
               apply resumed_flags in Hres as (? & ? & ? & ?)
           end.
  - split; [reflexivity|]. split; [apply within_float; lra|].
    split; [apply within_float; lra|]. cbn. intros Hc. congruence.
  - split; [reflexivity|]. split; [apply within_float; lra|].
    split; [apply within_float; lra|]. cbn. intros Hc. discriminate.
  - split; [reflexivity|]. split; [apply within_float; lra|].
    split; [apply within_float; lra|]. intros _.
    apply within_float; apply counter_steer_range.
  - split; [reflexivity|].
    pose proof (clip_range steer (-1.0) 1.0 ltac:(lra)) as [Hs1 Hs2].
    pose proof (clip_range accel 0.0 1.0 ltac:(lra)) as [Ha1 Ha2].
    pose proof (clip_range brake 0.0 1.0 ltac:(lra)) as [Hb1 Hb2].
    split; [apply within_float; lra|]. split; [apply within_float; lra|].
    intros _. apply within_float; lra.
Qed.

(** X18.  With a fitted model loaded and model control on, every command that
    [drive] returns has accel and brake between 0 and 1, and outside the
    forward phase a steer between -1 and 1. *)
Theorem model_drive_pedals_in_range times :
  forall msg (d d' : ModelDriver.t X) text model,
  xg_model = Some model ->
  ModelDriver.use_model d = true ->
  ModelDriver.drive super_drive xg_model times msg d = Some (Ok text, d') ->
  text = emitted (CarControl.actions_of (command d')) /\
  within 0 1 (CarControl.accel (command d')) /\
  within 0 1 (CarControl.brake (command d')) /\
  (ModelDriver.in_post_recovery d' = false ->
   within (-1) 1 (CarControl.steer (command d'))).
Proof.
  induction times as [|now later IH]; intros msg d d' text model Hx Hum Hrun;
    cbn [ModelDriver.drive] in Hrun; rewrite in_base_flags in Hrun;
    destruct (fst (super_drive msg (ModelDriver.inherited d))) as [r1|e];
    cbn [ModelDriver.use_model ModelDriver.set_inherited] in Hrun;
    rewrite ?Hum in Hrun; try discriminate.
  match type of Hrun with
  | context [ModelDriver.body _ _ ?x] =>
      pose proof (body_pedals model now x Hx) as Hb;
      destruct (body_reinvokes now x) as [Huse _];
      destruct (ModelDriver.body xg_model now x) as [[[text'|]|e] d2]
  end; cbn [snd] in Huse.
  - injection Hrun as <- <-. exact Hb.
  - apply (IH msg d2 d' text model Hx); [|exact Hrun].
    rewrite Huse. exact Hum.
  - discriminate.
Qed.

(** X19.  With model control on ([use_model]), during the first three seconds
    of the Reversing phase every [drive] whose inherited call returns and
    that finds the heading known returns the reversing command and leaves
    the phase and its timers as they are. *)
Theorem reversing_holds_for_three_seconds
    msg (d : ModelDriver.t X) now later r1 b1 t0 angle :
  ModelDriver.use_model d = true ->
  ModelDriver.in_recovery d = true ->
  ModelDriver.in_post_recovery d = false ->
  ModelDriver.recovery_start_time d = Some t0 ->
  (now - t0 <= 3)%Q ->
  super_drive msg (ModelDriver.inherited d) = (Ok r1, b1) ->
  CarState.angle (ModelDriver.state b1) = Some angle ->
  exists d',
    ModelDriver.drive super_drive xg_model (now :: later) msg d
    = Some (Ok (emitted (CarControl.actions_of (command d'))), d') /\
    d' = with_control (sent (reverse_command angle (ModelDriver.control b1)))
           (ModelDriver.set_inherited b1 d) /\
    ModelDriver.in_recovery d' = true /\
    ModelDriver.in_post_recovery d' = false /\
    ModelDriver.recovery_start_time d' = Some t0 /\
    ModelDriver.last_recovery_time d' = ModelDriver.last_recovery_time d /\
    CarControl.gear (command d') = PInt (-1) /\
    CarControl.accel (command d') = PFloat 0.3 /\
    CarControl.brake (command d') = PFloat 0.0 /\
    CarControl.steer (command d') = PFloat (counter_steer angle).
Proof.
  intros Hum Hr Hp Ht Hsoon Hs Ha.
  rewrite (drive_unfold super_drive xg_model now later msg d r1 b1 Hs Hum).
  rewrite (body_reverse xg_model now t0 angle (ModelDriver.set_inherited b1 d)
             Hp Hr Ht).
  2:{ apply Qltb_ge. lra. }
  2:{ exact Ha. }
  exists (with_control (sent (reverse_command angle (ModelDriver.control b1)))
            (ModelDriver.set_inherited b1 d)).
  repeat split; assumption.
Qed.

(** X20.  With model control on ([use_model]), the stuck test looks at the
    forward speed only once the session is more than five seconds old: with
    the speed unknown, a [drive] in the Normal state whose inherited call
    returns raises [TypeError] after that time and returns the inherited
    command before it (no model loaded). *)
Theorem unknown_speed_matters_after_five_seconds
    msg (d : ModelDriver.t X) now later r1 b1 :
  ModelDriver.use_model d = true ->
  ModelDriver.in_recovery d = false ->
  ModelDriver.in_post_recovery d = false ->
  super_drive msg (ModelDriver.inherited d) = (Ok r1, b1) ->
  CarState.speedX (ModelDriver.state b1) = None ->
  ((5 < now - ModelDriver.session_start_time d)%Q ->
   ModelDriver.drive super_drive xg_model (now :: later) msg d
   = Some (Raise TypeError, ModelDriver.set_inherited b1 d)) /\
  ((now - ModelDriver.session_start_time d <= 5)%Q ->
   xg_model = None ->
   ModelDriver.drive super_drive xg_model (now :: later) msg d
   = Some (Ok (emitted (CarControl.actions_of (ModelDriver.control b1))),
           with_control (sent (ModelDriver.control b1))
             (ModelDriver.set_inherited b1 d))).
Proof.
  intros Hum Hr Hp Hs Hspeed.
  rewrite (drive_unfold super_drive xg_model now later msg d r1 b1 Hs Hum).
  rewrite (body_idle xg_model now (ModelDriver.set_inherited b1 d) Hp Hr).
  unfold stuck_outcome.
  replace (CarState.speedX
             (ModelDriver.state
                (ModelDriver.inherited (ModelDriver.set_inherited b1 d))))
    with (@None Q) by (symmetry; exact Hspeed).
  split.
  - intros Hold.
    assert (Ho : Qltb (inject_Z 5)
                   (now - ModelDriver.session_start_time
                            (ModelDriver.set_inherited b1 d)) = true)
      by (apply Qltb_lt; exact Hold).
    rewrite Ho. reflexivity.
  - intros Hyoung ->.
    assert (Hy : Qltb (inject_Z 5)
                   (now - ModelDriver.session_start_time
                            (ModelDriver.set_inherited b1 d)) = false)
      by (apply Qltb_ge; exact Hyoung).
    rewrite Hy. reflexivity.
Qed.

End RecoveryMore.

Lemma model_drive_keeps_one_phase_witness :
  exists r d',
    ModelDriver.drive telemetry_only None [9.5]%Q crawling reversing_since_6
    = Some (r, d') /\
    one_phase d'.
Proof.
  destruct (ModelDriver.drive telemetry_only None [9.5]%Q crawling
              reversing_since_6) as [[r d']|] eqn:Hrun.
  - exists r, d'. split; [reflexivity|].
    apply (model_drive_keeps_one_phase telemetry_only None _ _ _ _ _ Hrun).
    reflexivity.
  - vm_compute in Hrun. discriminate Hrun.
Defined.

Lemma model_drive_pedals_in_range_witness :
  exists d',
    ModelDriver.drive telemetry_only (Some eager_model) [1]%Q rolling model_on
    = Some (Ok (emitted (CarControl.actions_of (command d'))), d') /\
    within 0 1 (CarControl.accel (command d')) /\
    within 0 1 (CarControl.brake (command d')) /\
    within (-1) 1 (CarControl.steer (command d')).
Proof.
  destruct (ModelDriver.drive telemetry_only (Some eager_model) [1]%Q rolling
              model_on) as [[[text|e] d']|] eqn:Hrun.
  - destruct (model_drive_pedals_in_range telemetry_only (Some eager_model)
                [1]%Q rolling model_on d' text eager_model eq_refl eq_refl Hrun)
      as (-> & Ha & Hb & Hs).
    exists d'. split; [reflexivity|]. split; [exact Ha|]. split; [exact Hb|].
    apply Hs. vm_compute in Hrun. injection Hrun as _ <-. reflexivity.
  - vm_compute in Hrun. discriminate Hrun.
  - vm_compute in Hrun. discriminate Hrun.
Defined.

Lemma reversing_holds_for_three_seconds_witness :
  exists d',
    ModelDriver.drive telemetry_only None [8]%Q crawling reversing_since_6
    = Some (Ok (emitted (CarControl.actions_of (command d'))), d') /\
    ModelDriver.in_recovery d' = true /\
    ModelDriver.recovery_start_time d' = Some 6%Q /\
    CarControl.gear (command d') = PInt (-1) /\
    CarControl.steer (command d') = PFloat (counter_steer 0.7).
Proof.
  pose (first := telemetry_only crawling (ModelDriver.inherited reversing_since_6)).
  destruct (reversing_holds_for_three_seconds telemetry_only None
              crawling reversing_since_6 8%Q [] (fst_text first) (snd first)
              6%Q 0.7%Q)
    as (d' & Hrun & _ & Hrec & _ & Hstart & _ & Hgear & _ & _ & Hsteer);
    try (vm_compute; reflexivity).
  - vm_compute. intros Hc. discriminate Hc.
  - exists d'. repeat (split; [assumption|]). exact Hsteer.
Defined.

Lemma unknown_speed_matters_after_five_seconds_witness :
  (exists d', ModelDriver.drive telemetry_only None [6]%Q (lit "(angle 0.0)") model_on
              = Some (Raise TypeError, d')) /\
  (exists text d', ModelDriver.drive telemetry_only None [4]%Q (lit "(angle 0.0)") model_on
                   = Some (Ok text, d')).
Proof.
  pose (first := telemetry_only (lit "(angle 0.0)") (ModelDriver.inherited model_on)).
  split.
  - destruct (unknown_speed_matters_after_five_seconds telemetry_only None
                (lit "(angle 0.0)") model_on 6%Q [] (fst_text first) (snd first))
      as [Hold _]; try (vm_compute; reflexivity).
    eexists. apply Hold. vm_compute. reflexivity.
  - destruct (unknown_speed_matters_after_five_seconds telemetry_only None
                (lit "(angle 0.0)") model_on 4%Q [] (fst_text first) (snd first))
      as [_ Hyoung]; try (vm_compute; reflexivity).
    eexists. eexists. apply Hyoung; [|reflexivity].
    vm_compute. intros Hc. discriminate Hc.
Defined.

(** ** The racing loop: timeouts, counting and leaving *)

Section RacingMore.
Context {D : Type} `{Policy D}.

(** A received datagram is handled without looking at the timeout counter. *)
Lemma tick_same_run max_steps buf (c1 c2 : PyClient.client) :
  same_run c1 c2 ->
  PyClient.tick max_steps (Some buf) c1 = PyClient.tick max_steps (Some buf) c2.
Proof.
  intros (Hd & Hs & Hc). unfold PyClient.tick. rewrite Hd, Hs, Hc. reflexivity.
Qed.

Lemma tick_no_sleep max_steps buf (c : PyClient.client) :
  filter (fun e => match e with PyClient.Sleep => false | _ => true end)
    (fst (fst (PyClient.tick max_steps (Some buf) c)))
  = fst (fst (PyClient.tick max_steps (Some buf) c)).
Proof.
  unfold PyClient.tick.
  destruct (nonempty buf && contains (lit "***shutdown***") buf).
  { destruct (policy_onShutDown (PyClient.d c)) as [[u|e] d']; reflexivity. }
  destruct (nonempty buf && contains (lit "***restart***") buf).
  { destruct (policy_onRestart (PyClient.d c)) as [[u|e] d']; reflexivity. }
  destruct (negb (PyClient.currentStep c + 1 =? max_steps)%Z); [|reflexivity].
  destruct (nonempty buf); [|reflexivity].
  destruct (policy_drive buf (PyClient.d c)) as [[out|e] d']; [|reflexivity].
  destruct (nonempty out); reflexivity.
Qed.

Lemma acted_cons events ticks :
  acted (events :: ticks)
  = filter (fun e => match e with PyClient.Sleep => false | _ => true end) events
    ++ acted ticks.
Proof. unfold acted. cbn [List.concat]. apply filter_app. Qed.

Lemma racing_timeouts inputs :
  forall max_steps (c1 c2 : PyClient.client),
  same_run c1 c2 ->
  acted (fst (fst (PyClient.racing max_steps inputs c1)))
  = acted (fst (fst (PyClient.racing max_steps (heard inputs) c2))) /\
  same_run (snd (fst (PyClient.racing max_steps inputs c1)))
           (snd (fst (PyClient.racing max_steps (heard inputs) c2))) /\
  snd (PyClient.racing max_steps inputs c1)
  = snd (PyClient.racing max_steps (heard inputs) c2).
Proof.
  induction inputs as [|[buf|] rest IH]; intros max_steps c1 c2 Hsame.
  - cbn. auto.
  - cbn [heard filter PyClient.racing]. fold (heard rest).
    rewrite (tick_same_run max_steps buf c1 c2 Hsame).
    destruct (PyClient.tick max_steps (Some buf) c2) as [[events c'] st].
    destruct st.
    + specialize (IH max_steps c' c' (conj eq_refl (conj eq_refl eq_refl))).
      destruct (PyClient.racing max_steps rest c') as [[later1 c1'] st1].
      destruct (PyClient.racing max_steps (heard rest) c') as [[later2 c2'] st2].
      cbn [fst snd] in *. destruct IH as (Hev & Hrun & Hst).
      rewrite !acted_cons, Hev. auto.
    + cbn [fst snd]. repeat split; reflexivity.
    + cbn [fst snd]. repeat split; reflexivity.
  - cbn [heard filter PyClient.racing PyClient.tick]. fold (heard rest).
    destruct Hsame as (Hd & Hs & Hc).
    specialize (IH max_steps
                  (PyClient.mk (PyClient.d c1) (PyClient.currentStep c1)
                     (PyClient.consecutive_timeouts c1 + 1)
                     (PyClient.shutdownClient c1)) c2
                  (conj Hd (conj Hs Hc))).
    destruct (PyClient.racing max_steps rest _) as [[later1 c1'] st1].
    destruct (PyClient.racing max_steps (heard rest) c2) as [[later2 c2'] st2].
    cbn [fst snd] in *. destruct IH as (Hev & Hrun & Hst).
    rewrite acted_cons. cbn [filter app]. auto.
Qed.

(** X21.  A timeout of [recvfrom] changes nothing but the timeout counter: the
    run with the timeouts left out calls the driver with the same datagrams,
    sends the same commands, ends in the same way and leaves the same
    driver, step count and shutdown flag. *)
Theorem timeouts_change_nothing max_steps inputs (c : PyClient.client) :
  acted (fst (fst (PyClient.racing max_steps inputs c)))
  = acted (fst (fst (PyClient.racing max_steps (heard inputs) c))) /\
  same_run (snd (fst (PyClient.racing max_steps inputs c)))
           (snd (fst (PyClient.racing max_steps (heard inputs) c))) /\
  snd (PyClient.racing max_steps inputs c)
  = snd (PyClient.racing max_steps (heard inputs) c).
Proof. apply racing_timeouts. repeat split; reflexivity. Qed.

(** What a tick that keeps the loop racing has done. *)
Lemma tick_racing max_steps received (c c' : PyClient.client) events :
  PyClient.tick max_steps received c = (events, c', PyClient.Racing) ->
  PyClient.shutdownClient c' = PyClient.shutdownClient c /\
  match received with
  | None =>
      PyClient.currentStep c' = PyClient.currentStep c /\
      PyClient.consecutive_timeouts c'
      = (PyClient.consecutive_timeouts c + 1)%Z
  | Some buf =>
      PyClient.currentStep c' = (PyClient.currentStep c + 1)%Z /\
      PyClient.consecutive_timeouts c' = 0%Z /\
      (nonempty buf = true -> marker_free buf = true)
  end.
Proof.
  unfold PyClient.tick, marker_free. destruct received as [buf|].
  2:{ intros Ht. injection Ht as <- <-. cbn. auto. }
  destruct (nonempty buf); cbn [andb].
  - destruct (contains (lit "***shutdown***") buf).
    { destruct (policy_onShutDown (PyClient.d c)) as [[u|e] d'];
        intros Ht; discriminate Ht. }
    destruct (contains (lit "***restart***") buf).
    { destruct (policy_onRestart (PyClient.d c)) as [[u|e] d'];
        intros Ht; discriminate Ht. }
    destruct (negb (PyClient.currentStep c + 1 =? max_steps)%Z).
    + destruct (policy_drive buf (PyClient.d c)) as [[out|e] d'];
        intros Ht; [|discriminate Ht].
      injection Ht as <- <-. cbn. auto.
    + intros Ht. injection Ht as <- <-. cbn. auto.
  - destruct (negb (PyClient.currentStep c + 1 =? max_steps)%Z);
      intros Ht; injection Ht as <- <-; cbn; repeat split; intros Hc;
      discriminate Hc.
Qed.

(** X22.  A run that is still racing has read every input; each datagram, empty
    ones included, has advanced the step counter by one and no timeout has;
    no datagram held a control marker and the shutdown flag is as it was. *)
Theorem racing_counts_every_datagram inputs :
  forall max_steps (c c' : PyClient.client) ticks,
  PyClient.racing max_steps inputs c = (ticks, c', PyClient.Racing) ->
  List.length ticks = List.length inputs /\
  PyClient.currentStep c'
  = (PyClient.currentStep c + Z.of_nat (List.length (heard inputs)))%Z /\
  PyClient.shutdownClient c' = PyClient.shutdownClient c /\
  (forall buf, In (Some buf) inputs -> nonempty buf = true ->
               marker_free buf = true).
Proof.
  induction inputs as [|received rest IH]; intros max_steps c c' ticks Hrun.
  - cbn in Hrun. injection Hrun as <- <-. cbn [List.length heard filter In].
    split; [reflexivity|]. split; [cbn; lia|]. split; [reflexivity|].
    intros buf [].
  - cbn [PyClient.racing] in Hrun.
    destruct (PyClient.tick max_steps received c) as [[events c1] st] eqn:Ht.
    destruct st; try discriminate Hrun.
    destruct (PyClient.racing max_steps rest c1) as [[later c2] st2] eqn:Hr.
    injection Hrun as <- <- ->.
    destruct (IH max_steps c1 c2 later Hr) as (Hlen & Hstep & Hflag & Hfree).
    destruct (tick_racing max_steps received c c1 events Ht) as (Hf1 & Hrec).
    split; [cbn; lia|]. split; [|split].
    + destruct received as [buf|]; cbn [heard filter List.length];
        fold (heard rest); destruct Hrec as (Hs1 & _); lia.
    + congruence.
    + intros buf [Heq|Hin] Hne; [|now apply Hfree].
      subst received. now apply Hrec.
Qed.

(** What a tick that leaves the loop has done. *)
Lemma tick_left max_steps received (c c' : PyClient.client) events shutdown :
  PyClient.tick max_steps received c = (events, c', PyClient.Left shutdown) ->
  exists buf,
    received = Some buf /\
    nonempty buf = true /\
    contains (lit "***shutdown***") buf = shutdown /\
    contains (marker shutdown) buf = true /\
    events = [leaving shutdown] /\
    PyClient.currentStep c' = PyClient.currentStep c /\
    PyClient.consecutive_timeouts c' = 0%Z /\
    PyClient.shutdownClient c' = (shutdown || PyClient.shutdownClient c)%bool.
Proof.
  unfold PyClient.tick. destruct received as [buf|];
    [|intros Ht; discriminate Ht].
  destruct (nonempty buf) eqn:Hne; cbn [andb].
  - destruct (contains (lit "***shutdown***") buf) eqn:Hsd.
    { destruct (policy_onShutDown (PyClient.d c)) as [[u|e] d'];
        intros Ht; [|discriminate Ht].
      injection Ht as <- <- <-. exists buf. unfold marker, leaving.
      rewrite Hsd, Hne. repeat (split; [reflexivity|]). reflexivity. }
    destruct (contains (lit "***restart***") buf) eqn:Hrs.
    { destruct (policy_onRestart (PyClient.d c)) as [[u|e] d'];
        intros Ht; [|discriminate Ht].
      injection Ht as <- <- <-. exists buf. unfold marker, leaving.
      rewrite Hsd, Hrs, Hne. repeat (split; [reflexivity|]). reflexivity. }
    destruct (negb (PyClient.currentStep c + 1 =? max_steps)%Z).
    + destruct (policy_drive buf (PyClient.d c)) as [[out|e] d'];
        intros Ht; discriminate Ht.
    + intros Ht; discriminate Ht.
  - destruct (negb (PyClient.currentStep c + 1 =? max_steps)%Z);
      intros Ht; discriminate Ht.
Qed.

(** X23.  The loop leaves only on a non-empty datagram with a control marker,
    which it does not count as a step and after which it reads nothing; the
    test for the shutdown marker comes first, and only leaving on it sets
    the shutdown flag. *)
Theorem racing_leaves_on_first_marker inputs :
  forall max_steps (c c' : PyClient.client) ticks shutdown,
  PyClient.racing max_steps inputs c = (ticks, c', PyClient.Left shutdown) ->
  exists before buf after earlier,
    inputs = before ++ Some buf :: after /\
    PyClient.racing max_steps (before ++ [Some buf]) c
    = (ticks, c', PyClient.Left shutdown) /\
    ticks = earlier ++ [[leaving shutdown]] /\
    List.length earlier = List.length before /\
    contains (lit "***shutdown***") buf = shutdown /\
    contains (marker shutdown) buf = true /\
    PyClient.currentStep c'
    = (PyClient.currentStep c + Z.of_nat (List.length (heard before)))%Z /\
    PyClient.shutdownClient c' = (shutdown || PyClient.shutdownClient c)%bool.
Proof.
  induction inputs as [|received rest IH]; intros max_steps c c' ticks shutdown Hrun.
  - cbn in Hrun. discriminate Hrun.
  - cbn [PyClient.racing] in Hrun.
    destruct (PyClient.tick max_steps received c) as [[events c1] st] eqn:Ht.
    destruct st as [|b|e]; [| |discriminate Hrun].
    + destruct (PyClient.racing max_steps rest c1) as [[later c2] st2] eqn:Hr.
      injection Hrun as <- <- ->.
      destruct (IH max_steps c1 c2 later shutdown Hr)
        as (before & buf & after & earlier & Hin & Hpre & Hticks & Hlen & Hsd
            & Hmark & Hstep & Hflag).
      destruct (tick_racing max_steps received c c1 events Ht) as (Hf1 & Hrec).
      exists (received :: before), buf, after, (events :: earlier).
      split; [cbn; congruence|]. split; [|split; [|split; [|split; [|split; [|split]]]]].
      * cbn [app PyClient.racing]. rewrite Ht, Hpre. reflexivity.
      * cbn. congruence.
      * cbn. lia.
      * exact Hsd.
      * exact Hmark.
      * destruct received as [buf0|]; cbn [heard filter List.length];
          fold (heard before); destruct Hrec as (Hs1 & _); lia.
      * congruence.
    + injection Hrun as <- <- <-.
      destruct (tick_left max_steps received c c1 events b Ht)
        as (buf & -> & Hne & Hsd & Hmark & -> & Hstep & _ & Hflag).
      exists [], buf, rest, [].
      split; [reflexivity|]. split; [|split; [|split; [|split; [|split; [|split]]]]].
      * cbn [app PyClient.racing]. rewrite Ht. reflexivity.
      * reflexivity.
      * reflexivity.
      * exact Hsd.
      * exact Hmark.
      * cbn. lia.
      * exact Hflag.
Qed.

End RacingMore.

Lemma racing_counts_every_datagram_witness :
  exists ticks c',
    PyClient.racing 0 [Some sample_telemetry; None; Some []; Some sample_telemetry]
      (PyClient.start (RuleDriver.new 3))
    = (ticks, c', PyClient.Racing) /\
    List.length ticks = 4 /\
    PyClient.currentStep c' = 3%Z.
Proof.
  pose (r := PyClient.racing 0
               [Some sample_telemetry; None; Some []; Some sample_telemetry]
               (PyClient.start (RuleDriver.new 3))).
  assert (Hrun : r = (fst (fst r), snd (fst r), PyClient.Racing))
    by (vm_compute; reflexivity).
  destruct (racing_counts_every_datagram _ _ _ _ _ Hrun) as (Hlen & Hstep & _).
  exists (fst (fst r)), (snd (fst r)).
  split; [exact Hrun|]. split; [exact Hlen | exact Hstep].
Defined.

Lemma racing_leaves_on_first_marker_witness :
  exists ticks c',
    PyClient.racing 0
      [Some sample_telemetry; Some (lit "***restart*** ***shutdown***");
       Some sample_telemetry]
      (PyClient.start (RuleDriver.new 3))
    = (ticks, c', PyClient.Left true) /\
    PyClient.shutdownClient c' = true.
Proof.
  pose (r := PyClient.racing 0
               [Some sample_telemetry;
                Some (lit "***restart*** ***shutdown***");
                Some sample_telemetry]
               (PyClient.start (RuleDriver.new 3))).
  assert (Hrun : r = (fst (fst r), snd (fst r), PyClient.Left true))
    by (vm_compute; reflexivity).
  destruct (racing_leaves_on_first_marker _ _ _ _ _ _ Hrun)
    as (before & buf & after & earlier & _ & _ & _ & _ & _ & _ & _ & Hflag).
  exists (fst (fst r)), (snd (fst r)).
  split; [exact Hrun | exact Hflag].
Defined.
